(** * cloudngfw client: configuration resolver, token manager and dispatcher

    A shallow embedding of [client.go]: the [Client] record, [initCon],
    [RefreshJwts], [Communicate] and [Initialize], followed by the
    properties of section 8 of the specification.

    Go strings and byte slices are [string]; [int] and [uint32] are [Z];
    [http.Header] is a [gmap string string]; a method with a pointer
    receiver is a computation over a state that holds the client. *)

From Stdlib Require Import ZArith String Ascii List Bool Lia.
From stdpp Require Import gmap strings.
Import ListNotations.

Local Open Scope string_scope.
Local Open Scope Z_scope.

(** ** Go standard library functions used by the client *)

Module GoStrings.

(** [strings.Split(s, sep)] for a one-byte separator: the substrings
    between separators, always at least one element. *)
Fixpoint Split (s : string) (sep : ascii) : list string :=
  match s with
  | EmptyString => [""]
  | String ch rest =>
      if Ascii.eqb ch sep then "" :: Split rest sep
      else match Split rest sep with
           | [] => [String ch ""]
           | hd :: tl => String ch hd :: tl
           end
  end.

(** [strings.Join(elems, sep)]. *)
Definition Join (elems : list string) (sep : string) : string :=
  String.concat sep elems.

End GoStrings.

Module Strconv.

Definition isDigit (ch : ascii) : bool :=
  let n := Z.of_N (N_of_ascii ch) in (48 <=? n) && (n <=? 57).

Definition digitVal (ch : ascii) : Z := Z.of_N (N_of_ascii ch) - 48.

(** Value of a run of decimal digits; [None] on any other byte. *)
Fixpoint digits (acc : Z) (s : string) : option Z :=
  match s with
  | EmptyString => Some acc
  | String ch rest =>
      if isDigit ch then digits (acc * 10 + digitVal ch) rest else None
  end.

Definition maxInt : Z := 2 ^ 63 - 1.
Definition minInt : Z := - 2 ^ 63.

(** [strconv.Atoi] on a 64-bit platform: an optional sign, at least one
    decimal digit, nothing else, and a value that fits [int]. [None]
    stands for the syntax and range errors. *)
Definition Atoi (s : string) : option Z :=
  let signed (neg : bool) (body : string) :=
    match body with
    | EmptyString => None
    | _ =>
        match digits 0 body with
        | Some n =>
            let v := if neg then - n else n in
            if (minInt <=? v) && (v <=? maxInt) then Some v else None
        | None => None
        end
    end in
  match s with
  | EmptyString => None
  | String "-" rest => signed true rest
  | String "+" rest => signed false rest
  | _ => signed false s
  end.

(** [strconv.ParseBool]. *)
Definition ParseBool (s : string) : option bool :=
  if existsb (String.eqb s) ["1"; "t"; "T"; "TRUE"; "true"; "True"] then Some true
  else if existsb (String.eqb s) ["0"; "f"; "F"; "FALSE"; "false"; "False"] then Some false
  else None.

End Strconv.

Module Textproto.

Definition code (ch : ascii) : Z := Z.of_N (N_of_ascii ch).

Definition isLower (ch : ascii) : bool := (97 <=? code ch) && (code ch <=? 122).
Definition isUpper (ch : ascii) : bool := (65 <=? code ch) && (code ch <=? 90).

(** [validHeaderFieldByte]: the token characters of RFC 7230. *)
Definition validHeaderFieldByte (ch : ascii) : bool :=
  isLower ch || isUpper ch || Strconv.isDigit ch
  || existsb (Ascii.eqb ch)
       ["!"; "#"; "$"; "%"; "&"; "'"; "*"; "+"; "-"; "."; "^"; "_"; "`"; "|"; "~"]%char.

Definition toUpper (ch : ascii) : ascii :=
  if isLower ch then ascii_of_N (N_of_ascii ch - 32) else ch.
Definition toLower (ch : ascii) : ascii :=
  if isUpper ch then ascii_of_N (N_of_ascii ch + 32) else ch.

Fixpoint allValid (s : string) : bool :=
  match s with
  | EmptyString => true
  | String ch rest => validHeaderFieldByte ch && allValid rest
  end.

(** Upper-case the first letter and every letter after a hyphen,
    lower-case the others. *)
Fixpoint recase (upper : bool) (s : string) : string :=
  match s with
  | EmptyString => EmptyString
  | String ch rest =>
      let ch' := if upper then toUpper ch else toLower ch in
      String ch' (recase (Ascii.eqb ch' "-") rest)
  end.

(** [textproto.CanonicalMIMEHeaderKey]: a key with a byte that is not
    a token character is returned unchanged. *)
Definition CanonicalMIMEHeaderKey (s : string) : string :=
  if allValid s then recase true s else s.

End Textproto.

Module Json.

(** The validating scanner of [encoding/json] ([scanner.go]), which
    [json.Unmarshal] runs over the whole input before it touches the
    destination. *)

Inductive parseKind := parseObjectKey | parseObjectValue | parseArrayValue.

Inductive scanCode :=
| scanContinue | scanBeginLiteral | scanBeginObject | scanObjectKey
| scanObjectValue | scanEndObject | scanBeginArray | scanArrayValue
| scanEndArray | scanSkipSpace | scanEnd | scanError.

Inductive stepFn :=
| stateBeginValueOrEmpty | stateBeginValue | stateBeginStringOrEmpty
| stateBeginString | stateEndValue | stateEndTop
| stateInString | stateInStringEsc | stateInStringEscU
| stateInStringEscU1 | stateInStringEscU12 | stateInStringEscU123
| stateNeg | state1 | state0 | stateDot | stateDot0
| stateE | stateESign | stateE0
| stateT | stateTr | stateTru
| stateF | stateFa | stateFal | stateFals
| stateN | stateNu | stateNul
| stateError.

Record scanner := mkScanner {
  step : stepFn;
  endTop : bool;
  parseState : list parseKind;   (* innermost first *)
  err : bool
}.

Definition maxNestingDepth : Z := 10000.

(** The byte 0x22, the JSON string delimiter. *)
Definition quote : ascii := "034"%char.

Definition reset : scanner := mkScanner stateBeginValue false [] false.

Definition setStep (f : stepFn) (s : scanner) : scanner :=
  mkScanner f (endTop s) (parseState s) (err s).

Definition error (s : scanner) : scanner * scanCode :=
  (mkScanner stateError (endTop s) (parseState s) true, scanError).

Definition isSpace (ch : ascii) : bool :=
  existsb (Ascii.eqb ch) [" "; "009"; "013"; "010"]%char.

Definition isHex (ch : ascii) : bool :=
  let n := Z.of_N (N_of_ascii ch) in
  Strconv.isDigit ch || ((97 <=? n) && (n <=? 102)) || ((65 <=? n) && (n <=? 70)).

Definition is1to9 (ch : ascii) : bool :=
  let n := Z.of_N (N_of_ascii ch) in (49 <=? n) && (n <=? 57).

Definition pushParseState (s : scanner) (k : parseKind) (ok : scanCode)
  : scanner * scanCode :=
  let s' := mkScanner (step s) (endTop s) (k :: parseState s) (err s) in
  if Z.of_nat (List.length (parseState s')) <=? maxNestingDepth then (s', ok) else error s'.

Definition popParseState (s : scanner) : scanner :=
  match parseState s with
  | [] => s
  | [_] => mkScanner stateEndTop true [] (err s)
  | _ :: rest => mkScanner stateEndValue (endTop s) rest (err s)
  end.

Definition replaceTop (k : parseKind) (s : scanner) : scanner :=
  mkScanner (step s) (endTop s) (k :: tl (parseState s)) (err s).

Definition doEndTop (s : scanner) (ch : ascii) : scanner * scanCode :=
  if isSpace ch then (s, scanEnd) else (fst (error s), scanEnd).

Definition doEndValue (s : scanner) (ch : ascii) : scanner * scanCode :=
  match parseState s with
  | [] => doEndTop (mkScanner stateEndTop true [] (err s)) ch
  | ps :: _ =>
      if isSpace ch then (setStep stateEndValue s, scanSkipSpace)
      else match ps with
           | parseObjectKey =>
               if Ascii.eqb ch ":" then
                 (setStep stateBeginValue (replaceTop parseObjectValue s), scanObjectKey)
               else error s
           | parseObjectValue =>
               if Ascii.eqb ch "," then
                 (setStep stateBeginString (replaceTop parseObjectKey s), scanObjectValue)
               else if Ascii.eqb ch "}" then (popParseState s, scanEndObject)
               else error s
           | parseArrayValue =>
               if Ascii.eqb ch "," then (setStep stateBeginValue s, scanArrayValue)
               else if Ascii.eqb ch "]" then (popParseState s, scanEndArray)
               else error s
           end
  end.

Definition doBeginValue (s : scanner) (ch : ascii) : scanner * scanCode :=
  if isSpace ch then (s, scanSkipSpace)
  else if Ascii.eqb ch "{" then
    pushParseState (setStep stateBeginStringOrEmpty s) parseObjectKey scanBeginObject
  else if Ascii.eqb ch "[" then
    pushParseState (setStep stateBeginValueOrEmpty s) parseArrayValue scanBeginArray
  else if Ascii.eqb ch quote then (setStep stateInString s, scanBeginLiteral)
  else if Ascii.eqb ch "-" then (setStep stateNeg s, scanBeginLiteral)
  else if Ascii.eqb ch "0" then (setStep state0 s, scanBeginLiteral)
  else if Ascii.eqb ch "t" then (setStep stateT s, scanBeginLiteral)
  else if Ascii.eqb ch "f" then (setStep stateF s, scanBeginLiteral)
  else if Ascii.eqb ch "n" then (setStep stateN s, scanBeginLiteral)
  else if is1to9 ch then (setStep state1 s, scanBeginLiteral)
  else error s.

Definition doBeginString (s : scanner) (ch : ascii) : scanner * scanCode :=
  if isSpace ch then (s, scanSkipSpace)
  else if Ascii.eqb ch quote then (setStep stateInString s, scanBeginLiteral)
  else error s.

Definition do0 (s : scanner) (ch : ascii) : scanner * scanCode :=
  if Ascii.eqb ch "." then (setStep stateDot s, scanContinue)
  else if Ascii.eqb ch "e" || Ascii.eqb ch "E" then (setStep stateE s, scanContinue)
  else doEndValue s ch.

Definition doESign (s : scanner) (ch : ascii) : scanner * scanCode :=
  if Strconv.isDigit ch then (setStep stateE0 s, scanContinue) else error s.

(** One literal byte [want], then on to [next]. *)
Definition expect (want : ascii) (next : stepFn) (s : scanner) (ch : ascii)
  : scanner * scanCode :=
  if Ascii.eqb ch want then (setStep next s, scanContinue) else error s.

Definition hexThen (next : stepFn) (s : scanner) (ch : ascii) : scanner * scanCode :=
  if isHex ch then (setStep next s, scanContinue) else error s.

(** [s.step(s, c)]. *)
Definition runStep (s : scanner) (ch : ascii) : scanner * scanCode :=
  match step s with
  | stateBeginValueOrEmpty =>
      if isSpace ch then (s, scanSkipSpace)
      else if Ascii.eqb ch "]" then doEndValue s ch
      else doBeginValue s ch
  | stateBeginValue => doBeginValue s ch
  | stateBeginStringOrEmpty =>
      if isSpace ch then (s, scanSkipSpace)
      else if Ascii.eqb ch "}" then doEndValue (replaceTop parseObjectValue s) ch
      else doBeginString s ch
  | stateBeginString => doBeginString s ch
  | stateEndValue => doEndValue s ch
  | stateEndTop => doEndTop s ch
  | stateInString =>
      if Ascii.eqb ch quote then (setStep stateEndValue s, scanContinue)
      else if Ascii.eqb ch "\" then (setStep stateInStringEsc s, scanContinue)
      else if (N_of_ascii ch <? 32)%N then error s
      else (s, scanContinue)
  | stateInStringEsc =>
      if existsb (Ascii.eqb ch) (quote :: ["b"; "f"; "n"; "r"; "t"; "\"; "/"]%char)
      then (setStep stateInString s, scanContinue)
      else if Ascii.eqb ch "u" then (setStep stateInStringEscU s, scanContinue)
      else error s
  | stateInStringEscU => hexThen stateInStringEscU1 s ch
  | stateInStringEscU1 => hexThen stateInStringEscU12 s ch
  | stateInStringEscU12 => hexThen stateInStringEscU123 s ch
  | stateInStringEscU123 => hexThen stateInString s ch
  | stateNeg =>
      if Ascii.eqb ch "0" then (setStep state0 s, scanContinue)
      else if is1to9 ch then (setStep state1 s, scanContinue)
      else error s
  | state1 =>
      if Strconv.isDigit ch then (setStep state1 s, scanContinue) else do0 s ch
  | state0 => do0 s ch
  | stateDot =>
      if Strconv.isDigit ch then (setStep stateDot0 s, scanContinue) else error s
  | stateDot0 =>
      if Strconv.isDigit ch then (s, scanContinue)
      else if Ascii.eqb ch "e" || Ascii.eqb ch "E" then (setStep stateE s, scanContinue)
      else doEndValue s ch
  | stateE =>
      if Ascii.eqb ch "+" || Ascii.eqb ch "-" then (setStep stateESign s, scanContinue)
      else doESign s ch
  | stateESign => doESign s ch
  | stateE0 =>
      if Strconv.isDigit ch then (s, scanContinue) else doEndValue s ch
  | stateT => expect "r" stateTr s ch
  | stateTr => expect "u" stateTru s ch
  | stateTru => expect "e" stateEndValue s ch
  | stateF => expect "a" stateFa s ch
  | stateFa => expect "l" stateFal s ch
  | stateFal => expect "s" stateFals s ch
  | stateFals => expect "e" stateEndValue s ch
  | stateN => expect "u" stateNu s ch
  | stateNu => expect "l" stateNul s ch
  | stateNul => expect "l" stateEndValue s ch
  | stateError => (s, scanError)
  end.

(** [s.eof()]: [true] when the input ended inside or before a value. *)
Definition eofError (s : scanner) : bool :=
  if err s then true
  else if endTop s then false
  else let s' := fst (runStep s " ") in negb (endTop s').

Fixpoint scanAll (s : scanner) (data : string) : option scanner :=
  match data with
  | EmptyString => Some s
  | String ch rest =>
      match runStep s ch with
      | (_, scanError) => None
      | (s', _) => scanAll s' rest
      end
  end.

(** [checkValid(data, scan) == nil]. *)
Definition checkValid (data : string) : bool :=
  match scanAll reset data with
  | Some s => negb (eofError s)
  | None => false
  end.

End Json.

(** ** Constants and types declared outside [client.go] *)

Module permissions.

(** Modelled from the spec: the package [permissions] is not part of
    [client.go]; section 3 names the auth scopes [firewall] and
    [rulestack], and the empty string is scope [none]. *)
Definition Firewall : string := "firewall".
Definition Rulestack : string := "rulestack".

End permissions.

(** Modelled from the spec: the logging constants are declared in another
    file of the package; section 3 describes nine independent flags that
    combine by bitwise OR. They are taken as consecutive single bits in
    the order in which [initCon] lists them. *)
Definition LogQuiet : Z := Z.shiftl 1 1.
Definition LogLogin : Z := Z.shiftl 1 2.
Definition LogGet : Z := Z.shiftl 1 3.
Definition LogPost : Z := Z.shiftl 1 4.
Definition LogPut : Z := Z.shiftl 1 5.
Definition LogDelete : Z := Z.shiftl 1 6.
Definition LogPath : Z := Z.shiftl 1 7.
Definition LogSend : Z := Z.shiftl 1 8.
Definition LogReceive : Z := Z.shiftl 1 9.

Definition allLogFlags : list Z :=
  [LogQuiet; LogLogin; LogGet; LogPost; LogPut; LogDelete; LogPath; LogSend; LogReceive].

(** [mask & flag == flag], the test the client uses throughout. *)
Definition hasFlag (mask flag : Z) : bool := Z.land mask flag =? flag.

(** [LogLogin | LogPost | LogPut | LogDelete]. *)
Definition defaultLogging : Z :=
  Z.lor (Z.lor (Z.lor LogLogin LogPost) LogPut) LogDelete.

(** The request body of a token fetch ([getJwt] and [jwtKeyInfo]). *)
Record jwtKeyInfo := mkJwtKeyInfo { KeyRegion : string; KeyTenant : string }.
Record getJwt := mkGetJwt { Expires : Z; KeyInfo : jwtKeyInfo }.

(** [sts.Credentials], the temporary credentials of an assumed role,
    with its three strings present, as STS returns them. *)
Record Credentials := mkCredentials {
  AccessKeyId : string;
  SecretAccessKey : string;
  SessionToken : string
}.

(** ** Data model *)

Record HttpTransport := mkTransport {
  ProxyFromEnvironment : bool;
  InsecureSkipVerify : bool
}.

Record HttpClient := mkHttpClient {
  ClientTransport : HttpTransport;
  ClientTimeout : Z              (* time.Duration, nanoseconds *)
}.

Record Request := mkRequest {
  reqMethod : string;
  reqURL : string;
  reqBody : string;
  reqHeader : gmap string string
}.

(** [Client]. [Headers] lists the entries of the Go map in the order in
    which a [range] over it visits them, an order Go leaves unspecified:
    what is proved for every list holds for every order. *)
Record Client := mkClient {
  Host : string;
  AccessKey : string;
  SecretKey : string;
  Region : string;
  Protocol : string;
  Timeout : Z;
  Headers : list (string * string);
  LfaArn : string;
  LraArn : string;
  Arn : string;
  CheckEnvironment : bool;
  SkipVerifyCertificate : bool;
  Transport : option HttpTransport;
  Logging : Z;
  LoggingFromInitialize : list string;
  FirewallJwt : string;
  RulestackJwt : string;
  credsFile : string;
  apiPrefix : string;
  con : option HttpClient;
  testData : list string;
  testErrors : list string;
  testIndex : Z;
  authFileContent : string
}.

(** [&Client{}]. *)
Definition zeroClient : Client :=
  mkClient "" "" "" "" "" 0 [] "" "" "" false false None 0 [] "" "" "" "" None [] [] 0 "".

Definition setHost (v : string) (c : Client) : Client :=
  mkClient v (AccessKey c) (SecretKey c) (Region c) (Protocol c) (Timeout c) (Headers c)
    (LfaArn c) (LraArn c) (Arn c) (CheckEnvironment c) (SkipVerifyCertificate c) (Transport c)
    (Logging c) (LoggingFromInitialize c) (FirewallJwt c) (RulestackJwt c) (credsFile c)
    (apiPrefix c) (con c) (testData c) (testErrors c) (testIndex c) (authFileContent c).

Definition setRegion (v : string) (c : Client) : Client :=
  mkClient (Host c) (AccessKey c) (SecretKey c) v (Protocol c) (Timeout c) (Headers c)
    (LfaArn c) (LraArn c) (Arn c) (CheckEnvironment c) (SkipVerifyCertificate c) (Transport c)
    (Logging c) (LoggingFromInitialize c) (FirewallJwt c) (RulestackJwt c) (credsFile c)
    (apiPrefix c) (con c) (testData c) (testErrors c) (testIndex c) (authFileContent c).

Definition setProtocol (v : string) (c : Client) : Client :=
  mkClient (Host c) (AccessKey c) (SecretKey c) (Region c) v (Timeout c) (Headers c)
    (LfaArn c) (LraArn c) (Arn c) (CheckEnvironment c) (SkipVerifyCertificate c) (Transport c)
    (Logging c) (LoggingFromInitialize c) (FirewallJwt c) (RulestackJwt c) (credsFile c)
    (apiPrefix c) (con c) (testData c) (testErrors c) (testIndex c) (authFileContent c).

Definition setTimeout (v : Z) (c : Client) : Client :=
  mkClient (Host c) (AccessKey c) (SecretKey c) (Region c) (Protocol c) v (Headers c)
    (LfaArn c) (LraArn c) (Arn c) (CheckEnvironment c) (SkipVerifyCertificate c) (Transport c)
    (Logging c) (LoggingFromInitialize c) (FirewallJwt c) (RulestackJwt c) (credsFile c)
    (apiPrefix c) (con c) (testData c) (testErrors c) (testIndex c) (authFileContent c).

Definition setHeaders (v : list (string * string)) (c : Client) : Client :=
  mkClient (Host c) (AccessKey c) (SecretKey c) (Region c) (Protocol c) (Timeout c) v
    (LfaArn c) (LraArn c) (Arn c) (CheckEnvironment c) (SkipVerifyCertificate c) (Transport c)
    (Logging c) (LoggingFromInitialize c) (FirewallJwt c) (RulestackJwt c) (credsFile c)
    (apiPrefix c) (con c) (testData c) (testErrors c) (testIndex c) (authFileContent c).

Definition setSkipVerifyCertificate (v : bool) (c : Client) : Client :=
  mkClient (Host c) (AccessKey c) (SecretKey c) (Region c) (Protocol c) (Timeout c) (Headers c)
    (LfaArn c) (LraArn c) (Arn c) (CheckEnvironment c) v (Transport c)
    (Logging c) (LoggingFromInitialize c) (FirewallJwt c) (RulestackJwt c) (credsFile c)
    (apiPrefix c) (con c) (testData c) (testErrors c) (testIndex c) (authFileContent c).

Definition setTransport (v : option HttpTransport) (c : Client) : Client :=
  mkClient (Host c) (AccessKey c) (SecretKey c) (Region c) (Protocol c) (Timeout c) (Headers c)
    (LfaArn c) (LraArn c) (Arn c) (CheckEnvironment c) (SkipVerifyCertificate c) v
    (Logging c) (LoggingFromInitialize c) (FirewallJwt c) (RulestackJwt c) (credsFile c)
    (apiPrefix c) (con c) (testData c) (testErrors c) (testIndex c) (authFileContent c).

Definition setLogging (v : Z) (c : Client) : Client :=
  mkClient (Host c) (AccessKey c) (SecretKey c) (Region c) (Protocol c) (Timeout c) (Headers c)
    (LfaArn c) (LraArn c) (Arn c) (CheckEnvironment c) (SkipVerifyCertificate c) (Transport c)
    v (LoggingFromInitialize c) (FirewallJwt c) (RulestackJwt c) (credsFile c)
    (apiPrefix c) (con c) (testData c) (testErrors c) (testIndex c) (authFileContent c).

Definition setFirewallJwt (v : string) (c : Client) : Client :=
  mkClient (Host c) (AccessKey c) (SecretKey c) (Region c) (Protocol c) (Timeout c) (Headers c)
    (LfaArn c) (LraArn c) (Arn c) (CheckEnvironment c) (SkipVerifyCertificate c) (Transport c)
    (Logging c) (LoggingFromInitialize c) v (RulestackJwt c) (credsFile c)
    (apiPrefix c) (con c) (testData c) (testErrors c) (testIndex c) (authFileContent c).

Definition setRulestackJwt (v : string) (c : Client) : Client :=
  mkClient (Host c) (AccessKey c) (SecretKey c) (Region c) (Protocol c) (Timeout c) (Headers c)
    (LfaArn c) (LraArn c) (Arn c) (CheckEnvironment c) (SkipVerifyCertificate c) (Transport c)
    (Logging c) (LoggingFromInitialize c) (FirewallJwt c) v (credsFile c)
    (apiPrefix c) (con c) (testData c) (testErrors c) (testIndex c) (authFileContent c).

Definition setApiPrefix (v : string) (c : Client) : Client :=
  mkClient (Host c) (AccessKey c) (SecretKey c) (Region c) (Protocol c) (Timeout c) (Headers c)
    (LfaArn c) (LraArn c) (Arn c) (CheckEnvironment c) (SkipVerifyCertificate c) (Transport c)
    (Logging c) (LoggingFromInitialize c) (FirewallJwt c) (RulestackJwt c) (credsFile c)
    v (con c) (testData c) (testErrors c) (testIndex c) (authFileContent c).

Definition setCon (v : option HttpClient) (c : Client) : Client :=
  mkClient (Host c) (AccessKey c) (SecretKey c) (Region c) (Protocol c) (Timeout c) (Headers c)
    (LfaArn c) (LraArn c) (Arn c) (CheckEnvironment c) (SkipVerifyCertificate c) (Transport c)
    (Logging c) (LoggingFromInitialize c) (FirewallJwt c) (RulestackJwt c) (credsFile c)
    (apiPrefix c) v (testData c) (testErrors c) (testIndex c) (authFileContent c).

(** ** Errors *)

(** Library call whose error value the client passes on unchanged. *)
Inductive origin :=
| FromReadFile | FromUnmarshalFile | FromUnmarshalHeaders | FromParseBool
| FromMarshal | FromNewRequest | FromSigner | FromTransport | FromReadBody
| FromUnmarshalBody | FromNewSession | FromAssumeRole.

Inductive cause :=
| JsonSyntax                      (* *json.SyntaxError of the validating scan *)
| Reported (msg : string).

(** The error values the client returns. One constructor per
    [fmt.Errorf] of [client.go], one for the errors of library calls, and
    [ErrOutput] for the output target returned as the error. *)
Inductive error (O : Type) :=
| ErrOnlyOneCredentials
| ErrUnknownAuth (auth : string)
| ErrSharedArn
| ErrInvalidProtocol (proto : string)
| ErrTimeoutParse (val : string)
| ErrTimeoutNotPositive (host : string)
| ErrUnknownLogging (token : string)
| ErrNoRegion
| ErrNoHost
| ErrLibrary (from : origin) (why : cause)
| ErrOutput (target : O).

Arguments ErrOnlyOneCredentials {O}.
Arguments ErrUnknownAuth {O} auth.
Arguments ErrSharedArn {O}.
Arguments ErrInvalidProtocol {O} proto.
Arguments ErrTimeoutParse {O} val.
Arguments ErrTimeoutNotPositive {O} host.
Arguments ErrUnknownLogging {O} token.
Arguments ErrNoRegion {O}.
Arguments ErrNoHost {O}.
Arguments ErrLibrary {O} from why.
Arguments ErrOutput {O} target.

(** Modelled from the spec: the error kinds of section 7. The code has
    plain [error] values; this is the classification the specification
    gives them. The errors the specification does not name are
    [Unclassified]. *)
Inductive ErrorKind :=
| MissingConfiguration | InvalidConfiguration | InvalidArgument
| UnsupportedOperation | TransportError | MalformedResponse | ApiError
| Unclassified.

Definition kindOf {O : Type} (e : error O) : ErrorKind :=
  match e with
  | ErrOnlyOneCredentials | ErrUnknownAuth _ => InvalidArgument
  | ErrSharedArn => UnsupportedOperation
  | ErrInvalidProtocol _ | ErrTimeoutParse _ | ErrTimeoutNotPositive _
  | ErrUnknownLogging _ => InvalidConfiguration
  | ErrNoRegion | ErrNoHost => MissingConfiguration
  | ErrLibrary FromParseBool _ => InvalidConfiguration
  | ErrLibrary FromTransport _ | ErrLibrary FromReadBody _ => TransportError
  | ErrLibrary FromUnmarshalBody _ => MalformedResponse
  | ErrLibrary _ _ => Unclassified
  | ErrOutput _ => ApiError
  end.

(** Outcome of a library call that returns a value or an error. *)
Inductive result (A : Type) :=
| Good (a : A)
| Bad (msg : string).

Arguments Good {A} a.
Arguments Bad {A} msg.

(** ** Observable actions *)

(** What the client does to the outside, in order: log lines and calls
    into the libraries. *)
Inductive event :=
| EvLog (line : string)
| EvReadFile (path : string)
| EvMarshal
| EvNewRequest (method url : string)
| EvSign (req : Request)
| EvDo (req : Request)
| EvReadAll
| EvUnmarshal (body : string)
| EvOk
| EvNewSession
| EvAssumeRole (arn : string).

(** ** Control flow of a Go function body *)

(** A statement falls through with a value, leaves the function with
    [return r], or panics. *)
Inductive flow (R A : Type) :=
| Next (a : A)
| Return (r : R)
| Panic (why : string).

Arguments Next {R A} a.
Arguments Return {R A} r.
Arguments Panic {R A} why.

(** How a call ends. *)
Inductive outcome (R : Type) :=
| Returned (r : R)
| Panicked (why : string).

Arguments Returned {R} r.
Arguments Panicked {R} why.

Definition isEmpty (s : string) : bool := String.eqb s "".

(** Two's-complement wrap-around of an [int64]. *)
Definition wrap64 (z : Z) : Z := (z + 2 ^ 63) mod 2 ^ 64 - 2 ^ 63.

(** [time.Second] in nanoseconds. *)
Definition Second : Z := 1000000000.

(** [json.Unmarshal(data, &v)]: the validating scan first, then the
    decoding into the destination, which is left as the decoding put it
    when that reports an error. *)
Definition Unmarshal {A : Type} (decode : string -> A -> A * option string)
    (data : string) (v : A) : A * option cause :=
  if Json.checkValid data then
    match decode data v with
    | (v', Some msg) => (v', Some (Reported msg))
    | (v', None) => (v', None)
    end
  else (v, Some JsonSyntax).

(** The method of a request that [http.NewRequest] built: an empty
    method is GET. *)
Definition requestMethod (method : string) : string :=
  if isEmpty method then "GET" else method.

(** [http.Header.Set]. *)
Definition headerSet (key value : string) (h : gmap string string) : gmap string string :=
  <[Textproto.CanonicalMIMEHeaderKey key := value]> h.

(** [for k, v := range headers { req.Header.Set(k, v) }]. *)
Definition applyHeaders (headers : list (string * string)) (h : gmap string string)
    : gmap string string :=
  fold_left (fun acc kv => headerSet (fst kv) (snd kv) acc) headers h.

(** The fixed body of testing mode. *)
Definition stubBody : string :=
  "{" ++ String Json.quote "test" ++ String Json.quote "}".

(** The [switch x] over the logging tokens. *)
Definition logFlag (x : string) : option Z :=
  if String.eqb x "quiet" then Some LogQuiet
  else if String.eqb x "login" then Some LogLogin
  else if String.eqb x "get" then Some LogGet
  else if String.eqb x "post" then Some LogPost
  else if String.eqb x "put" then Some LogPut
  else if String.eqb x "delete" then Some LogDelete
  else if String.eqb x "path" then Some LogPath
  else if String.eqb x "send" then Some LogSend
  else if String.eqb x "receive" then Some LogReceive
  else None.

(** The loop over [ll]: the accumulated mask, or the first token that
    hits the [default] case. *)
Fixpoint parseLogging (ll : list string) (lv : Z) : Z + string :=
  match ll with
  | [] => inl lv
  | x :: rest =>
      match logFlag x with
      | Some flag => parseLogging rest (Z.lor lv flag)
      | None => inr x
      end
  end.

Section Program.

(** [W] is the state of everything outside the process (environment,
    file system, network, STS, clock); [I] the values passed as [input];
    [O] the values passed as [output], the implementations of
    [api.Oker]. *)
Context {W I O : Type}.

(** The libraries and the declarations of other files, as far as the
    client uses them. Calls that reach outside take and return the
    world; the others are functions of their arguments.
    [newRequestError] is the error of [http.NewRequest] for a method
    and a URL, if it has one, and [parseURL] the URL that it stores in
    the request, which is the result of [url.Parse] and not the string
    it was given. *)
Record Externals := mkExternals {
  Getenv : W -> string -> string;
  ReadFile : W -> string -> result string;
  decodeClient : string -> option Client -> option Client * option string;
  decodeHeaders : string -> list (string * string) -> list (string * string) * option string;
  Marshal : I -> result string;
  newRequestError : string -> string -> option string;
  parseURL : string -> string;
  Sign : W -> Request -> Credentials -> string -> string -> W * (Request * option string);
  Do : W -> HttpClient -> Request -> W * option string;
  ReadAll : W -> W * result string;
  decodeOutput : string -> O -> O * option string;
  Ok : O -> bool;
  NewSession : W -> option (string * string) -> string -> W * option string;
  AssumeRole : W -> string -> string -> W * result Credentials;
  jwtRequest : getJwt -> I;
  authResponseZero : O;
  authResponseJwt : O -> string
}.

Variable X : Externals.

Record state := mkState {
  world : W;
  client : Client;
  trace : list event
}.

(** A statement of a function that returns [R]. *)
Definition M (R A : Type) : Type := state -> state * flow R A.

(** A whole function. *)
Definition proc (R : Type) : Type := state -> state * outcome R.

Definition ret {R A : Type} (a : A) : M R A := fun s => (s, Next a).

Definition bind {R A B : Type} (m : M R A) (k : A -> M R B) : M R B :=
  fun s =>
    match m s with
    | (s', Next a) => k a s'
    | (s', Return r) => (s', Return r)
    | (s', Panic why) => (s', Panic why)
    end.

Definition returnWith {R A : Type} (r : R) : M R A := fun s => (s, Return r).

Definition panic {R A : Type} (why : string) : M R A := fun s => (s, Panic why).

Definition getClient {R : Type} : M R Client := fun s => (s, Next (client s)).

Definition modify {R : Type} (f : Client -> Client) : M R unit :=
  fun s => (mkState (world s) (f (client s)) (trace s), Next tt).

Definition emit {R : Type} (ev : event) : M R unit :=
  fun s => (mkState (world s) (client s) (trace s ++ [ev])%list, Next tt).

(** A library call that only reads the world. *)
Definition ask {R A : Type} (f : W -> A) : M R A := fun s => (s, Next (f (world s))).

(** A library call that may change the world. *)
Definition act {R A : Type} (f : W -> W * A) : M R A :=
  fun s => let (w', a) := f (world s) in (mkState w' (client s) (trace s), Next a).

Definition when {R : Type} (b : bool) (m : M R unit) : M R unit :=
  if b then m else ret tt.

(** The body of a function, run to its end. *)
Definition run {R : Type} (m : M R R) : proc R :=
  fun s =>
    match m s with
    | (s', Next r) => (s', Returned r)
    | (s', Return r) => (s', Returned r)
    | (s', Panic why) => (s', Panicked why)
    end.

(** A call of one function from the body of another. *)
Definition call {R R' : Type} (p : proc R) : M R' R :=
  fun s =>
    match p s with
    | (s', Returned r) => (s', Next r)
    | (s', Panicked why) => (s', Panic why)
    end.

Notation "'let*' x ':=' c1 'in' c2" := (bind c1 (fun x => c2))
  (at level 10, x pattern, c1 at level 100, c2 at level 200).

Definition logPrintf {R : Type} (line : string) : M R unit := emit (EvLog line).

Definition getenv {R : Type} (name : string) : M R string :=
  ask (fun w => Getenv X w name).

(** [json_client.f]: a field read through a pointer that may be nil. *)
Definition deref {R : Type} (p : option Client) : M R Client :=
  match p with
  | Some j => ret j
  | None => panic "nil pointer dereference"
  end.

(** *** Communicate *)

(** What [Communicate] hands back: the two results of the Go function
    and the output target as the call left it. *)
Record reply := mkReply {
  replyBody : option string;
  replyErr : option (error O);
  replyTarget : option O
}.

(** The [switch auth] that configures the Authorization header;
    [None] is the [default] case. *)
Definition setAuth (c : Client) (auth : string) (h : gmap string string)
    : option (gmap string string) :=
  if String.eqb auth "" then Some h
  else if String.eqb auth permissions.Firewall then
    Some (headerSet "Authorization" (FirewallJwt c) h)
  else if String.eqb auth permissions.Rulestack then
    Some (headerSet "Authorization" (RulestackJwt c) h)
  else None.

(** Signing when exactly one credential set was supplied. *)
Definition signRequest (c : Client) (creds : list Credentials) (data : string)
    (output : option O) (req : Request) : M reply Request :=
  match creds with
  | [cr] =>
      let* _ := emit (EvSign req) in
      let* signed := act (fun w => Sign X w req cr data (Region c)) in
      match signed with
      | (_, Some msg) =>
          returnWith (mkReply None (Some (ErrLibrary FromSigner (Reported msg))) output)
      | (req', None) => ret req'
      end
  | _ => ret req
  end.

(** [c.con.Do(req)] and [ioutil.ReadAll(resp.Body)]; a client whose
    [con] was never set up panics on the call. The deferred close of
    the response body has no effect on the results and is left out. *)
Definition roundTrip (c : Client) (output : option O) (req : Request) : M reply string :=
  match con c with
  | None => panic "nil pointer dereference"
  | Some hc =>
      let* _ := emit (EvDo req) in
      let* failed := act (fun w => Do X w hc req) in
      match failed with
      | Some msg =>
          returnWith (mkReply None (Some (ErrLibrary FromTransport (Reported msg))) output)
      | None =>
          let* _ := emit EvReadAll in
          let* read := act (ReadAll X) in
          match read with
          | Bad msg =>
              returnWith (mkReply None (Some (ErrLibrary FromReadBody (Reported msg))) output)
          | Good body => ret body
          end
      end
  end.

(** The [else] branch of the testing switch: build, authorize, sign and
    send the request, and read the response. *)
Definition exchange (c : Client) (auth method : string) (path : list string)
    (data : string) (output : option O) (creds : list Credentials) : M reply string :=
  let url := apiPrefix c ++ "/" ++ GoStrings.Join path "/" in
  let* _ := emit (EvNewRequest method url) in
  match newRequestError X method url with
  | Some msg =>
      returnWith (mkReply None (Some (ErrLibrary FromNewRequest (Reported msg))) output)
  | None =>
      let h1 := headerSet "Content-Type" "application/json" ∅ in
      match setAuth c auth h1 with
      | None => returnWith (mkReply None (Some (ErrUnknownAuth auth)) output)
      | Some h2 =>
          let req := mkRequest (requestMethod method) (parseURL X url) data
                       (applyHeaders (Headers c) h2) in
          let* req' := signRequest c creds data output req in
          roundTrip c output req'
      end
  end.

(** [Communicate] up to the received line: the credential guard, the
    serialization of the input, and the body, from the stub in testing
    mode and from the network otherwise. *)
Definition obtainBody (auth method : string) (path : list string)
    (input : option I) (output : option O) (creds : list Credentials) : M reply string :=
  if (1 <? length creds)%nat then
    returnWith (mkReply None (Some ErrOnlyOneCredentials) output)
  else
    let* data :=
      match input with
      | None => ret ""
      | Some v =>
          let* _ := emit EvMarshal in
          match Marshal X v with
          | Bad msg =>
              returnWith (mkReply None (Some (ErrLibrary FromMarshal (Reported msg))) output)
          | Good d => ret d
          end
      end in
    let* c := getClient in
    let* _ := when (hasFlag (Logging c) LogSend) (logPrintf ("sending: " ++ data)) in
    let* body :=
      if (0 <? length (testData c))%nat then ret stubBody
      else exchange c auth method path data output creds in
    let* c := getClient in
    let* _ := when (hasFlag (Logging c) LogReceive) (logPrintf ("received: " ++ body)) in
    ret body.

(** The end of [Communicate]: no target, a body that does not decode,
    a target that reports failure, or success. *)
Definition checkOutput (output : option O) (body : string) : M reply reply :=
  match output with
  | None => ret (mkReply (Some body) None None)
  | Some target =>
      let* _ := emit (EvUnmarshal body) in
      match Unmarshal (decodeOutput X) body target with
      | (target', Some why) =>
          ret (mkReply (Some body) (Some (ErrLibrary FromUnmarshalBody why)) (Some target'))
      | (target', None) =>
          let* _ := emit EvOk in
          if negb (Ok X target') then
            ret (mkReply (Some body) (Some (ErrOutput target')) (Some target'))
          else ret (mkReply (Some body) None (Some target'))
      end
  end.

Definition Communicate (auth method : string) (path : list string)
    (input : option I) (output : option O) (creds : list Credentials) : proc reply :=
  run (
    let* body := obtainBody auth method path input output creds in
    checkOutput output body).

(** *** RefreshJwts *)

(** One of the two blocks of [RefreshJwts]: assume the role, fetch the
    token with the temporary credentials, and yield [ans.Resp.Jwt]. *)
Definition fetchJwt (what arn admin : string) (jwtReq : getJwt)
    : M (option (error O)) string :=
  let* c := getClient in
  let* _ := when (hasFlag (Logging c) LogLogin)
              (logPrintf ("(login) refreshing " ++ what ++ " JWT...")) in
  let* _ := emit (EvAssumeRole arn) in
  let* assumed := act (fun w => AssumeRole X w arn "sdk_session") in
  match assumed with
  | Bad msg => returnWith (Some (ErrLibrary FromAssumeRole (Reported msg)))
  | Good cr =>
      let* ans := call (Communicate "" "GET" ["v1"; "mgmt"; "tokens"; admin]
                          (Some (jwtRequest X jwtReq)) (Some (authResponseZero X)) [cr]) in
      match replyErr ans with
      | Some e => returnWith (Some e)
      | None => ret (authResponseJwt X (default (authResponseZero X) (replyTarget ans)))
      end
  end.

(** [creds]: static credentials when an access or secret key is set,
    nil otherwise. *)
Definition staticCredentials (c : Client) : option (string * string) :=
  if negb (isEmpty (AccessKey c)) || negb (isEmpty (SecretKey c))
  then Some (AccessKey c, SecretKey c) else None.

(** The statements before the role blocks: the login line, the request
    body, the static credentials and the STS session. *)
Definition openSession : M (option (error O)) getJwt :=
  let* c := getClient in
  let* _ := when (hasFlag (Logging c) LogLogin) (logPrintf "(login) refreshing JWTs...") in
  let jwtReq := mkGetJwt 90 (mkJwtKeyInfo (Region c) "XY") in
  let creds := staticCredentials c in
  let* _ := emit EvNewSession in
  let* failed := act (fun w => NewSession X w creds (Region c)) in
  match failed with
  | Some msg => returnWith (Some (ErrLibrary FromNewSession (Reported msg)))
  | None => ret jwtReq
  end.

Definition refreshFirewall (jwtReq : getJwt) : M (option (error O)) unit :=
  let* c := getClient in
  if negb (isEmpty (LfaArn c)) then
    let* jwt := fetchJwt "firewall" (LfaArn c) "cloudfirewalladmin" jwtReq in
    modify (setFirewallJwt jwt)
  else ret tt.

Definition refreshRulestack (jwtReq : getJwt) : M (option (error O)) unit :=
  let* c := getClient in
  if negb (isEmpty (LraArn c)) then
    let* jwt := fetchJwt "rulestack" (LraArn c) "cloudrulestackadmin" jwtReq in
    modify (setRulestackJwt jwt)
  else ret tt.

Definition RefreshJwts : proc (option (error O)) :=
  run (
    let* jwtReq := openSession in
    let* c := getClient in
    if negb (isEmpty (Arn c)) then returnWith (Some ErrSharedArn)
    else
      let* _ := refreshFirewall jwtReq in
      let* _ := refreshRulestack jwtReq in
      ret None).

(** *** initCon *)

(** Load up the JSON config file: the pointer [json_client] afterwards
    ([None] when the file holds the literal [null], which sets the
    pointer to nil). *)
Definition loadJson : M (option (error O)) (option Client) :=
  let* c := getClient in
  if negb (isEmpty (credsFile c)) then
    let* b :=
      if (length (testData c) =? 0)%nat then
        let* _ := emit (EvReadFile (credsFile c)) in
        let* read := ask (fun w => ReadFile X w (credsFile c)) in
        match read with
        | Bad msg => returnWith (Some (ErrLibrary FromReadFile (Reported msg)))
        | Good b => ret b
        end
      else ret (authFileContent c) in
    match Unmarshal (decodeClient X) b (Some zeroClient) with
    | (_, Some why) => returnWith (Some (ErrLibrary FromUnmarshalFile why))
    | (json_client, None) => ret json_client
    end
  else ret (Some zeroClient).

(** Host. *)
Definition resolveHost (json_client : option Client) : M (option (error O)) unit :=
  let* c := getClient in
  if isEmpty (Host c) then
    let* val := getenv "CLOUD_NGFW_HOST" in
    if CheckEnvironment c && negb (isEmpty val) then modify (setHost val)
    else
      let* j := deref json_client in
      modify (setHost (Host j))
  else ret tt.

(** Region. *)
Definition resolveRegion (json_client : option Client) : M (option (error O)) unit :=
  let* c := getClient in
  if isEmpty (Region c) then
    let* val := getenv "CLOUD_NGFW_REGION" in
    if CheckEnvironment c && negb (isEmpty val) then modify (setRegion val)
    else
      let* j := deref json_client in
      modify (setRegion (Region j))
  else ret tt.

(** Protocol. *)
Definition resolveProtocol (json_client : option Client) : M (option (error O)) unit :=
  let* c := getClient in
  let* _ :=
    if isEmpty (Protocol c) then
      let* val := getenv "CLOUD_NGFW_PROTOCOL" in
      if CheckEnvironment c && negb (isEmpty val) then modify (setProtocol val)
      else
        let* j := deref json_client in
        if negb (isEmpty (Protocol j)) then modify (setProtocol (Protocol j))
        else modify (setProtocol "https")
    else ret tt in
  let* c := getClient in
  if negb (String.eqb (Protocol c) "http") && negb (String.eqb (Protocol c) "https") then
    returnWith (Some (ErrInvalidProtocol (Protocol c)))
  else ret tt.

(** Timeout; yields [tout]. *)
Definition resolveTimeout (json_client : option Client) : M (option (error O)) Z :=
  let* c := getClient in
  let* _ :=
    if Timeout c =? 0 then
      let* val := getenv "CLOUD_NGFW_TIMEOUT" in
      if CheckEnvironment c && negb (isEmpty val) then
        match Strconv.Atoi val with
        | None => returnWith (Some (ErrTimeoutParse val))
        | Some ival => modify (setTimeout ival)
        end
      else
        let* j := deref json_client in
        if negb (Timeout j =? 0) then modify (setTimeout (Timeout j))
        else modify (setTimeout 20)
    else ret tt in
  let* c := getClient in
  if Timeout c <=? 0 then returnWith (Some (ErrTimeoutNotPositive (Host c)))
  else ret (wrap64 (Timeout c * Second)).

(** Headers. *)
Definition resolveHeaders (json_client : option Client) : M (option (error O)) unit :=
  let* c := getClient in
  if (length (Headers c) =? 0)%nat then
    let* val := getenv "CLOUD_NGFW_HEADERS" in
    let* _ :=
      if CheckEnvironment c && negb (isEmpty val) then
        match Unmarshal (decodeHeaders X) val (Headers c) with
        | (headers, Some why) =>
            let* _ := modify (setHeaders headers) in
            returnWith (Some (ErrLibrary FromUnmarshalHeaders why))
        | (headers, None) => modify (setHeaders headers)
        end
      else ret tt in
    let* c := getClient in
    if (length (Headers c) =? 0)%nat then
      let* j := deref json_client in
      if (0 <? length (Headers j))%nat then modify (setHeaders (Headers j))
      else ret tt
    else ret tt
  else ret tt.

(** Verify cert. *)
Definition resolveVerify (json_client : option Client) : M (option (error O)) unit :=
  let* c := getClient in
  if negb (SkipVerifyCertificate c) then
    let* val := getenv "CLOUD_NGFW_VERIFY_CERTIFICATE" in
    let* _ :=
      if CheckEnvironment c && negb (isEmpty val) then
        match Strconv.ParseBool val with
        | None => returnWith (Some (ErrLibrary FromParseBool (Reported val)))
        | Some vcb => if vcb then modify (setSkipVerifyCertificate vcb) else ret tt
        end
      else ret tt in
    let* c := getClient in
    if negb (SkipVerifyCertificate c) then
      let* j := deref json_client in
      if SkipVerifyCertificate j then modify (setSkipVerifyCertificate (SkipVerifyCertificate j))
      else ret tt
    else ret tt
  else ret tt.

(** The token list [ll] of the logging block. *)
Definition loggingTokens (json_client : option Client) : M (option (error O)) (list string) :=
  let* c := getClient in
  let* val := getenv "CLOUD_NGFW_LOGGING" in
  if CheckEnvironment c && negb (isEmpty val) then ret (GoStrings.Split val ",")
  else
    let* j := deref json_client in
    ret (LoggingFromInitialize j).

(** Logging. *)
Definition resolveLogging (json_client : option Client) : M (option (error O)) unit :=
  let* c := getClient in
  if Logging c =? 0 then
    let* ll := loggingTokens json_client in
    if (0 <? length ll)%nat then
      match parseLogging ll 0 with
      | inr x => returnWith (Some (ErrUnknownLogging x))
      | inl lv => modify (setLogging lv)
      end
    else modify (setLogging defaultLogging)
  else ret tt.

(** Setup the https client. *)
Definition setupClient (tout : Z) : M (option (error O)) unit :=
  let* c := getClient in
  let* _ :=
    match Transport c with
    | None => modify (setTransport (Some (mkTransport true (SkipVerifyCertificate c))))
    | Some _ => ret tt
    end in
  let* c := getClient in
  match Transport c with
  | Some tr => modify (setCon (Some (mkHttpClient tr tout)))
  | None => panic "nil pointer dereference"
  end.

(** Sanity checks, and the uri prefix. *)
Definition finishCon : M (option (error O)) unit :=
  let* c := getClient in
  if isEmpty (Region c) then returnWith (Some ErrNoRegion)
  else if isEmpty (Host c) then returnWith (Some ErrNoHost)
  else modify (setApiPrefix (Protocol c ++ "://" ++ Host c)).

(** Everything [initCon] does before its logging block; yields the
    loaded [json_client] and [tout]. *)
Definition beforeLogging : M (option (error O)) (option Client * Z) :=
  let* json_client := loadJson in
  let* _ := resolveHost json_client in
  let* _ := resolveRegion json_client in
  let* _ := resolveProtocol json_client in
  let* tout := resolveTimeout json_client in
  let* _ := resolveHeaders json_client in
  let* _ := resolveVerify json_client in
  ret (json_client, tout).

Definition initCon : proc (option (error O)) :=
  run (
    let* loaded := beforeLogging in
    let* _ := resolveLogging (fst loaded) in
    let* _ := setupClient (snd loaded) in
    let* _ := finishCon in
    ret None).

(** *** Initialize *)

Definition Initialize : proc (option (error O)) :=
  run (
    let* c := getClient in
    if (0 <? length (testData c))%nat then
      let* _ := modify (setHost "test.nz") in
      ret None
    else
      let* failed := call initCon in
      match failed with
      | Some e => returnWith (Some e)
      | None =>
          let* failed := call RefreshJwts in
          match failed with
          | Some e => returnWith (Some e)
          | None => ret None
          end
      end).

End Program.

(** *** Log *)

Section LogPrinter.

(** [A] is the type of the values passed as [i ...]; [Sprintf] is
    [fmt.Sprintf] over them. *)
Context {W A : Type}.
Variable Sprintf : string -> list A -> string.

Notation "'let*' x ':=' c1 'in' c2" := (bind c1 (fun x => c2))
  (at level 10, x pattern, c1 at level 100, c2 at level 200).

(** [Log]: the [switch method] returns from the function when the bit
    of the method is not set, and for every method that is none of the
    four constants of [net/http]. *)
Definition Log (method msg : string) (i : list A) : @proc W unit :=
  run (
    let* c := getClient in
    let* _ :=
      if String.eqb method "GET" then
        if negb (hasFlag (Logging c) LogGet) then returnWith tt else ret tt
      else if String.eqb method "POST" then
        if negb (hasFlag (Logging c) LogPost) then returnWith tt else ret tt
      else if String.eqb method "PUT" then
        if negb (hasFlag (Logging c) LogPut) then returnWith tt else ret tt
      else if String.eqb method "DELETE" then
        if negb (hasFlag (Logging c) LogDelete) then returnWith tt else ret tt
      else returnWith tt in
    logPrintf ("(" ++ method ++ ") " ++ Sprintf msg i)).

End LogPrinter.

(** ** A concrete outside world *)

Module Scenario.

(** The world is the list of URLs requested so far, newest first, and
    whether the AWS configuration of the machine is broken (a custom CA
    bundle that cannot be opened), which makes the session fail. Payloads are
    their own JSON text; an output target is a token and a success
    flag. The environment sets only the logging variable, the server
    answers one path with a failure report and every other with an
    empty object, and STS refuses one role. *)
Record world := mkWorld { requested : list string; brokenConfig : bool }.

Definition payload : Type := string.
Definition answer : Type := (string * bool)%type.

Definition awsSigned (req : Request) : Request :=
  mkRequest (reqMethod req) (reqURL req) (reqBody req)
    (headerSet "Authorization" "AWS4-HMAC-SHA256" (reqHeader req)).

Definition respond (w : world) : result string :=
  match requested w with
  | url :: _ =>
      if String.eqb url "https://ngfw.example.com/v1/missing" then Good "[404]" else Good "{}"
  | [] => Bad "unexpected EOF"
  end.

Definition decode (body : string) (target : answer) : answer * option string :=
  if String.eqb body "{}" then (("token-1", true), None)
  else if String.eqb body "[404]" then (("", false), None)
  else (target, Some "json: cannot unmarshal").

Definition externals : @Externals world payload answer :=
  mkExternals
    (fun _ name => if String.eqb name "CLOUD_NGFW_LOGGING" then "get,verbose" else "")
    (fun _ _ => Bad "open: no such file or directory")
    (fun _ p => (p, None))
    (fun _ h => (h, None))
    (fun v => if String.eqb v "chan" then Bad "json: unsupported type" else Good v)
    (fun _ _ => None)
    (fun url => url)
    (fun w req _ _ _ => (w, (awsSigned req, None)))
    (fun w _ req => (mkWorld (reqURL req :: requested w) (brokenConfig w), None))
    (fun w => (w, respond w))
    decode
    snd
    (fun w _ _ => (w, if brokenConfig w then Some "LoadCustomCABundleError" else None))
    (fun w arn _ =>
       (w, if String.eqb arn "arn:denied" then Bad "AccessDenied"
           else Good (mkCredentials "ASIA" "secret" "session")))
    (fun _ => "token request")
    ("", false)
    fst.

Definition start (c : Client) : @state world := mkState (mkWorld [] false) c [].

(** The same start on a machine whose AWS configuration is broken. *)
Definition startBroken (c : Client) : @state world := mkState (mkWorld [] true) c [].

Definition someCredentials : Credentials := mkCredentials "ASIA" "secret" "session".

(** A client as a caller fills it in: host and region only. *)
Definition plain : Client :=
  mkClient "ngfw.example.com" "" "" "us-east-1" "" 0 [] "" "" "" false false None 0 []
    "" "" "" "" None [] [] 0 "".

(** The same client after a successful [initCon]. *)
Definition ready : Client :=
  mkClient "ngfw.example.com" "" "" "us-east-1" "https" 20 [] "" "" "" false false
    (Some (mkTransport true false)) defaultLogging []
    "old-firewall" "old-rulestack" "" "https://ngfw.example.com"
    (Some (mkHttpClient (mkTransport true false) 20000000000)) [] [] 0 "".

(** A client in testing mode. *)
Definition offline : Client :=
  mkClient "ngfw.example.com" "" "" "us-east-1" "" 0 [] "" "" "" false false None 0 []
    "" "" "" "" None ["canned"] [] 0 "".

Definition withArns (lfa lra arn : string) (c : Client) : Client :=
  mkClient (Host c) (AccessKey c) (SecretKey c) (Region c) (Protocol c) (Timeout c) (Headers c)
    lfa lra arn (CheckEnvironment c) (SkipVerifyCertificate c) (Transport c)
    (Logging c) (LoggingFromInitialize c) (FirewallJwt c) (RulestackJwt c) (credsFile c)
    (apiPrefix c) (con c) (testData c) (testErrors c) (testIndex c) (authFileContent c).

Definition withCheckEnvironment (v : bool) (c : Client) : Client :=
  mkClient (Host c) (AccessKey c) (SecretKey c) (Region c) (Protocol c) (Timeout c) (Headers c)
    (LfaArn c) (LraArn c) (Arn c) v (SkipVerifyCertificate c) (Transport c)
    (Logging c) (LoggingFromInitialize c) (FirewallJwt c) (RulestackJwt c) (credsFile c)
    (apiPrefix c) (con c) (testData c) (testErrors c) (testIndex c) (authFileContent c).

(** A ready client with the shared role identifier set. *)
Definition shared : Client := withArns "" "" "arn:aws:iam::1:role/shared" ready.

(** A ready client whose rulestack role STS refuses. *)
Definition partial : Client := withArns "arn:lfa" "arn:denied" "" ready.

(** The plain client with the environment switched on. *)
Definition fromEnvironment : Client := withCheckEnvironment true plain.

(** A ready client with a custom header spelled like Authorization. *)
Definition overriding : Client := setHeaders [("authorization", "Basic abc")] ready.

End Scenario.

(** ** Vocabulary of the properties *)

(** The configurable fields of section 4.1 that have a zero value
    meaning unset. *)
Inductive field := FHost | FRegion | FProtocol | FTimeout | FHeaders | FLogging.

Inductive value :=
| VString (s : string)
| VInt (z : Z)
| VMap (m : list (string * string)).

Definition fieldOf (f : field) (c : Client) : value :=
  match f with
  | FHost => VString (Host c)
  | FRegion => VString (Region c)
  | FProtocol => VString (Protocol c)
  | FTimeout => VInt (Timeout c)
  | FHeaders => VMap (Headers c)
  | FLogging => VInt (Logging c)
  end.

Definition zeroOf (f : field) : value :=
  match f with
  | FHost | FRegion | FProtocol => VString ""
  | FTimeout | FLogging => VInt 0
  | FHeaders => VMap []
  end.

(** The field was given a value on the struct. *)
Definition explicitlySet (f : field) (c : Client) : Prop := fieldOf f c <> zeroOf f.

(** Every field that was set explicitly in [c] has the same value in [c']. *)
Definition keepsExplicit (c c' : Client) : Prop :=
  forall f, explicitlySet f c -> fieldOf f c' = fieldOf f c.

(** The names the logging block accepts. *)
Definition loggingNames : list string :=
  ["quiet"; "login"; "get"; "post"; "put"; "delete"; "path"; "send"; "receive"].

(** The first request a run handed to the signer or to the transport. *)
Fixpoint handedOver (evs : list event) : option Request :=
  match evs with
  | [] => None
  | EvSign req :: _ => Some req
  | EvDo req :: _ => Some req
  | _ :: rest => handedOver rest
  end.

(** The request the specification describes (section 4.3): content
    type, then the token of the scope if there is one, then the custom
    headers, which overwrite a header of the same name; the method is
    the one of the call, GET when that is empty, and the URL is
    base/path as [http.NewRequest] parsed it. *)
Definition expectedRequest {W I O : Type} (X : @Externals W I O) (c : Client)
    (method : string) (path : list string) (data : string) (token : option string)
    : Request :=
  let base := headerSet "Content-Type" "application/json" ∅ in
  let authorized :=
    match token with
    | Some jwt => headerSet "Authorization" jwt base
    | None => base
    end in
  mkRequest (requestMethod method) (parseURL X (apiPrefix c ++ "/" ++ GoStrings.Join path "/"))
    data (applyHeaders (Headers c) authorized).

(** The token that goes with a scope: the firewall token, the rulestack
    token, or none for the empty scope; [None] for any other scope. *)
Definition scopeToken (c : Client) (auth : string) : option (option string) :=
  if String.eqb auth "" then Some None
  else if String.eqb auth permissions.Firewall then Some (Some (FirewallJwt c))
  else if String.eqb auth permissions.Rulestack then Some (Some (RulestackJwt c))
  else None.

(** No custom header is spelled like the Authorization header. *)
Definition noCustomAuthorization (c : Client) : Prop :=
  Forall (fun kv => Textproto.CanonicalMIMEHeaderKey (fst kv) <> "Authorization") (Headers c).

(** The input is absent and the request body empty, or the input
    serializes to [data]. *)
Definition serializes {W I O : Type} (X : @Externals W I O) (input : option I) (data : string)
    : Prop :=
  match input with
  | None => data = ""
  | Some v => Marshal X v = Good data
  end.

(** What [Communicate] does before it turns to the body: the
    serialization of the input and the sending line. *)
Definition sendEvents (c : Client) {I : Type} (input : option I) (data : string)
    : list event :=
  ((match input with Some _ => [EvMarshal] | None => [] end)
   ++ (if hasFlag (Logging c) LogSend then [EvLog ("sending: " ++ data)] else []))%list.

(** What a run of [Communicate] in testing mode does before it looks at
    the output target. *)
Definition offlineEvents (c : Client) {I : Type} (input : option I) (data : string)
    : list event :=
  (sendEvents c input data
   ++ (if hasFlag (Logging c) LogReceive then [EvLog ("received: " ++ stubBody)] else []))%list.

(** The error a call returned, nil included; [None] also when it
    panicked. *)
Definition returnedError {O : Type} (o : outcome (@reply O)) : option (error O) :=
  match o with
  | Returned r => replyErr r
  | Panicked _ => None
  end.

(** The login line of [RefreshJwts]. *)
Definition loginEvents (c : Client) : list event :=
  if hasFlag (Logging c) LogLogin then [EvLog "(login) refreshing JWTs..."] else [].

(** The login line of one role block of [RefreshJwts]. *)
Definition roleEvents (c : Client) (what : string) : list event :=
  if hasFlag (Logging c) LogLogin
  then [EvLog ("(login) refreshing " ++ what ++ " JWT...")] else [].

(** The token request of [RefreshJwts]. *)
Definition tokenRequest (c : Client) : getJwt :=
  mkGetJwt 90 (mkJwtKeyInfo (Region c) "XY").

(** The state in which [RefreshJwts] has asked for its session, with
    the world that the call left. *)
Definition sessionOpened {W : Type} (s : @state W) (w : W) : @state W :=
  mkState w (client s) (trace s ++ loginEvents (client s) ++ [EvNewSession])%list.

(** The state in which a role block has asked STS for its role, with
    the world that the call left. *)
Definition roleAssumed {W : Type} (s : @state W) (what arn : string) (w : W) : @state W :=
  mkState w (client s) (trace s ++ roleEvents (client s) what ++ [EvAssumeRole arn])%list.

(** The six configurable fields are the same in both clients. *)
Definition sameConfiguration (c c' : Client) : Prop :=
  forall f, fieldOf f c' = fieldOf f c.

(** The logging bitmask is the same in both clients. *)
Definition sameLogging (c c' : Client) : Prop := Logging c' = Logging c.

(** The flags of the default bitmask. *)
Definition defaultFlags : list Z := [LogLogin; LogPost; LogPut; LogDelete].

Section Frames.

Context {W : Type}.

(** Whatever the statement does, the client before and after it are
    related by [P]. *)
Definition respects (P : Client -> Client -> Prop) {R A : Type} (m : @M W R A) : Prop :=
  forall s, P (client s) (client (fst (m s))).

(** The statement only appends to the trace. *)
Definition extends {R A : Type} (m : @M W R A) : Prop :=
  forall s, exists evs, trace (fst (m s)) = (trace s ++ evs)%list.

(** From state [s] the statement hands [req] over as its first request. *)
Definition handsOver {R A : Type} (m : @M W R A) (s : state) (req : Request) : Prop :=
  exists evs, trace (fst (m s)) = (trace s ++ evs)%list /\ handedOver evs = Some req.

End Frames.

(** ** Vocabulary of the further properties *)

(** The method bits that [Log] tests. *)
Definition methodBits : list (string * Z) :=
  [("GET", LogGet); ("POST", LogPost); ("PUT", LogPut); ("DELETE", LogDelete)].

(** The bitmask lets the method through. *)
Definition loggable (mask : Z) (method : string) : bool :=
  existsb (fun entry => String.eqb method (fst entry) && hasFlag mask (snd entry)) methodBits.

Definition validProtocol (p : string) : Prop := p = "http" \/ p = "https".

(** The protocol that [initCon] settles on before it checks it: the
    one on the struct, else CLOUD_NGFW_PROTOCOL when the environment
    is switched on and sets it, else the one of the credentials file
    [j], else https. *)
Definition settledProtocol {W I O : Type} (X : @Externals W I O) (s : @state W) (j : Client)
    : string :=
  let c := client s in
  if negb (isEmpty (Protocol c)) then Protocol c
  else
    let val := Getenv X (world s) "CLOUD_NGFW_PROTOCOL" in
    if CheckEnvironment c && negb (isEmpty val) then val
    else if negb (isEmpty (Protocol j)) then Protocol j
    else "https".

(** The invariants of a resolved configuration: protocol, timeout,
    host and region, the base URI, the transport and the HTTP client
    built from it, and a logging bitmask. *)
Definition configured (c : Client) : Prop :=
  validProtocol (Protocol c)
  /\ 0 < Timeout c
  /\ Host c <> ""
  /\ Region c <> ""
  /\ apiPrefix c = Protocol c ++ "://" ++ Host c
  /\ (exists tr, Transport c = Some tr
                 /\ con c = Some (mkHttpClient tr (wrap64 (Timeout c * Second))))
  /\ Logging c <> 0.

(** [c'] is [c] except possibly for the two tokens. *)
Definition sameButJwts (c c' : Client) : Prop :=
  setRulestackJwt "" (setFirewallJwt "" c') = setRulestackJwt "" (setFirewallJwt "" c).

(** The fields [initCon] does not resolve are the same in both clients. *)
Definition sameIdentity (c c' : Client) : Prop :=
  AccessKey c' = AccessKey c /\ SecretKey c' = SecretKey c
  /\ LfaArn c' = LfaArn c /\ LraArn c' = LraArn c /\ Arn c' = Arn c
  /\ CheckEnvironment c' = CheckEnvironment c
  /\ LoggingFromInitialize c' = LoggingFromInitialize c
  /\ FirewallJwt c' = FirewallJwt c /\ RulestackJwt c' = RulestackJwt c
  /\ credsFile c' = credsFile c /\ testData c' = testData c
  /\ testErrors c' = testErrors c /\ testIndex c' = testIndex c
  /\ authFileContent c' = authFileContent c.

(** Protocol, timeout, host and region are the same in both clients. *)
Definition sameEndpoint (c c' : Client) : Prop :=
  Protocol c' = Protocol c /\ Timeout c' = Timeout c
  /\ Host c' = Host c /\ Region c' = Region c.

(** Protocol, host and region are the same in both clients. *)
Definition sameAddress (c c' : Client) : Prop :=
  Protocol c' = Protocol c /\ Host c' = Host c /\ Region c' = Region c.

(** Transport, HTTP client and base URI are the same in both clients. *)
Definition sameWiring (c c' : Client) : Prop :=
  Transport c' = Transport c /\ con c' = con c /\ apiPrefix c' = apiPrefix c.

(** The file read of [initCon]: one, when there is a credentials file
    and the client is not in testing mode. *)
Definition fileEvents (c : Client) : list event :=
  if negb (isEmpty (credsFile c)) && (length (testData c) =? 0)%nat
  then [EvReadFile (credsFile c)] else [].

Definition noEvent (ev : event) : bool := false.

Definition isDo (ev : event) : bool :=
  match ev with EvDo _ => true | _ => false end.

Definition isSign (ev : event) : bool :=
  match ev with EvSign _ => true | _ => false end.

(** Log lines and the conversions between values and JSON text: what a
    call may do without touching the network, STS or the file system. *)
Definition isLocal (ev : event) : bool :=
  match ev with
  | EvLog _ | EvMarshal | EvUnmarshal _ | EvOk => true
  | _ => false
  end.

(** What [Communicate] may do: everything but files, sessions and
    roles. *)
Definition isDispatch (ev : event) : bool :=
  match ev with
  | EvReadFile _ | EvNewSession | EvAssumeRole _ => false
  | _ => true
  end.

(** The reply has no body, an error, and the target as it was passed. *)
Definition earlyReply {O : Type} (output : option O) (r : @reply O) : Prop :=
  replyBody r = None /\ replyErr r <> None /\ replyTarget r = output.

(** Keys, role identifiers, switches, file path and testing fields are
    the same in both clients. *)
Definition sameSettings (c c' : Client) : Prop :=
  AccessKey c' = AccessKey c /\ SecretKey c' = SecretKey c
  /\ LfaArn c' = LfaArn c /\ LraArn c' = LraArn c /\ Arn c' = Arn c
  /\ CheckEnvironment c' = CheckEnvironment c
  /\ SkipVerifyCertificate c' = SkipVerifyCertificate c
  /\ LoggingFromInitialize c' = LoggingFromInitialize c
  /\ credsFile c' = credsFile c /\ testData c' = testData c
  /\ testErrors c' = testErrors c /\ testIndex c' = testIndex c
  /\ authFileContent c' = authFileContent c.

(** Keys, role identifiers, the environment switch, file path and
    testing fields are the same in both clients. *)
Definition sameAccess (c c' : Client) : Prop :=
  AccessKey c' = AccessKey c /\ SecretKey c' = SecretKey c
  /\ LfaArn c' = LfaArn c /\ LraArn c' = LraArn c /\ Arn c' = Arn c
  /\ CheckEnvironment c' = CheckEnvironment c
  /\ LoggingFromInitialize c' = LoggingFromInitialize c
  /\ credsFile c' = credsFile c /\ testData c' = testData c
  /\ testErrors c' = testErrors c /\ testIndex c' = testIndex c
  /\ authFileContent c' = authFileContent c.

(** The same libraries with another environment. *)
Definition withGetenv {W I O : Type} (env : W -> string -> string) (X : @Externals W I O)
    : @Externals W I O :=
  mkExternals env (ReadFile X) (decodeClient X) (decodeHeaders X) (Marshal X)
    (newRequestError X) (parseURL X) (Sign X) (Do X) (ReadAll X) (decodeOutput X) (Ok X)
    (NewSession X) (AssumeRole X) (jwtRequest X) (authResponseZero X) (authResponseJwt X).

(** The flag of a logging name; zero for any other string. *)
Definition flagOf (name : string) : Z := default 0 (logFlag name).

Section Effects.

Context {W : Type}.

(** The statement appends only events that [allowed] accepts. *)
Definition only (allowed : event -> bool) {R A : Type} (m : @M W R A) : Prop :=
  forall s, exists evs,
    trace (fst (m s)) = (trace s ++ evs)%list /\ forallb allowed evs = true.

(** The statement appends at most one event that [p] selects. *)
Definition atMostOnce (p : event -> bool) {R A : Type} (m : @M W R A) : Prop :=
  forall s, exists evs,
    trace (fst (m s)) = (trace s ++ evs)%list /\ (length (List.filter p evs) <= 1)%nat.

(** From state [s] the trace of the statement starts with [upto]. *)
Definition reaches {R A : Type} (m : @M W R A) (s : state) (upto : list event) : Prop :=
  exists rest, trace (fst (m s)) = (upto ++ rest)%list.

(** The statement leaves the world as it is. *)
Definition keepsWorld {R A : Type} (m : @M W R A) : Prop :=
  forall s, world (fst (m s)) = world s.

(** Every [return] of the statement returns a value in [Q]. *)
Definition exits {R A : Type} (Q : R -> Prop) (m : @M W R A) : Prop :=
  forall s s' r, m s = (s', Return r) -> Q r.

End Effects.

(** Further concrete clients and worlds. *)
Module Fixtures.

(** Host and region only, and a protocol the client cannot speak. *)
Definition gopher : Client := setProtocol "gopher" Scenario.plain.

(** Host and region only, and a negative timeout. *)
Definition hasty : Client := setTimeout (-5) Scenario.plain.

(** Region only. *)
Definition hostless : Client := setHost "" Scenario.plain.

(** Host only. *)
Definition regionless : Client := setRegion "" Scenario.plain.

(** A ready client with the firewall role only. *)
Definition firewallOnly : Client := Scenario.withArns "arn:lfa" "" "" Scenario.ready.

(** A ready client whose firewall role STS refuses. *)
Definition refused : Client := Scenario.withArns "arn:denied" "arn:lra" "" Scenario.ready.

(** An environment that sets host, timeout and logging. *)
Definition environment (name : string) : string :=
  if String.eqb name "CLOUD_NGFW_HOST" then "env.example.com"
  else if String.eqb name "CLOUD_NGFW_TIMEOUT" then "soon"
  else if String.eqb name "CLOUD_NGFW_LOGGING" then "get,send"
  else "".

Definition fromEnv : @Externals Scenario.world Scenario.payload Scenario.answer :=
  withGetenv (fun _ => environment) Scenario.externals.


(** The same environment without a timeout. *)
Definition fromEnvLogging : @Externals Scenario.world Scenario.payload Scenario.answer :=
  withGetenv (fun _ name => if String.eqb name "CLOUD_NGFW_TIMEOUT" then ""
                            else environment name)
    Scenario.externals.

(** Region only, with the environment switched on. *)
Definition hostFromEnv : Client := Scenario.withCheckEnvironment true hostless.

(** A client with a credentials file. *)
Definition withFile (path : string) (c : Client) : Client :=
  mkClient (Host c) (AccessKey c) (SecretKey c) (Region c) (Protocol c) (Timeout c) (Headers c)
    (LfaArn c) (LraArn c) (Arn c) (CheckEnvironment c) (SkipVerifyCertificate c) (Transport c)
    (Logging c) (LoggingFromInitialize c) (FirewallJwt c) (RulestackJwt c) path
    (apiPrefix c) (con c) (testData c) (testErrors c) (testIndex c) (authFileContent c).

(** A client in testing mode whose canned credentials file is not JSON. *)
Definition brokenFile : Client :=
  mkClient "ngfw.example.com" "" "" "us-east-1" "" 0 [] "" "" "" false false None 0 []
    "" "" "creds.json" "" None ["canned"] [] 0 "{".

(** A client that asks for certificate verification to be skipped. *)
Definition trusting : Client := setSkipVerifyCertificate true Scenario.plain.

End Fixtures.

(** ** Sanity checks of the model on concrete inputs *)

Example split_two : GoStrings.Split "login,get" "," = ["login"; "get"].
Proof. reflexivity. Qed.

Example split_trailing : GoStrings.Split "a," "," = ["a"; ""].
Proof. reflexivity. Qed.

Example atoi_plain : Strconv.Atoi "20" = Some 20.
Proof. reflexivity. Qed.

Example atoi_negative : Strconv.Atoi "-7" = Some (-7).
Proof. reflexivity. Qed.

Example atoi_rejects_suffix : Strconv.Atoi "20s" = None.
Proof. reflexivity. Qed.

Example atoi_rejects_overflow : Strconv.Atoi "9223372036854775808" = None.
Proof. vm_compute. reflexivity. Qed.

Example canonical_lower : Textproto.CanonicalMIMEHeaderKey "authorization" = "Authorization".
Proof. reflexivity. Qed.

Example canonical_content_type : Textproto.CanonicalMIMEHeaderKey "content-TYPE" = "Content-Type".
Proof. reflexivity. Qed.

Example canonical_with_space : Textproto.CanonicalMIMEHeaderKey "x y" = "x y".
Proof. reflexivity. Qed.

Example json_object_valid :
  Json.checkValid ("{" ++ String Json.quote "a" ++ String Json.quote ": [1, 2.5e3, true, null, {}]}") = true.
Proof. vm_compute. reflexivity. Qed.

Example json_null_valid : Json.checkValid " null " = true.
Proof. vm_compute. reflexivity. Qed.

Example json_trailing_invalid : Json.checkValid "{} x" = false.
Proof. vm_compute. reflexivity. Qed.

Example json_truncated_invalid : Json.checkValid "[1, 2" = false.
Proof. vm_compute. reflexivity. Qed.

Example initCon_plain :
  initCon Scenario.externals (Scenario.start Scenario.plain)
  = (Scenario.start
       (setApiPrefix "https://ngfw.example.com"
          (setCon (Some (mkHttpClient (mkTransport true false) 20000000000))
             (setTransport (Some (mkTransport true false))
                (setLogging defaultLogging
                   (setTimeout 20 (setProtocol "https" Scenario.plain)))))),
     Returned None).
Proof. vm_compute. reflexivity. Qed.

Example communicate_ready :
  snd (Communicate Scenario.externals permissions.Firewall "GET" ["v1"; "config"]
         None (Some ("", false)) [] (Scenario.start Scenario.ready))
  = Returned (mkReply (Some "{}") None (Some ("token-1", true))).
Proof. vm_compute. reflexivity. Qed.

Example refresh_both :
  let s := fst (RefreshJwts Scenario.externals
                  (Scenario.start (Scenario.withArns "arn:lfa" "arn:lra" "" Scenario.ready))) in
  (FirewallJwt (client s), RulestackJwt (client s), Scenario.requested (world s))
  = ("token-1", "token-1",
     ["https://ngfw.example.com/v1/mgmt/tokens/cloudrulestackadmin";
      "https://ngfw.example.com/v1/mgmt/tokens/cloudfirewalladmin"]).
Proof. vm_compute. reflexivity. Qed.

(** ** Frame lemmas *)

Section FrameLemmas.

Context {W : Type}.
Variable P : Client -> Client -> Prop.
Hypothesis P_refl : forall c, P c c.
Hypothesis P_trans : forall a b c, P a b -> P b c -> P a c.

Lemma respects_ret {R A : Type} (a : A) : respects P (@ret W R A a).
Proof. intros s. apply P_refl. Qed.

Lemma respects_returnWith {R A : Type} (r : R) : respects P (@returnWith W R A r).
Proof. intros s. apply P_refl. Qed.

Lemma respects_panic {R A : Type} (why : string) : respects P (@panic W R A why).
Proof. intros s. apply P_refl. Qed.

Lemma respects_getClient {R : Type} : respects P (@getClient W R).
Proof. intros s. apply P_refl. Qed.

Lemma respects_emit {R : Type} (ev : event) : respects P (@emit W R ev).
Proof. intros s. apply P_refl. Qed.

Lemma respects_ask {R A : Type} (f : W -> A) : respects P (@ask W R A f).
Proof. intros s. apply P_refl. Qed.

Lemma respects_act {R A : Type} (f : W -> W * A) : respects P (@act W R A f).
Proof. intros s. unfold act. destruct (f (world s)). apply P_refl. Qed.

Lemma respects_modify {R : Type} (f : Client -> Client) :
  (forall c, P c (f c)) -> respects P (@modify W R f).
Proof. intros Hf s. apply Hf. Qed.

Lemma respects_bind {R A B : Type} (m : M R A) (k : A -> @M W R B) :
  respects P m -> (forall a, respects P (k a)) -> respects P (bind m k).
Proof.
  intros Hm Hk s. unfold bind. specialize (Hm s).
  destruct (m s) as [s' [a | r | why]]; simpl in *; trivial.
  eapply P_trans; [exact Hm | apply Hk].
Qed.

Lemma respects_when {R : Type} (b : bool) (m : @M W R unit) :
  respects P m -> respects P (when b m).
Proof. intros Hm. destruct b; simpl; [exact Hm | apply respects_ret]. Qed.

Lemma respects_call {R R' : Type} (p : @proc W R) :
  (forall s, P (client s) (client (fst (p s)))) -> respects P (@call W R R' p).
Proof.
  intros Hp s. unfold call. specialize (Hp s). destruct (p s) as [s' [r | why]]; exact Hp.
Qed.

Lemma respects_run {R : Type} (m : @M W R R) :
  respects P m -> forall s, P (client s) (client (fst (run m s))).
Proof.
  intros Hm s. unfold run. specialize (Hm s). destruct (m s) as [s' [a | r | why]]; exact Hm.
Qed.

End FrameLemmas.

Section TraceLemmas.

Context {W : Type}.

Lemma bind_Next {R A B : Type} (m : M R A) (k : A -> @M W R B) s s' a :
  m s = (s', Next a) -> bind m k s = k a s'.
Proof. intros H. unfold bind. now rewrite H. Qed.

Lemma bind_Return {R A B : Type} (m : M R A) (k : A -> @M W R B) s s' r :
  m s = (s', Return r) -> bind m k s = (s', Return r).
Proof. intros H. unfold bind. now rewrite H. Qed.

Lemma bind_getClient {R B : Type} (k : Client -> @M W R B) s :
  bind getClient k s = k (client s) s.
Proof. reflexivity. Qed.

Lemma extends_ret {R A : Type} (a : A) : extends (@ret W R A a).
Proof. intros s. exists []. simpl. now rewrite app_nil_r. Qed.

Lemma extends_returnWith {R A : Type} (r : R) : extends (@returnWith W R A r).
Proof. intros s. exists []. simpl. now rewrite app_nil_r. Qed.

Lemma extends_panic {R A : Type} (why : string) : extends (@panic W R A why).
Proof. intros s. exists []. simpl. now rewrite app_nil_r. Qed.

Lemma extends_getClient {R : Type} : extends (@getClient W R).
Proof. intros s. exists []. simpl. now rewrite app_nil_r. Qed.

Lemma extends_emit {R : Type} (ev : event) : extends (@emit W R ev).
Proof. intros s. exists [ev]. reflexivity. Qed.

Lemma extends_ask {R A : Type} (f : W -> A) : extends (@ask W R A f).
Proof. intros s. exists []. simpl. now rewrite app_nil_r. Qed.

Lemma extends_act {R A : Type} (f : W -> W * A) : extends (@act W R A f).
Proof.
  intros s. exists []. unfold act. destruct (f (world s)). simpl. now rewrite app_nil_r.
Qed.

Lemma extends_modify {R : Type} (f : Client -> Client) : extends (@modify W R f).
Proof. intros s. exists []. simpl. now rewrite app_nil_r. Qed.

Lemma extends_bind {R A B : Type} (m : M R A) (k : A -> @M W R B) :
  extends m -> (forall a, extends (k a)) -> extends (bind m k).
Proof.
  intros Hm Hk s. unfold bind. destruct (Hm s) as [evs Hevs].
  destruct (m s) as [s' [a | r | why]]; simpl in *; eauto.
  destruct (Hk a s') as [evs' Hevs']. exists (evs ++ evs')%list.
  now rewrite Hevs', Hevs, app_assoc.
Qed.

Lemma extends_when {R : Type} (b : bool) (m : @M W R unit) :
  extends m -> extends (when b m).
Proof. intros Hm. destruct b; simpl; [exact Hm | apply extends_ret]. Qed.

Lemma handedOver_suffix (evs post : list event) (req : Request) :
  handedOver evs = Some req -> handedOver (evs ++ post) = Some req.
Proof.
  induction evs as [| ev evs IH]; simpl; intros H; [discriminate |].
  destruct ev; auto.
Qed.

(** Once a statement has handed a request over, what follows cannot
    change which one was first. *)
Lemma handsOver_bind_l {R A B : Type} (m : M R A) (k : A -> @M W R B) s req :
  handsOver m s req -> (forall a, extends (k a)) -> handsOver (bind m k) s req.
Proof.
  intros (evs & Htr & Hreq) Hk. unfold handsOver, bind.
  destruct (m s) as [s' [a | r | why]]; simpl in *; eauto.
  destruct (Hk a s') as [evs' Hevs']. exists (evs ++ evs')%list. split.
  - now rewrite Hevs', Htr, app_assoc.
  - now apply handedOver_suffix.
Qed.

(** A statement that falls through without a request leaves the first
    request to what follows. *)
Lemma handsOver_bind_r {R A B : Type} (m : M R A) (k : A -> @M W R B) s s' a pre req :
  m s = (s', Next a) ->
  trace s' = (trace s ++ pre)%list ->
  handedOver pre = None ->
  handsOver (k a) s' req ->
  handsOver (bind m k) s req.
Proof.
  intros Hm Htr Hpre (evs & Hevs & Hreq). unfold handsOver, bind. rewrite Hm.
  exists (pre ++ evs)%list. split.
  - now rewrite Hevs, Htr, app_assoc.
  - clear - Hpre Hreq. induction pre as [| ev pre IH]; simpl in *; [exact Hreq |].
    destruct ev; try discriminate; auto.
Qed.

Lemma bind_Panic {R A B : Type} (m : M R A) (k : A -> @M W R B) s s' why :
  m s = (s', Panic why) -> bind m k s = (s', Panic why).
Proof. intros H. unfold bind. now rewrite H. Qed.

Lemma run_fst {R : Type} (m : @M W R R) s : fst (run m s) = fst (m s).
Proof. unfold run. now destruct (m s) as [s' [a | r | why]]. Qed.

Lemma reaches_bind_l {R A B : Type} (m : M R A) (k : A -> @M W R B) s upto :
  reaches m s upto -> (forall a, extends (k a)) -> reaches (bind m k) s upto.
Proof.
  intros (rest & Htr) Hk. unfold reaches, bind.
  destruct (m s) as [s' [a | r | why]]; simpl in *; eauto.
  destruct (Hk a s') as (evs & Hevs). exists (rest ++ evs)%list.
  now rewrite Hevs, Htr, app_assoc.
Qed.

Lemma reaches_bind_r {R A B : Type} (m : M R A) (k : A -> @M W R B) s s' a upto :
  m s = (s', Next a) -> reaches (k a) s' upto -> reaches (bind m k) s upto.
Proof. intros Hm Hk. unfold reaches. now rewrite (bind_Next _ _ _ _ _ Hm). Qed.

Lemma reaches_here {R A : Type} (m : @M W R A) s :
  reaches m s (trace (fst (m s))).
Proof. exists []. now rewrite app_nil_r. Qed.

End TraceLemmas.

(** Splits a statement into its parts to show that it only appends to
    the trace. *)
Ltac grow :=
  repeat first
    [ apply extends_ret
    | apply extends_returnWith
    | apply extends_panic
    | apply extends_getClient
    | apply extends_emit
    | apply extends_ask
    | apply extends_act
    | apply extends_modify
    | apply extends_when
    | apply extends_bind; [| intros ?]
    | match goal with
      | |- extends (match ?x with _ => _ end) => destruct x
      end ].

(** Splits a statement of the model into its parts, down to the
    primitive statements, which [respects] a reflexive relation; what
    is left are the writes to the client and the calls. *)
Ltac frame Hrefl Htrans :=
  repeat first
    [ apply respects_ret; exact Hrefl
    | apply respects_returnWith; exact Hrefl
    | apply respects_panic; exact Hrefl
    | apply respects_getClient; exact Hrefl
    | apply respects_emit; exact Hrefl
    | apply respects_ask; exact Hrefl
    | apply respects_act; exact Hrefl
    | apply respects_when; [exact Hrefl |]
    | apply respects_bind; [exact Htrans | | intros ?]
    | match goal with
      | |- respects _ (match ?x with _ => _ end) => destruct x
      end ].

(** ** The dispatcher *)

Section Dispatcher.

Context {W I O : Type}.
Variable X : @Externals W I O.

Lemma Communicate_respects_eq auth method path input output creds :
  respects eq (bind (obtainBody X auth method path input output creds) (checkOutput X output)).
Proof.
  unfold obtainBody, checkOutput, exchange, signRequest, roundTrip, logPrintf.
  frame (@eq_refl Client) (@eq_trans Client).
Qed.

Lemma Communicate_client auth method path input output creds s :
  client (fst (Communicate X auth method path input output creds s)) = client s.
Proof.
  unfold Communicate. symmetry.
  apply (respects_run eq). apply Communicate_respects_eq.
Qed.

(** C10. [Communicate] leaves every field of the client as it found
    it, for all arguments and whether it returns a body, an error or
    panics: it reads the tokens, the headers, the region, the base URI
    and the connection and writes none of them. *)
Theorem Communicate_leaves_client_unchanged :
  forall auth method path input output creds s,
    client (fst (Communicate X auth method path input output creds s)) = client s.
Proof.
  intros. unfold Communicate. symmetry. apply (respects_run eq).
  apply respects_bind; [exact (@eq_trans Client) | | intros body].
  - unfold obtainBody, exchange, signRequest, roundTrip, logPrintf.
    frame (@eq_refl Client) (@eq_trans Client).
  - unfold checkOutput.
    frame (@eq_refl Client) (@eq_trans Client).
Qed.

Lemma guard_two (creds : list Credentials) :
  (2 <= length creds)%nat -> (1 <? length creds)%nat = true.
Proof. intros H. apply Nat.ltb_lt. lia. Qed.

Lemma guard_one (creds : list Credentials) :
  (length creds <= 1)%nat -> (1 <? length creds)%nat = false.
Proof. intros H. apply Nat.ltb_ge. lia. Qed.

Lemma Communicate_two_credentials auth method path input output creds s :
  (2 <= length creds)%nat ->
  Communicate X auth method path input output creds s
  = (s, Returned (mkReply None (Some ErrOnlyOneCredentials) output)).
Proof.
  intros H. unfold Communicate, run, bind, obtainBody.
  rewrite (guard_two _ H). reflexivity.
Qed.

(** The guard, the serialization of the input and the sending line,
    when there is at most one credential set and the input serializes. *)
Lemma obtainBody_sends auth method path input output creds s data :
  (length creds <= 1)%nat ->
  serializes X input data ->
  obtainBody X auth method path input output creds s
  = bind (if (0 <? length (testData (client s)))%nat then ret stubBody
          else exchange X (client s) auth method path data output creds)
      (fun body =>
         bind getClient (fun c =>
           bind (when (hasFlag (Logging c) LogReceive) (logPrintf ("received: " ++ body)))
             (fun _ => ret body)))
      (mkState (world s) (client s) (trace s ++ sendEvents (client s) input data)%list).
Proof.
  intros Hcreds Hdata. unfold obtainBody. rewrite (guard_one _ Hcreds).
  destruct s as [w c tr]. unfold sendEvents. simpl in *.
  destruct input as [v |]; simpl in *.
  - unfold bind at 1. unfold bind at 1. unfold emit at 1. simpl. rewrite Hdata.
    unfold ret at 1. unfold bind at 1. unfold getClient at 1. simpl.
    unfold bind at 1.
    destruct (hasFlag (Logging c) LogSend); simpl;
      rewrite <- ?app_assoc, ?app_nil_r; reflexivity.
  - subst data. unfold bind at 1. unfold ret at 1. unfold bind at 1.
    unfold getClient at 1. simpl. unfold bind at 1.
    destruct (hasFlag (Logging c) LogSend); simpl;
      rewrite <- ?app_assoc, ?app_nil_r; reflexivity.
Qed.

Lemma obtainBody_offline auth method path input output creds s data :
  testData (client s) <> [] ->
  (length creds <= 1)%nat ->
  serializes X input data ->
  obtainBody X auth method path input output creds s
  = (mkState (world s) (client s) (trace s ++ offlineEvents (client s) input data)%list,
     Next stubBody).
Proof.
  intros Htest Hcreds Hdata. rewrite (obtainBody_sends _ _ _ _ _ _ _ _ Hcreds Hdata).
  assert (Hlen : (0 <? length (testData (client s)))%nat = true).
  { destruct (testData (client s)); [congruence | reflexivity]. }
  rewrite Hlen. unfold offlineEvents, bind, ret, getClient, when, logPrintf, emit. simpl.
  destruct (hasFlag (Logging (client s)) LogReceive); simpl;
    rewrite <- ?app_assoc, ?app_nil_r; reflexivity.
Qed.

Lemma stubBody_invalid : Json.checkValid stubBody = false.
Proof. vm_compute. reflexivity. Qed.

(** C3. When [Communicate] has obtained a body, the body decodes into
    the output target and the target's [Ok] reports failure, the call
    returns that body together with the target itself as the error: an
    [ApiError], never nil. *)
Theorem Communicate_failed_predicate_is_error :
  forall auth method path input target creds s s1 body target',
    obtainBody X auth method path input (Some target) creds s = (s1, Next body) ->
    Unmarshal (decodeOutput X) body target = (target', None) ->
    Ok X target' = false ->
    Communicate X auth method path input (Some target) creds s
    = (mkState (world s1) (client s1) (trace s1 ++ [EvUnmarshal body; EvOk])%list,
       Returned (mkReply (Some body) (Some (ErrOutput target')) (Some target')))
    /\ kindOf (ErrOutput target') = ApiError.
Proof.
  intros * Hbody Hdecode Hok. split; [| reflexivity].
  unfold Communicate, run, bind. rewrite Hbody.
  unfold checkOutput, bind, emit, ret. simpl. rewrite Hdecode. simpl. rewrite Hok. simpl.
  now rewrite <- app_assoc.
Qed.

(** C9, as the code has it. In testing mode, with at most one
    credential set and an input that is absent or serializes, a call
    with an output target returns the stub body and the syntax error of
    the decoder; the target is returned untouched and its [Ok] is not
    called. With two credential sets or an input that does not
    serialize the call returns before it reaches the stub. *)
Theorem Communicate_offline_parse_error :
  forall auth method path input target creds s data,
    testData (client s) <> [] ->
    (length creds <= 1)%nat ->
    serializes X input data ->
    Communicate X auth method path input (Some target) creds s
    = (mkState (world s) (client s)
         (trace s ++ offlineEvents (client s) input data ++ [EvUnmarshal stubBody])%list,
       Returned (mkReply (Some stubBody)
                   (Some (ErrLibrary FromUnmarshalBody JsonSyntax)) (Some target)))
    /\ ~ In EvOk (offlineEvents (client s) input data ++ [EvUnmarshal stubBody])%list
    /\ kindOf (@ErrLibrary O FromUnmarshalBody JsonSyntax) = MalformedResponse.
Proof.
  intros * Htest Hcreds Hdata. split; [| split; [| reflexivity]].
  - unfold Communicate, run, bind.
    rewrite (obtainBody_offline _ _ _ _ _ _ _ _ Htest Hcreds Hdata).
    unfold checkOutput, bind, emit, ret, Unmarshal.
    rewrite stubBody_invalid. simpl. now rewrite <- app_assoc.
  - unfold offlineEvents. intros Hin.
    repeat (apply in_app_or in Hin as [Hin | Hin]);
      repeat match goal with
             | H : In _ (match ?b with _ => _ end) |- _ => destruct b
             | H : In _ (_ :: _) |- _ => destruct H as [H | H]; [discriminate |]
             | H : In _ [] |- _ => destruct H
             end.
Qed.

(** *** The Authorization header *)

Lemma applyHeaders_other (headers : list (string * string)) (key : string) :
  forall h : gmap string string,
    Forall (fun kv => Textproto.CanonicalMIMEHeaderKey (fst kv) <> key) headers ->
    applyHeaders headers h !! key = h !! key.
Proof.
  unfold applyHeaders.
  induction headers as [| [k v] rest IH]; intros h Hall; simpl; [reflexivity |].
  inversion Hall as [| ? ? Hk Hrest]; subst. rewrite IH by assumption.
  unfold headerSet. simpl in Hk. now apply lookup_insert_ne.
Qed.

Lemma expectedRequest_authorization c method path data token :
  noCustomAuthorization c ->
  reqHeader (expectedRequest X c method path data token) !! "Authorization" = token.
Proof.
  intros Hcustom. unfold expectedRequest. simpl.
  rewrite applyHeaders_other by exact Hcustom.
  unfold headerSet.
  change (Textproto.CanonicalMIMEHeaderKey "Authorization") with "Authorization".
  change (Textproto.CanonicalMIMEHeaderKey "Content-Type") with "Content-Type".
  destruct token as [jwt |].
  - apply lookup_insert_eq.
  - rewrite lookup_insert_ne by discriminate. apply lookup_empty.
Qed.

Lemma setAuth_unknown c auth h :
  auth <> "" -> auth <> permissions.Firewall -> auth <> permissions.Rulestack ->
  setAuth c auth h = None.
Proof.
  intros Hnone Hfw Hrs. unfold setAuth.
  apply String.eqb_neq in Hnone, Hfw, Hrs. now rewrite Hnone, Hfw, Hrs.
Qed.

Lemma roundTrip_extends c output req : extends (roundTrip X c output req).
Proof. unfold roundTrip. grow. Qed.

Lemma checkOutput_extends output body : extends (checkOutput X output body).
Proof. unfold checkOutput. grow. Qed.

(** With the request built, the first thing that leaves [exchange] is
    that request: to the signer when a credential set was supplied, to
    the transport otherwise. *)
Lemma exchange_handsOver c auth method path data output creds s token :
  newRequestError X method (apiPrefix c ++ "/" ++ GoStrings.Join path "/") = None ->
  setAuth c auth (headerSet "Content-Type" "application/json" ∅)
  = Some (match token with
          | Some jwt => headerSet "Authorization" jwt
                          (headerSet "Content-Type" "application/json" ∅)
          | None => headerSet "Content-Type" "application/json" ∅
          end) ->
  (length creds <= 1)%nat ->
  creds <> [] \/ con c <> None ->
  handsOver (exchange X c auth method path data output creds) s
    (expectedRequest X c method path data token).
Proof.
  intros Hnew Hauth Hcreds Hsent. unfold exchange.
  eapply handsOver_bind_r; [reflexivity | reflexivity | reflexivity |].
  rewrite Hnew, Hauth. fold (expectedRequest X c method path data token).
  set (req := expectedRequest X c method path data token).
  destruct creds as [| cr [| cr' rest]]; [| | simpl in Hcreds; lia].
  - destruct Hsent as [Hsent | Hsent]; [congruence |].
    eapply handsOver_bind_r with (pre := []);
      [reflexivity | simpl; now rewrite app_nil_r | reflexivity |].
    unfold roundTrip. destruct (con c) as [hc |]; [| congruence].
    apply handsOver_bind_l; [| intros ?; grow].
    exists [EvDo req]. split; reflexivity.
  - apply handsOver_bind_l; [| intros ?; apply roundTrip_extends].
    unfold signRequest. apply handsOver_bind_l; [| intros ?; grow].
    exists [EvSign req]. split; reflexivity.
Qed.

Lemma sendEvents_quiet c (input : option I) data :
  handedOver (sendEvents c input data) = None.
Proof.
  unfold sendEvents. destruct input; destruct (hasFlag (Logging c) LogSend); reflexivity.
Qed.

Lemma Communicate_handsOver auth method path input output creds s data token :
  testData (client s) = [] ->
  (length creds <= 1)%nat ->
  serializes X input data ->
  newRequestError X method (apiPrefix (client s) ++ "/" ++ GoStrings.Join path "/") = None ->
  setAuth (client s) auth (headerSet "Content-Type" "application/json" ∅)
  = Some (match token with
          | Some jwt => headerSet "Authorization" jwt
                          (headerSet "Content-Type" "application/json" ∅)
          | None => headerSet "Content-Type" "application/json" ∅
          end) ->
  creds <> [] \/ con (client s) <> None ->
  exists evs,
    trace (fst (Communicate X auth method path input output creds s)) = (trace s ++ evs)%list
    /\ handedOver evs = Some (expectedRequest X (client s) method path data token).
Proof.
  intros Htest Hcreds Hdata Hnew Hauth Hsent.
  assert (Hrun : forall m : M (@reply O) (@reply O), fst (run m s) = fst (m s)).
  { intros m. unfold run. now destruct (m s) as [s' [a | r | why]]. }
  unfold Communicate. rewrite Hrun.
  cut (handsOver (bind (obtainBody X auth method path input output creds)
                    (checkOutput X output)) s
         (expectedRequest X (client s) method path data token)); [trivial |].
  apply handsOver_bind_l; [| intros ?; apply checkOutput_extends].
  unfold handsOver. rewrite (obtainBody_sends _ _ _ _ _ _ _ _ Hcreds Hdata).
  rewrite Htest. simpl.
  set (s0 := mkState (world s) (client s) (trace s ++ sendEvents (client s) input data)%list).
  destruct (handsOver_bind_l
              (exchange X (client s) auth method path data output creds)
              (fun body =>
                 bind getClient (fun c =>
                   bind (when (hasFlag (Logging c) LogReceive)
                           (logPrintf ("received: " ++ body)))
                     (fun _ => ret body)))
              s0 (expectedRequest X (client s) method path data token))
    as (evs & Htr & Hreq).
  - now apply exchange_handsOver.
  - intros ?. unfold logPrintf. grow.
  - exists (sendEvents (client s) input data ++ evs)%list. split.
    + rewrite Htr. unfold s0. simpl. now rewrite app_assoc.
    + generalize (sendEvents_quiet (client s) input data).
      generalize (sendEvents (client s) input data) as pre.
      induction pre as [| ev pre IH]; simpl; intros Hpre; [exact Hreq |].
      destruct ev; try discriminate; auto.
Qed.

Lemma Communicate_unknown_auth auth method path input output creds s data :
  testData (client s) = [] ->
  (length creds <= 1)%nat ->
  serializes X input data ->
  newRequestError X method (apiPrefix (client s) ++ "/" ++ GoStrings.Join path "/") = None ->
  auth <> "" -> auth <> permissions.Firewall -> auth <> permissions.Rulestack ->
  Communicate X auth method path input output creds s
  = (mkState (world s) (client s)
       (trace s ++ sendEvents (client s) input data
        ++ [EvNewRequest method (apiPrefix (client s) ++ "/" ++ GoStrings.Join path "/")])%list,
     Returned (mkReply None (Some (ErrUnknownAuth auth)) output)).
Proof.
  intros Htest Hcreds Hdata Hnew Hnone Hfw Hrs.
  unfold Communicate, run. unfold bind at 1.
  rewrite (obtainBody_sends _ _ _ _ _ _ _ _ Hcreds Hdata). rewrite Htest. simpl.
  unfold bind at 1. unfold exchange. unfold bind at 1. unfold emit at 1. simpl.
  rewrite Hnew, (setAuth_unknown _ _ _ Hnone Hfw Hrs). unfold returnWith. simpl.
  now rewrite <- app_assoc.
Qed.

Lemma setAuth_scopeToken c auth h token :
  scopeToken c auth = Some token ->
  setAuth c auth h = Some (match token with
                           | Some jwt => headerSet "Authorization" jwt h
                           | None => h
                           end).
Proof.
  unfold scopeToken, setAuth.
  destruct (String.eqb auth ""); [intros [= <-]; reflexivity |].
  destruct (String.eqb auth permissions.Firewall); [intros [= <-]; reflexivity |].
  destruct (String.eqb auth permissions.Rulestack); [intros [= <-]; reflexivity |].
  discriminate.
Qed.

(** *** The run of [exchange], statement by statement *)

(** With a request that [http.NewRequest] accepts and a known scope,
    [exchange] goes on to the signer with the request of the
    specification. *)
Lemma exchange_built c auth method path data output creds s token :
  newRequestError X method (apiPrefix c ++ "/" ++ GoStrings.Join path "/") = None ->
  setAuth c auth (headerSet "Content-Type" "application/json" ∅)
  = Some (match token with
          | Some jwt => headerSet "Authorization" jwt
                          (headerSet "Content-Type" "application/json" ∅)
          | None => headerSet "Content-Type" "application/json" ∅
          end) ->
  exchange X c auth method path data output creds s
  = bind (signRequest X c creds data output (expectedRequest X c method path data token))
      (roundTrip X c output)
      (mkState (world s) (client s)
         (trace s ++ [EvNewRequest method (apiPrefix c ++ "/" ++ GoStrings.Join path "/")])%list).
Proof.
  intros Hnew Hauth. unfold exchange.
  rewrite (bind_Next _ _ s
             (mkState (world s) (client s)
                (trace s ++ [EvNewRequest method
                               (apiPrefix c ++ "/" ++ GoStrings.Join path "/")])%list) tt);
    [| reflexivity].
  now rewrite Hnew, Hauth.
Qed.

(** What [exchange] does is what [Communicate] does, outside testing
    mode and after the input was serialized. *)
Lemma Communicate_reaches auth method path input output creds s data upto :
  testData (client s) = [] ->
  (length creds <= 1)%nat ->
  serializes X input data ->
  reaches (exchange X (client s) auth method path data output creds)
    (mkState (world s) (client s) (trace s ++ sendEvents (client s) input data)%list) upto ->
  exists rest,
    trace (fst (Communicate X auth method path input output creds s)) = (upto ++ rest)%list.
Proof.
  intros Htest Hcreds Hdata Hreach. unfold Communicate. rewrite run_fst.
  cut (reaches (bind (obtainBody X auth method path input output creds)
                  (checkOutput X output)) s upto); [trivial |].
  apply reaches_bind_l; [| intros ?; apply checkOutput_extends].
  unfold reaches. rewrite (obtainBody_sends auth method path input output creds s data
                             Hcreds Hdata).
  rewrite Htest. simpl.
  apply reaches_bind_l; [exact Hreach | intros ?; unfold logPrintf; grow].
Qed.

Lemma Communicate_exchange_Return auth method path input output creds s data s' r :
  testData (client s) = [] ->
  (length creds <= 1)%nat ->
  serializes X input data ->
  exchange X (client s) auth method path data output creds
    (mkState (world s) (client s) (trace s ++ sendEvents (client s) input data)%list)
  = (s', Return r) ->
  Communicate X auth method path input output creds s = (s', Returned r).
Proof.
  intros Htest Hcreds Hdata Hrun. unfold Communicate, run.
  assert (Hbody : obtainBody X auth method path input output creds s = (s', Return r)).
  { rewrite (obtainBody_sends auth method path input output creds s data Hcreds Hdata).
    rewrite Htest. simpl. now apply bind_Return. }
  now rewrite (bind_Return _ _ _ _ _ Hbody).
Qed.

Lemma Communicate_exchange_Panic auth method path input output creds s data s' why :
  testData (client s) = [] ->
  (length creds <= 1)%nat ->
  serializes X input data ->
  exchange X (client s) auth method path data output creds
    (mkState (world s) (client s) (trace s ++ sendEvents (client s) input data)%list)
  = (s', Panic why) ->
  Communicate X auth method path input output creds s = (s', Panicked why).
Proof.
  intros Htest Hcreds Hdata Hrun. unfold Communicate, run.
  assert (Hbody : obtainBody X auth method path input output creds s = (s', Panic why)).
  { rewrite (obtainBody_sends auth method path input output creds s data Hcreds Hdata).
    rewrite Htest. simpl. now apply bind_Panic. }
  now rewrite (bind_Panic _ _ _ _ _ Hbody).
Qed.

Section Built.

Variables (auth method : string) (path : list string) (input : option I)
  (output : option O) (s : @state W) (data : string) (token : option string).

Hypothesis Htest : testData (client s) = [].
Hypothesis Hdata : serializes X input data.
Hypothesis Hnew :
  newRequestError X method (apiPrefix (client s) ++ "/" ++ GoStrings.Join path "/") = None.
Hypothesis Hauth :
  setAuth (client s) auth (headerSet "Content-Type" "application/json" ∅)
  = Some (match token with
          | Some jwt => headerSet "Authorization" jwt
                          (headerSet "Content-Type" "application/json" ∅)
          | None => headerSet "Content-Type" "application/json" ∅
          end).

Let c := client s.
Let req := expectedRequest X c method path data token.
Let built :=
  (trace s ++ sendEvents c input data
   ++ [EvNewRequest method (apiPrefix c ++ "/" ++ GoStrings.Join path "/")])%list.
Let s1 := mkState (world s) c (trace s ++ sendEvents c input data)%list.

Lemma exchange_from_built creds :
  exchange X c auth method path data output creds s1
  = bind (signRequest X c creds data output req) (roundTrip X c output)
      (mkState (world s) c built).
Proof.
  rewrite (exchange_built c auth method path data output creds s1 token Hnew Hauth).
  unfold s1, built. simpl. now rewrite <- app_assoc.
Qed.

(** One credential set: the request goes to the signer. *)
Lemma Communicate_signs cr :
  exists rest,
    trace (fst (Communicate X auth method path input output [cr] s))
    = (built ++ [EvSign req] ++ rest)%list.
Proof.
  assert (Hcreds : (length [cr] <= 1)%nat) by (simpl; lia).
  destruct (Communicate_reaches auth method path input output [cr] s data
              (built ++ [EvSign req])%list Htest Hcreds Hdata) as (rest & Hrest).
  - fold c s1. unfold reaches. rewrite exchange_from_built.
    apply reaches_bind_l; [| intros ?; apply roundTrip_extends].
    unfold signRequest. apply reaches_bind_l; [| intros ?; grow].
    exists []. simpl. now rewrite app_nil_r.
  - exists rest. now rewrite Hrest, <- app_assoc.
Qed.

(** One credential set and a signer that succeeds: what the signer
    returned goes to the transport. *)
Lemma Communicate_signed_sends cr w' signed hc :
  Sign X (world s) req cr data (Region c) = (w', (signed, None)) ->
  con c = Some hc ->
  exists rest,
    trace (fst (Communicate X auth method path input output [cr] s))
    = (built ++ [EvSign req; EvDo signed] ++ rest)%list.
Proof.
  intros Hsign Hcon.
  assert (Hcreds : (length [cr] <= 1)%nat) by (simpl; lia).
  destruct (Communicate_reaches auth method path input output [cr] s data
              (built ++ [EvSign req; EvDo signed])%list Htest Hcreds Hdata)
    as (rest & Hrest).
  - fold c s1. unfold reaches. rewrite exchange_from_built.
    eapply reaches_bind_r.
    + unfold signRequest, bind, emit, act. simpl. rewrite Hsign. reflexivity.
    + unfold roundTrip. rewrite Hcon.
      apply reaches_bind_l; [| intros ?; grow].
      exists []. simpl. now rewrite app_nil_r, <- app_assoc.
  - exists rest. now rewrite Hrest, <- app_assoc.
Qed.

(** One credential set and a signer that fails: its error is returned
    and nothing is sent. *)
Lemma Communicate_signer_fails cr w' signed msg :
  Sign X (world s) req cr data (Region c) = (w', (signed, Some msg)) ->
  Communicate X auth method path input output [cr] s
  = (mkState w' c (built ++ [EvSign req])%list,
     Returned (mkReply None (Some (ErrLibrary FromSigner (Reported msg))) output)).
Proof.
  intros Hsign.
  assert (Hcreds : (length [cr] <= 1)%nat) by (simpl; lia).
  apply (Communicate_exchange_Return auth method path input output [cr] s data _ _
           Htest Hcreds Hdata).
  fold c s1. rewrite exchange_from_built. apply bind_Return.
  unfold signRequest, bind, emit, act, returnWith. simpl. now rewrite Hsign.
Qed.

(** No credential set: the request goes to the transport as it was
    built. *)
Lemma Communicate_sends_unsigned hc :
  con c = Some hc ->
  exists rest,
    trace (fst (Communicate X auth method path input output [] s))
    = (built ++ [EvDo req] ++ rest)%list.
Proof.
  intros Hcon.
  assert (Hcreds : (length (@nil Credentials) <= 1)%nat) by (simpl; lia).
  destruct (Communicate_reaches auth method path input output [] s data
              (built ++ [EvDo req])%list Htest Hcreds Hdata) as (rest & Hrest).
  - fold c s1. unfold reaches. rewrite exchange_from_built.
    eapply reaches_bind_r; [reflexivity |].
    unfold roundTrip. rewrite Hcon.
    apply reaches_bind_l; [| intros ?; grow].
    exists []. simpl. now rewrite app_nil_r.
  - exists rest. now rewrite Hrest, <- app_assoc.
Qed.

(** No credential set and no HTTP client: [c.con.Do] panics. *)
Lemma Communicate_unconnected :
  con c = None ->
  Communicate X auth method path input output [] s
  = (mkState (world s) c built, Panicked "nil pointer dereference").
Proof.
  intros Hcon.
  assert (Hcreds : (length (@nil Credentials) <= 1)%nat) by (simpl; lia).
  apply (Communicate_exchange_Panic auth method path input output [] s data _ _
           Htest Hcreds Hdata).
  fold c s1. rewrite exchange_from_built.
  unfold signRequest. rewrite (bind_Next _ _ _ (mkState (world s) c built) req);
    [| reflexivity].
  unfold roundTrip. now rewrite Hcon.
Qed.

End Built.

(** C2, as the code has it. Outside testing mode, with at most one
    credential set, an input that is absent or serializes and a request
    that [http.NewRequest] accepts: for scope [firewall] the request
    that [Communicate] builds is the one of the specification with the
    firewall token, for [rulestack] with the rulestack token, for the
    empty scope without a token; its Authorization header is that token
    (or absent) unless a custom header is spelled like it. With one
    credential set this request is what the signer receives, right
    after it was built. With none it is what the transport receives,
    unless the HTTP client was never set up: then the call panics and
    nothing is sent. Any other scope returns the unknown-auth error,
    an [InvalidArgument], after [http.NewRequest] and with nothing
    signed or sent. *)
Theorem Communicate_authorization_by_scope :
  forall auth method path input output creds s data,
    testData (client s) = [] ->
    (length creds <= 1)%nat ->
    serializes X input data ->
    newRequestError X method (apiPrefix (client s) ++ "/" ++ GoStrings.Join path "/") = None ->
    let c := client s in
    let built :=
      (trace s ++ sendEvents c input data
       ++ [EvNewRequest method (apiPrefix c ++ "/" ++ GoStrings.Join path "/")])%list in
    let carries token :=
      let req := expectedRequest X c method path data token in
      (forall cr,
          creds = [cr] ->
          exists rest,
            trace (fst (Communicate X auth method path input output creds s))
            = (built ++ [EvSign req] ++ rest)%list)
      /\ (forall hc,
             creds = [] -> con c = Some hc ->
             exists rest,
               trace (fst (Communicate X auth method path input output creds s))
               = (built ++ [EvDo req] ++ rest)%list)
      /\ (creds = [] -> con c = None ->
          Communicate X auth method path input output creds s
          = (mkState (world s) c built, Panicked "nil pointer dereference"))
      /\ (noCustomAuthorization c -> reqHeader req !! "Authorization" = token) in
    (auth = permissions.Firewall -> carries (Some (FirewallJwt c)))
    /\ (auth = permissions.Rulestack -> carries (Some (RulestackJwt c)))
    /\ (auth = "" -> carries None)
    /\ (auth <> "" -> auth <> permissions.Firewall -> auth <> permissions.Rulestack ->
        Communicate X auth method path input output creds s
        = (mkState (world s) c built,
           Returned (mkReply None (Some (ErrUnknownAuth auth)) output))
        /\ kindOf (@ErrUnknownAuth O auth) = InvalidArgument).
Proof.
  intros * Htest Hcreds Hdata Hnew c built carries.
  assert (Hcarries : forall token,
             setAuth c auth (headerSet "Content-Type" "application/json" ∅)
             = Some (match token with
                     | Some jwt => headerSet "Authorization" jwt
                                     (headerSet "Content-Type" "application/json" ∅)
                     | None => headerSet "Content-Type" "application/json" ∅
                     end) ->
             carries token).
  { intros token Hauth. subst carries. cbv beta zeta. split; [| split; [| split]].
    - intros cr ->.
      exact (Communicate_signs auth method path input output s data token
               Htest Hdata Hnew Hauth cr).
    - intros hc -> Hcon.
      exact (Communicate_sends_unsigned auth method path input output s data token
               Htest Hdata Hnew Hauth hc Hcon).
    - intros -> Hcon.
      exact (Communicate_unconnected auth method path input output s data token
               Htest Hdata Hnew Hauth Hcon).
    - intros Hcustom. now apply expectedRequest_authorization. }
  split; [| split; [| split]].
  - intros ->. now apply Hcarries.
  - intros ->. now apply Hcarries.
  - intros ->. now apply Hcarries.
  - intros Hnone Hfw Hrs. split; [| reflexivity].
    now apply Communicate_unknown_auth.
Qed.

End Dispatcher.

(** C6. A call with two or more credential sets returns the
    one-credentials error, an [InvalidArgument], from the state it
    started in: nothing was serialized, built, signed or sent, the world
    and the trace are untouched, and the error is the same whatever the
    libraries, the client and the other arguments are. *)
Theorem Communicate_rejects_several_credentials :
  forall (W I O : Type) (X : @Externals W I O) auth method path input output creds s,
    (2 <= length creds)%nat ->
    Communicate X auth method path input output creds s
    = (s, Returned (mkReply None (Some ErrOnlyOneCredentials) output))
    /\ kindOf (@ErrOnlyOneCredentials O) = InvalidArgument
    /\ forall (X' : @Externals W I O) auth' method' path' input' output' creds' s',
         (2 <= length creds')%nat ->
         returnedError (snd (Communicate X' auth' method' path' input' output' creds' s'))
         = returnedError (snd (Communicate X auth method path input output creds s)).
Proof.
  intros * H. split; [| split].
  - now apply Communicate_two_credentials.
  - reflexivity.
  - intros * H'. now rewrite !Communicate_two_credentials.
Qed.

(** ** The token manager *)

Section TokenManager.

Context {W I O : Type}.
Variable X : @Externals W I O.

Lemma fetchJwt_client what arn admin jwtReq : respects eq (fetchJwt X what arn admin jwtReq).
Proof.
  unfold fetchJwt, logPrintf. frame (@eq_refl Client) (@eq_trans Client).
  apply respects_call. intros s. symmetry. apply Communicate_client.
Qed.

Lemma openSession_client : respects eq (openSession X).
Proof. unfold openSession, logPrintf. frame (@eq_refl Client) (@eq_trans Client). Qed.

(** A token block that leaves the function does so with an error. *)
Lemma fetchJwt_return what arn admin jwtReq s s' r :
  fetchJwt X what arn admin jwtReq s = (s', Return r) -> r <> None.
Proof.
  unfold fetchJwt, bind, getClient, when, logPrintf, emit, ret, act, call, returnWith.
  destruct (hasFlag (Logging (client s)) LogLogin); simpl;
    destruct (AssumeRole X (world s) arn "sdk_session") as [w' [cr | msg]]; simpl;
    try (intros [= <- <-]; discriminate);
    match goal with
    | |- context [Communicate ?a ?b ?c ?d ?e ?f ?g ?h] =>
        destruct (Communicate a b c d e f g h) as [s'' [ans | why]]
    end; try discriminate;
    destruct (replyErr ans); try discriminate; intros [= <- <-]; discriminate.
Qed.

(** C4, as the code has it. With a non-empty shared [Arn],
    [RefreshJwts] opens the STS session and then fails; it assumes no
    role, fetches no token and leaves the client, both tokens
    included, as it was. The error is the shared-ARN error, an
    [UnsupportedOperation], when the session could be created, and the
    error of the session otherwise. *)
Theorem RefreshJwts_shared_arn_fails :
  forall s,
    Arn (client s) <> "" ->
    let c := client s in
    let session := NewSession X (world s) (staticCredentials c) (Region c) in
    RefreshJwts X s
    = (mkState (fst session) c (trace s ++ loginEvents c ++ [EvNewSession])%list,
       Returned (Some (match snd session with
                       | Some msg => ErrLibrary FromNewSession (Reported msg)
                       | None => ErrSharedArn
                       end)))
    /\ FirewallJwt (client (fst (RefreshJwts X s))) = FirewallJwt c
    /\ RulestackJwt (client (fst (RefreshJwts X s))) = RulestackJwt c
    /\ kindOf (@ErrSharedArn O) = UnsupportedOperation.
Proof.
  intros s Harn c session.
  assert (Heq : RefreshJwts X s
                = (mkState (fst session) c (trace s ++ loginEvents c ++ [EvNewSession])%list,
                   Returned (Some (match snd session with
                                   | Some msg => ErrLibrary FromNewSession (Reported msg)
                                   | None => ErrSharedArn
                                   end)))).
  { subst session c. destruct s as [w c tr]. simpl in *.
    apply String.eqb_neq in Harn.
    unfold RefreshJwts, run, openSession, bind, getClient, when, logPrintf, emit, act, ret,
      returnWith, loginEvents, isEmpty. simpl.
    destruct (hasFlag (Logging c) LogLogin); simpl;
      destruct (NewSession X w (staticCredentials c) (Region c)) as [w' [msg |]]; simpl;
      rewrite ?Harn; simpl; rewrite <- ?app_assoc; reflexivity. }
  rewrite Heq. simpl. auto.
Qed.

(** *** The statements of a role block *)

Lemma openSession_opened s w1 :
  NewSession X (world s) (staticCredentials (client s)) (Region (client s)) = (w1, None) ->
  openSession X s = (sessionOpened s w1, Next (tokenRequest (client s))).
Proof.
  intros Hsession. destruct s as [w c tr]. simpl in *.
  unfold openSession, sessionOpened, tokenRequest, loginEvents, bind, getClient, when,
    logPrintf, emit, act, ret.
  simpl. destruct (hasFlag (Logging c) LogLogin); simpl; rewrite Hsession; simpl;
    rewrite <- ?app_assoc; reflexivity.
Qed.

(** STS refuses the role: the block returns its error. *)
Lemma fetchJwt_refused what arn admin jwtReq s w' msg :
  AssumeRole X (world s) arn "sdk_session" = (w', Bad msg) ->
  fetchJwt X what arn admin jwtReq s
  = (roleAssumed s what arn w', Return (Some (ErrLibrary FromAssumeRole (Reported msg)))).
Proof.
  intros Hrole. destruct s as [w c tr]. simpl in *.
  unfold fetchJwt, roleAssumed, roleEvents, bind, getClient, when, logPrintf, emit, act, ret,
    returnWith.
  simpl. destruct (hasFlag (Logging c) LogLogin); simpl; rewrite Hrole; simpl;
    rewrite <- ?app_assoc; reflexivity.
Qed.

(** STS grants the role: the block goes on to the token fetch with the
    credentials of the role. *)
Lemma fetchJwt_assumed what arn admin jwtReq s w' cr :
  AssumeRole X (world s) arn "sdk_session" = (w', Good cr) ->
  fetchJwt X what arn admin jwtReq s
  = bind (call (Communicate X "" "GET" ["v1"; "mgmt"; "tokens"; admin]
                  (Some (jwtRequest X jwtReq)) (Some (authResponseZero X)) [cr]))
      (fun ans =>
         match replyErr ans with
         | Some e => returnWith (Some e)
         | None => ret (authResponseJwt X (default (authResponseZero X) (replyTarget ans)))
         end)
      (roleAssumed s what arn w').
Proof.
  intros Hrole. destruct s as [w c tr]. simpl in *.
  unfold fetchJwt, roleAssumed, roleEvents. simpl.
  unfold bind at 1. unfold getClient at 1. simpl.
  unfold bind at 1. unfold when, logPrintf, emit, ret.
  destruct (hasFlag (Logging c) LogLogin); simpl;
    unfold bind at 1; simpl; unfold bind at 1; unfold act at 1; simpl;
    rewrite Hrole; simpl; rewrite <- ?app_assoc; reflexivity.
Qed.

Lemma fetchJwt_fetched what arn admin jwtReq s w' cr s' ans :
  AssumeRole X (world s) arn "sdk_session" = (w', Good cr) ->
  Communicate X "" "GET" ["v1"; "mgmt"; "tokens"; admin]
    (Some (jwtRequest X jwtReq)) (Some (authResponseZero X)) [cr] (roleAssumed s what arn w')
  = (s', Returned ans) ->
  replyErr ans = None ->
  fetchJwt X what arn admin jwtReq s
  = (s', Next (authResponseJwt X (default (authResponseZero X) (replyTarget ans)))).
Proof.
  intros Hrole Hfetch Hnil. rewrite (fetchJwt_assumed _ _ _ _ _ _ _ Hrole).
  unfold bind, call. rewrite Hfetch, Hnil. reflexivity.
Qed.

Lemma fetchJwt_fetch_fails what arn admin jwtReq s w' cr s' ans e :
  AssumeRole X (world s) arn "sdk_session" = (w', Good cr) ->
  Communicate X "" "GET" ["v1"; "mgmt"; "tokens"; admin]
    (Some (jwtRequest X jwtReq)) (Some (authResponseZero X)) [cr] (roleAssumed s what arn w')
  = (s', Returned ans) ->
  replyErr ans = Some e ->
  fetchJwt X what arn admin jwtReq s = (s', Return (Some e)).
Proof.
  intros Hrole Hfetch Herr. rewrite (fetchJwt_assumed _ _ _ _ _ _ _ Hrole).
  unfold bind, call. rewrite Hfetch, Herr. reflexivity.
Qed.

(** The two blocks in sequence: when the first yields a token and the
    second leaves the function, [RefreshJwts] returns what the second
    returned. *)
Lemma RefreshJwts_second_block_returns :
  forall s0 s1 s2 s3 jwtReq jwt r,
    LfaArn (client s0) <> "" ->
    LraArn (client s0) <> "" ->
    Arn (client s0) = "" ->
    openSession X s0 = (s1, Next jwtReq) ->
    fetchJwt X "firewall" (LfaArn (client s0)) "cloudfirewalladmin" jwtReq s1
    = (s2, Next jwt) ->
    fetchJwt X "rulestack" (LraArn (client s0)) "cloudrulestackadmin" jwtReq
      (mkState (world s2) (setFirewallJwt jwt (client s2)) (trace s2))
    = (s3, Return r) ->
    RefreshJwts X s0 = (s3, Returned r)
    /\ r <> None
    /\ FirewallJwt (client s3) = jwt
    /\ RulestackJwt (client s3) = RulestackJwt (client s0).
Proof.
  intros * Hlfa Hlra Harn Hopen Hfw Hrs.
  pose proof (openSession_client s0) as H1. rewrite Hopen in H1. simpl in H1.
  pose proof (fetchJwt_client "firewall" (LfaArn (client s0)) "cloudfirewalladmin" jwtReq s1)
    as H2. rewrite Hfw in H2. simpl in H2.
  pose proof (fetchJwt_client "rulestack" (LraArn (client s0)) "cloudrulestackadmin" jwtReq
                (mkState (world s2) (setFirewallJwt jwt (client s2)) (trace s2))) as H3.
  rewrite Hrs in H3. simpl in H3.
  apply String.eqb_neq in Hlfa, Hlra.
  repeat split.
  - assert (Hfirewall : refreshFirewall X jwtReq s1
                        = (mkState (world s2) (setFirewallJwt jwt (client s2)) (trace s2),
                           Next tt)).
    { unfold refreshFirewall. rewrite bind_getClient, <- H1. unfold isEmpty.
      rewrite Hlfa. cbn [negb]. now rewrite (bind_Next _ _ _ _ _ Hfw). }
    assert (Hrulestack : refreshRulestack X jwtReq
                           (mkState (world s2) (setFirewallJwt jwt (client s2)) (trace s2))
                         = (s3, Return r)).
    { assert (Hsame : LraArn (client s2) = LraArn (client s0)) by congruence.
      unfold refreshRulestack. rewrite bind_getClient. cbn [client].
      change (LraArn (setFirewallJwt jwt (client s2))) with (LraArn (client s2)).
      rewrite Hsame. unfold isEmpty. rewrite Hlra. cbn [negb].
      now rewrite (bind_Return _ _ _ _ _ Hrs). }
    unfold RefreshJwts, run. rewrite (bind_Next _ _ _ _ _ Hopen).
    rewrite bind_getClient, <- H1, Harn. unfold isEmpty.
    change (negb (String.eqb "" "")) with false. cbv iota.
    rewrite (bind_Next _ _ _ _ _ Hfirewall). now rewrite (bind_Return _ _ _ _ _ Hrulestack).
  - eapply fetchJwt_return. exact Hrs.
  - rewrite <- H3. reflexivity.
  - rewrite <- H3. simpl. now rewrite <- H2, <- H1.
Qed.

(** C5. With both role identifiers set (and the shared one empty, or
    no role block would run) and a session that could be created: when
    the firewall step succeeds, which is STS granting the firewall
    role and the token fetch with its credentials returning no error,
    and the rulestack step then fails, in role assumption (STS refuses
    the rulestack role) or in the token fetch (the call of
    [Communicate] with the credentials of the rulestack role returns
    an error), [RefreshJwts] returns that error, nothing follows, and
    on return [FirewallJwt] holds the token of the first answer and
    [RulestackJwt] what it held before the call. *)
Theorem RefreshJwts_partial_failure_keeps_firewall :
  forall s0 w1 w2 cr s2 ans,
    let c := client s0 in
    let fetch admin cr :=
      Communicate X "" "GET" ["v1"; "mgmt"; "tokens"; admin]
        (Some (jwtRequest X (tokenRequest c))) (Some (authResponseZero X)) [cr] in
    LfaArn c <> "" ->
    LraArn c <> "" ->
    Arn c = "" ->
    NewSession X (world s0) (staticCredentials c) (Region c) = (w1, None) ->
    AssumeRole X w1 (LfaArn c) "sdk_session" = (w2, Good cr) ->
    fetch "cloudfirewalladmin" cr (roleAssumed (sessionOpened s0 w1) "firewall" (LfaArn c) w2)
    = (s2, Returned ans) ->
    replyErr ans = None ->
    let jwt := authResponseJwt X (default (authResponseZero X) (replyTarget ans)) in
    let stored := mkState (world s2) (setFirewallJwt jwt c) (trace s2) in
    (forall w3 msg,
        AssumeRole X (world s2) (LraArn c) "sdk_session" = (w3, Bad msg) ->
        let final := roleAssumed stored "rulestack" (LraArn c) w3 in
        RefreshJwts X s0
        = (final, Returned (Some (ErrLibrary FromAssumeRole (Reported msg))))
        /\ FirewallJwt (client final) = jwt
        /\ RulestackJwt (client final) = RulestackJwt c)
    /\ (forall w3 cr' final ans' e,
           AssumeRole X (world s2) (LraArn c) "sdk_session" = (w3, Good cr') ->
           fetch "cloudrulestackadmin" cr' (roleAssumed stored "rulestack" (LraArn c) w3)
           = (final, Returned ans') ->
           replyErr ans' = Some e ->
           RefreshJwts X s0 = (final, Returned (Some e))
           /\ FirewallJwt (client final) = jwt
           /\ RulestackJwt (client final) = RulestackJwt c).
Proof.
  intros s0 w1 w2 cr s2 ans c fetch Hlfa Hlra Harn Hsession Hrole Hfetch Hnil jwt stored.
  pose proof (openSession_opened s0 w1 Hsession) as Hopen.
  pose proof (fetchJwt_fetched "firewall" (LfaArn c) "cloudfirewalladmin" (tokenRequest c)
                (sessionOpened s0 w1) w2 cr s2 ans Hrole Hfetch Hnil) as Hfirewall.
  assert (Hclient : client s2 = c).
  { pose proof (Communicate_client X "" "GET" ["v1"; "mgmt"; "tokens"; "cloudfirewalladmin"]
                  (Some (jwtRequest X (tokenRequest c))) (Some (authResponseZero X)) [cr]
                  (roleAssumed (sessionOpened s0 w1) "firewall" (LfaArn c) w2)) as Hsame.
    unfold fetch in Hfetch. rewrite Hfetch in Hsame. exact Hsame. }
  assert (Hstored : mkState (world s2) (setFirewallJwt jwt (client s2)) (trace s2) = stored).
  { unfold stored. now rewrite Hclient. }
  split.
  - intros w3 msg Hrefused final.
    pose proof (fetchJwt_refused "rulestack" (LraArn c) "cloudrulestackadmin"
                  (tokenRequest c) stored w3 msg Hrefused) as Hrulestack.
    rewrite <- Hstored in Hrulestack at 1.
    destruct (RefreshJwts_second_block_returns s0 _ s2 _ _ jwt _ Hlfa Hlra Harn Hopen
                Hfirewall Hrulestack) as (Hrun & _).
    split; [exact Hrun | split; reflexivity].
  - intros w3 cr' final ans' e Hgranted Hfetch' Herr.
    pose proof (fetchJwt_fetch_fails "rulestack" (LraArn c) "cloudrulestackadmin"
                  (tokenRequest c) stored w3 cr' final ans' e Hgranted Hfetch' Herr)
      as Hrulestack.
    rewrite <- Hstored in Hrulestack at 1.
    destruct (RefreshJwts_second_block_returns s0 _ s2 _ _ jwt _ Hlfa Hlra Harn Hopen
                Hfirewall Hrulestack) as (Hrun & _ & Hfw & Hrs).
    split; [exact Hrun | split; [exact Hfw | exact Hrs]].
Qed.

End TokenManager.

(** ** The configuration resolver *)

Lemma keepsExplicit_refl (c : Client) : keepsExplicit c c.
Proof. intros f _. reflexivity. Qed.

Lemma keepsExplicit_trans (a b c : Client) :
  keepsExplicit a b -> keepsExplicit b c -> keepsExplicit a c.
Proof.
  intros Hab Hbc f Hset. rewrite <- (Hab f Hset). apply Hbc.
  unfold explicitlySet in *. now rewrite (Hab f Hset).
Qed.

Lemma sameConfiguration_refl (c : Client) : sameConfiguration c c.
Proof. intros f. reflexivity. Qed.

Lemma sameConfiguration_trans (a b c : Client) :
  sameConfiguration a b -> sameConfiguration b c -> sameConfiguration a c.
Proof. intros Hab Hbc f. now rewrite Hbc, Hab. Qed.

Lemma isEmpty_true (s : string) : isEmpty s = true -> s = "".
Proof. apply String.eqb_eq. Qed.

Lemma isEmpty_false (s : string) : s <> "" -> isEmpty s = false.
Proof. apply String.eqb_neq. Qed.

Lemma length_zero {A : Type} (l : list A) : (length l =? 0)%nat = true -> l = [].
Proof. destruct l; [reflexivity | discriminate]. Qed.

(** A write to a field that was unset keeps every explicit value. *)
Ltac unset_field :=
  let f := fresh "f" in
  let Hset := fresh "Hset" in
  intros f Hset; destruct f; try reflexivity;
  exfalso; unfold explicitlySet in Hset; apply Hset; simpl; f_equal;
  first [ apply isEmpty_true; assumption
        | apply Z.eqb_eq; assumption
        | apply length_zero; assumption ].

(** Runs a resolver block from an arbitrary state through all of its
    branches. *)
Ltac branches :=
  repeat (match goal with
          | |- context [match ?x with _ => _ end] =>
              lazymatch x with
              | context [match _ with _ => _ end] => fail
              | _ => destruct x eqn:?
              end
          end; simpl).

(** Splits a sequence of blocks at its binds, without unfolding the
    blocks. *)
Ltac sequence Htrans :=
  repeat lazymatch goal with
         | |- respects _ (bind _ _) => apply (respects_bind _ Htrans); [| intros ?]
         end.

Section Resolver.

Context {W I O : Type}.
Variable X : @Externals W I O.

Lemma loadJson_keeps : respects keepsExplicit (loadJson X).
Proof. unfold loadJson. frame keepsExplicit_refl keepsExplicit_trans. Qed.

Lemma resolveHost_keeps jc : respects keepsExplicit (resolveHost X jc).
Proof.
  intros [w c tr].
  unfold resolveHost, bind, getClient, getenv, ask, deref, modify, ret, panic. simpl.
  branches; try apply keepsExplicit_refl; unset_field.
Qed.

Lemma resolveRegion_keeps jc : respects keepsExplicit (resolveRegion X jc).
Proof.
  intros [w c tr].
  unfold resolveRegion, bind, getClient, getenv, ask, deref, modify, ret, panic. simpl.
  branches; try apply keepsExplicit_refl; unset_field.
Qed.

Lemma resolveProtocol_keeps jc : respects keepsExplicit (resolveProtocol X jc).
Proof.
  intros [w c tr].
  unfold resolveProtocol, bind, getClient, getenv, ask, deref, modify, ret, panic, returnWith.
  simpl. branches; try apply keepsExplicit_refl; unset_field.
Qed.

Lemma resolveTimeout_keeps jc : respects keepsExplicit (resolveTimeout X jc).
Proof.
  intros [w c tr].
  unfold resolveTimeout, bind, getClient, getenv, ask, deref, modify, ret, panic, returnWith.
  simpl. branches; try apply keepsExplicit_refl; unset_field.
Qed.

Lemma resolveHeaders_keeps jc : respects keepsExplicit (resolveHeaders X jc).
Proof.
  intros [w c tr].
  unfold resolveHeaders, bind, getClient, getenv, ask, deref, modify, ret, panic, returnWith.
  simpl. branches; try apply keepsExplicit_refl; unset_field.
Qed.

Lemma resolveVerify_keeps jc : respects keepsExplicit (resolveVerify X jc).
Proof.
  intros [w c tr].
  unfold resolveVerify, bind, getClient, getenv, ask, deref, modify, ret, panic, returnWith.
  simpl. branches; try apply keepsExplicit_refl; intros f Hset; destruct f; reflexivity.
Qed.

Lemma resolveLogging_keeps jc : respects keepsExplicit (resolveLogging X jc).
Proof.
  intros [w c tr].
  unfold resolveLogging, loggingTokens, bind, getClient, getenv, ask, deref, modify, ret,
    panic, returnWith.
  simpl. branches; try apply keepsExplicit_refl; unset_field.
Qed.

Lemma setupClient_keeps tout : respects keepsExplicit (@setupClient W O tout).
Proof.
  intros [w c tr].
  unfold setupClient, bind, getClient, modify, ret, panic. simpl.
  branches; try apply keepsExplicit_refl; intros f Hset; destruct f; reflexivity.
Qed.

Lemma finishCon_keeps : respects keepsExplicit (@finishCon W O).
Proof.
  intros [w c tr].
  unfold finishCon, bind, getClient, modify, ret, returnWith. simpl.
  branches; try apply keepsExplicit_refl; intros f Hset; destruct f; reflexivity.
Qed.

Lemma initCon_keeps s : keepsExplicit (client s) (client (fst (initCon X s))).
Proof.
  unfold initCon. apply (respects_run keepsExplicit). unfold beforeLogging.
  sequence keepsExplicit_trans;
    auto using loadJson_keeps, resolveHost_keeps, resolveRegion_keeps, resolveProtocol_keeps,
      resolveTimeout_keeps, resolveHeaders_keeps, resolveVerify_keeps, resolveLogging_keeps,
      setupClient_keeps, finishCon_keeps.
  all: apply respects_ret; apply keepsExplicit_refl.
Qed.

Lemma RefreshJwts_sameConfiguration s :
  sameConfiguration (client s) (client (fst (RefreshJwts X s))).
Proof.
  unfold RefreshJwts. apply (respects_run sameConfiguration).
  unfold openSession, refreshFirewall, refreshRulestack, fetchJwt, logPrintf.
  frame sameConfiguration_refl sameConfiguration_trans.
  all: try (apply (respects_modify sameConfiguration); intros c f; destruct f; reflexivity).
  all: apply respects_call; intros s'; rewrite Communicate_client;
    apply sameConfiguration_refl.
Qed.

Lemma Initialize_production s :
  testData (client s) = [] ->
  keepsExplicit (client s) (client (fst (Initialize X s))).
Proof.
  intros Htest. unfold Initialize, run. rewrite bind_getClient, Htest. simpl.
  unfold bind, call, returnWith, ret.
  pose proof (initCon_keeps s) as Hcon.
  destruct (initCon X s) as [s1 [[e |] | why]]; simpl in *; trivial.
  pose proof (RefreshJwts_sameConfiguration s1) as Hjwt.
  assert (Hall : keepsExplicit (client s) (client (fst (RefreshJwts X s1)))).
  { intros f Hset. rewrite Hjwt. now apply Hcon. }
  destruct (RefreshJwts X s1) as [s2 [[e |] | why]]; simpl in *; trivial.
Qed.

Lemma Initialize_testing s :
  testData (client s) <> [] ->
  Initialize X s
  = (mkState (world s) (setHost "test.nz" (client s)) (trace s), Returned None).
Proof.
  intros Htest. unfold Initialize, run. rewrite bind_getClient.
  destruct (testData (client s)); [congruence | reflexivity].
Qed.

(** C1, as the code has it. A field of host, region, protocol,
    timeout, headers and logging that is set on the struct keeps its
    value through [initCon], whatever the environment, the credentials
    file and the defaults are and however [initCon] ends; and through
    [Initialize] as well, except that in testing mode [Initialize] does
    not resolve anything and overwrites the host. *)
Theorem explicit_value_wins :
  forall f s,
    explicitlySet f (client s) ->
    fieldOf f (client (fst (initCon X s))) = fieldOf f (client s)
    /\ (testData (client s) = [] \/ f <> FHost ->
        fieldOf f (client (fst (Initialize X s))) = fieldOf f (client s))
    /\ (testData (client s) <> [] ->
        fieldOf FHost (client (fst (Initialize X s))) = VString "test.nz").
Proof.
  intros f s Hset. split; [| split].
  - now apply initCon_keeps.
  - intros Hcase. destruct (testData (client s)) as [| d rest] eqn:Htest.
    + now apply Initialize_production.
    + destruct Hcase as [Hcase | Hcase]; [discriminate |].
      rewrite Initialize_testing by congruence. destruct f; try reflexivity. congruence.
  - intros Htest. now rewrite Initialize_testing.
Qed.

(** *** Defaults *)

(** Of the nine flags the default bitmask holds exactly login, post,
    put and delete. *)
Lemma defaultLogging_flags (flag : Z) :
  In flag allLogFlags -> (hasFlag defaultLogging flag = true <-> In flag defaultFlags).
Proof.
  unfold allLogFlags, defaultFlags. simpl. intros Hin.
  repeat (destruct Hin as [<- | Hin]); try contradiction; vm_compute;
    (split; [intros H; try discriminate H; auto 10
            | intros H; repeat (destruct H as [H | H]); try discriminate H;
              try reflexivity; try contradiction]).
Qed.

(** C7. A client with only host and region set, with the environment
    switched off and no credentials file, comes out of [initCon]
    without an error, with protocol https, a timeout of 20 seconds
    (also on the HTTP client), the logging bitmask of login, post, put
    and delete, and the base URI https://host; the world and the trace
    are as before. *)
Theorem initCon_host_and_region_only :
  forall s,
    Host (client s) <> "" ->
    Region (client s) <> "" ->
    Protocol (client s) = "" ->
    Timeout (client s) = 0 ->
    Headers (client s) = [] ->
    Logging (client s) = 0 ->
    CheckEnvironment (client s) = false ->
    credsFile (client s) = "" ->
    exists s',
      initCon X s = (s', Returned None)
      /\ Protocol (client s') = "https"
      /\ Timeout (client s') = 20
      /\ Logging (client s') = defaultLogging
      /\ option_map ClientTimeout (con (client s')) = Some (20 * Second)
      /\ apiPrefix (client s') = "https://" ++ Host (client s)
      /\ Host (client s') = Host (client s)
      /\ Region (client s') = Region (client s)
      /\ world s' = world s
      /\ trace s' = trace s
      /\ (forall flag, In flag allLogFlags ->
            (hasFlag (Logging (client s')) flag = true <-> In flag defaultFlags)).
Proof.
  intros [w c tr] Hhost Hregion Hproto Htimeout Hheaders Hlogging Henv Hfile.
  destruct c. simpl in *. subst.
  apply isEmpty_false in Hhost, Hregion.
  unfold initCon, run, beforeLogging, loadJson, resolveHost, resolveRegion, resolveProtocol,
    resolveTimeout, resolveHeaders, resolveVerify, resolveLogging, loggingTokens, setupClient,
    finishCon, bind, getClient, getenv, ask, deref, modify, ret, returnWith, panic.
  destruct SkipVerifyCertificate0, Transport0 as [t |]; simpl;
    repeat (first [rewrite Hhost | rewrite Hregion]; simpl);
    eexists; (split; [reflexivity |]); simpl;
    repeat (split; [reflexivity |]); apply defaultLogging_flags.
Qed.

(** *** Logging *)

(** The [default] case of the switch is taken exactly by the tokens
    outside the nine names. *)
Lemma logFlag_unknown (x : string) : logFlag x = None <-> ~ In x loggingNames.
Proof.
  unfold logFlag, loggingNames. simpl.
  repeat match goal with
         | |- context [String.eqb x ?name] =>
             destruct (String.eqb_spec x name) as [-> | ?]; [split; [discriminate | tauto] |]
         end.
  split; [intros _; intuition congruence | reflexivity].
Qed.

(** The loop stops at the first token outside the names. *)
Lemma parseLogging_unknown (ll : list string) :
  forall lv,
    (exists x, In x ll /\ ~ In x loggingNames) ->
    exists y, parseLogging ll lv = inr y /\ In y ll /\ ~ In y loggingNames.
Proof.
  induction ll as [| x rest IH]; intros lv [bad [Hin Hbad]]; [destruct Hin |].
  simpl. destruct (logFlag x) as [flag |] eqn:Hflag.
  - destruct Hin as [-> | Hin].
    + apply logFlag_unknown in Hbad. congruence.
    + destruct (IH (Z.lor lv flag)) as (y & Hy & Hyin & Hybad); [now exists bad |].
      exists y. auto.
  - exists x. apply logFlag_unknown in Hflag. auto.
Qed.

Lemma loggingTokens_state jc s s' ll :
  loggingTokens X jc s = (s', Next ll) -> s' = s.
Proof.
  unfold loggingTokens, bind, getClient, getenv, ask, deref, ret, panic. simpl.
  destruct (CheckEnvironment (client s) && _); [now intros [= <- _] |].
  destruct jc; simpl; [now intros [= <- _] | discriminate].
Qed.

Lemma beforeLogging_sameLogging : respects sameLogging (beforeLogging X).
Proof.
  assert (Hrefl : forall c, sameLogging c c) by reflexivity.
  assert (Htrans : forall a b c, sameLogging a b -> sameLogging b c -> sameLogging a c).
  { unfold sameLogging. congruence. }
  unfold beforeLogging, loadJson, resolveHost, resolveRegion, resolveProtocol, resolveTimeout,
    resolveHeaders, resolveVerify, getenv, deref.
  frame Hrefl Htrans.
  all: apply (respects_modify sameLogging); reflexivity.
Qed.

Lemma afterLogging_sameLogging tout :
  respects sameLogging
    (bind (@setupClient W O tout)
       (fun _ => bind (@finishCon W O) (fun _ => ret (@None (error O))))).
Proof.
  assert (Hrefl : forall c, sameLogging c c) by reflexivity.
  assert (Htrans : forall a b c, sameLogging a b -> sameLogging b c -> sameLogging a c).
  { unfold sameLogging. congruence. }
  unfold setupClient, finishCon. frame Hrefl Htrans.
  all: apply (respects_modify sameLogging); reflexivity.
Qed.

(** C8. When [initCon] reaches its logging block with a zero bitmask
    on the struct and the block resolves the token list [ll] (from the
    environment or from the credentials file): a token outside the
    nine names makes [initCon] return the unknown-logging error for
    the first such token, an [InvalidConfiguration], with the bitmask
    still zero; an empty list sets the bitmask to exactly login, post,
    put and delete, and it stays so to the end of [initCon]. *)
Theorem logging_resolution :
  forall s s1 s2 json_client tout ll,
    Logging (client s) = 0 ->
    beforeLogging X s = (s1, Next (json_client, tout)) ->
    loggingTokens X json_client s1 = (s2, Next ll) ->
    ((exists x, In x ll /\ ~ In x loggingNames) ->
     exists y,
       In y ll /\ ~ In y loggingNames
       /\ initCon X s = (s1, Returned (Some (ErrUnknownLogging y)))
       /\ kindOf (@ErrUnknownLogging O y) = InvalidConfiguration
       /\ Logging (client s1) = 0)
    /\ (ll = [] ->
        Logging (client (fst (initCon X s))) = defaultLogging
        /\ (forall flag, In flag allLogFlags ->
              (hasFlag (Logging (client (fst (initCon X s)))) flag = true
               <-> In flag defaultFlags))).
Proof.
  intros * Hzero Hbefore Htokens.
  pose proof (loggingTokens_state _ _ _ _ Htokens) as ->.
  pose proof (beforeLogging_sameLogging s) as Hsame.
  rewrite Hbefore in Hsame. unfold sameLogging in Hsame. simpl in Hsame.
  rewrite Hzero in Hsame.
  assert (Hblock : resolveLogging X json_client s1
                   = if (0 <? length ll)%nat then
                       match parseLogging ll 0 with
                       | inr x => returnWith (Some (ErrUnknownLogging x)) s1
                       | inl lv => modify (setLogging lv) s1
                       end
                     else modify (setLogging defaultLogging) s1).
  { unfold resolveLogging. rewrite bind_getClient, Hsame. simpl.
    rewrite (bind_Next _ _ _ _ _ Htokens).
    destruct (0 <? length ll)%nat; [destruct (parseLogging ll 0) |]; reflexivity. }
  split.
  - intros Hbad. destruct (parseLogging_unknown ll 0 Hbad) as (y & Hparse & Hin & Hout).
    exists y. repeat split; trivial.
    unfold initCon, run. rewrite (bind_Next _ _ _ _ _ Hbefore). simpl fst.
    unfold bind at 1. rewrite Hblock, Hparse.
    destruct ll; [destruct Hin | reflexivity].
  - intros ->. simpl in Hblock.
    assert (Hend : Logging (client (fst (initCon X s))) = defaultLogging).
    { unfold initCon, run. rewrite (bind_Next _ _ _ _ _ Hbefore). simpl fst. simpl snd.
      unfold bind at 1. rewrite Hblock. unfold modify at 1.
      pose proof (afterLogging_sameLogging tout
                    (mkState (world s1) (setLogging defaultLogging (client s1)) (trace s1)))
        as Hafter.
      unfold sameLogging in Hafter. simpl in Hafter.
      destruct (bind (setupClient tout) _ _) as [s3 [a | r | why]]; exact Hafter. }
    split; [exact Hend |]. rewrite Hend. apply defaultLogging_flags.
Qed.

End Resolver.

(** ** Concrete cases *)

(** In testing mode [Initialize] replaces a host that was set on the
    struct: the explicit value does not survive for every client. *)
Lemma explicit_host_lost_in_testing_mode :
  explicitlySet FHost Scenario.offline
  /\ fieldOf FHost
       (client (fst (Initialize Scenario.externals (Scenario.start Scenario.offline))))
     = VString "test.nz"
  /\ fieldOf FHost
       (client (fst (Initialize Scenario.externals (Scenario.start Scenario.offline))))
     <> fieldOf FHost Scenario.offline.
Proof.
  split; [| split].
  - unfold explicitlySet. simpl. discriminate.
  - vm_compute. reflexivity.
  - vm_compute. discriminate.
Qed.

Lemma explicit_value_wins_witness :
  explicitlySet FHost Scenario.plain
  /\ fieldOf FHost
       (client (fst (initCon Scenario.externals (Scenario.start Scenario.plain))))
     = fieldOf FHost Scenario.plain
  /\ fieldOf FHost
       (client (fst (Initialize Scenario.externals (Scenario.start Scenario.plain))))
     = fieldOf FHost Scenario.plain.
Proof.
  assert (Hset : explicitlySet FHost (client (Scenario.start Scenario.plain))).
  { unfold explicitlySet. simpl. discriminate. }
  destruct (explicit_value_wins Scenario.externals FHost (Scenario.start Scenario.plain) Hset)
    as (Hcon & Hinit & _).
  split; [exact Hset | split; [exact Hcon |]].
  apply Hinit. left. reflexivity.
Defined.

(** In testing mode a scope that is none of the three is accepted:
    the call returns the stub body and no error. *)
Lemma unknown_scope_accepted_in_testing_mode :
  "admin" <> "" /\ "admin" <> permissions.Firewall /\ "admin" <> permissions.Rulestack
  /\ Communicate Scenario.externals "admin" "GET" ["v1"; "config"] None None []
       (Scenario.start Scenario.offline)
     = (Scenario.start Scenario.offline, Returned (mkReply (Some stubBody) None None)).
Proof. repeat split; discriminate. Qed.

Lemma Communicate_authorization_by_scope_witness :
  (exists rest,
      trace (fst (Communicate Scenario.externals permissions.Firewall "GET" ["v1"; "config"]
                    None None [] (Scenario.start Scenario.ready)))
      = ([EvNewRequest "GET" "https://ngfw.example.com/v1/config";
          EvDo (expectedRequest Scenario.externals Scenario.ready "GET" ["v1"; "config"] ""
                  (Some "old-firewall"))]
         ++ rest)%list)
  /\ reqHeader (expectedRequest Scenario.externals Scenario.ready "GET" ["v1"; "config"] ""
                  (Some "old-firewall")) !! "Authorization"
     = Some "old-firewall".
Proof.
  assert (Htest : testData (client (Scenario.start Scenario.ready)) = []) by reflexivity.
  assert (Hcreds : (length (@nil Credentials) <= 1)%nat) by (simpl; lia).
  assert (Hdata : serializes Scenario.externals None "") by reflexivity.
  assert (Hnew : newRequestError Scenario.externals "GET"
                   (apiPrefix (client (Scenario.start Scenario.ready)) ++ "/"
                    ++ GoStrings.Join ["v1"; "config"] "/") = None) by reflexivity.
  destruct (Communicate_authorization_by_scope Scenario.externals permissions.Firewall "GET"
              ["v1"; "config"] None None [] (Scenario.start Scenario.ready) ""
              Htest Hcreds Hdata Hnew) as (Hfirewall & _).
  destruct (Hfirewall eq_refl) as (_ & Hsent & _ & Hheader).
  split.
  - exact (Hsent _ eq_refl eq_refl).
  - apply Hheader. constructor.
Defined.

Lemma Communicate_failed_predicate_is_error_witness :
  snd (Communicate Scenario.externals "" "GET" ["v1"; "missing"] None (Some ("", true)) []
         (Scenario.start Scenario.ready))
  = Returned (mkReply (Some "[404]") (Some (ErrOutput ("", false))) (Some ("", false))).
Proof.
  set (s := Scenario.start Scenario.ready).
  set (s1 := fst (obtainBody Scenario.externals "" "GET" ["v1"; "missing"] None
                    (Some ("", true)) [] s)).
  assert (Hbody : obtainBody Scenario.externals "" "GET" ["v1"; "missing"] None
                    (Some ("", true)) [] s = (s1, Next "[404]")).
  { vm_compute. reflexivity. }
  assert (Hdecode : Unmarshal (decodeOutput Scenario.externals) "[404]" ("", true)
                    = (("", false), None)).
  { vm_compute. reflexivity. }
  assert (Hok : Ok Scenario.externals ("", false) = false) by reflexivity.
  destruct (Communicate_failed_predicate_is_error Scenario.externals "" "GET"
              ["v1"; "missing"] None ("", true) [] s s1 "[404]" ("", false)
              Hbody Hdecode Hok) as (Hrun & _).
  exact (f_equal snd Hrun).
Defined.

(** With the AWS configuration broken, [RefreshJwts] on a client with a
    shared role identifier returns the error of the session, which is
    not the shared-ARN error. *)
Lemma shared_arn_session_error_first :
  Arn Scenario.shared <> ""
  /\ snd (RefreshJwts Scenario.externals (Scenario.startBroken Scenario.shared))
     = Returned (Some (ErrLibrary FromNewSession (Reported "LoadCustomCABundleError")))
  /\ kindOf (@ErrLibrary Scenario.answer FromNewSession (Reported "LoadCustomCABundleError"))
     <> UnsupportedOperation.
Proof.
  split; [discriminate | split; [vm_compute; reflexivity | discriminate]].
Qed.

Lemma RefreshJwts_shared_arn_fails_witness :
  snd (RefreshJwts Scenario.externals (Scenario.start Scenario.shared))
  = Returned (Some ErrSharedArn)
  /\ FirewallJwt (client (fst (RefreshJwts Scenario.externals
                                 (Scenario.start Scenario.shared)))) = "old-firewall"
  /\ RulestackJwt (client (fst (RefreshJwts Scenario.externals
                                  (Scenario.start Scenario.shared)))) = "old-rulestack".
Proof.
  assert (Harn : Arn (client (Scenario.start Scenario.shared)) <> "") by discriminate.
  destruct (RefreshJwts_shared_arn_fails Scenario.externals (Scenario.start Scenario.shared)
              Harn) as (Hrun & Hfw & Hrs & _).
  split; [exact (f_equal snd Hrun) | split; [exact Hfw | exact Hrs]].
Defined.

Lemma RefreshJwts_partial_failure_keeps_firewall_witness :
  snd (RefreshJwts Scenario.externals (Scenario.start Scenario.partial))
  = Returned (Some (ErrLibrary FromAssumeRole (Reported "AccessDenied")))
  /\ FirewallJwt (client (fst (RefreshJwts Scenario.externals
                                 (Scenario.start Scenario.partial)))) = "token-1"
  /\ RulestackJwt (client (fst (RefreshJwts Scenario.externals
                                  (Scenario.start Scenario.partial)))) = "old-rulestack".
Proof.
  set (X := Scenario.externals).
  set (s0 := Scenario.start Scenario.partial).
  set (w := Scenario.mkWorld [] false).
  set (s2 := fst (Communicate X "" "GET" ["v1"; "mgmt"; "tokens"; "cloudfirewalladmin"]
                    (Some (jwtRequest X (tokenRequest (client s0))))
                    (Some (authResponseZero X)) [Scenario.someCredentials]
                    (roleAssumed (sessionOpened s0 w) "firewall" "arn:lfa" w))).
  set (ans := mkReply (Some "{}") (@None (error Scenario.answer)) (Some ("token-1", true))).
  assert (Hlfa : LfaArn (client s0) <> "") by discriminate.
  assert (Hlra : LraArn (client s0) <> "") by discriminate.
  assert (Harn : Arn (client s0) = "") by reflexivity.
  assert (Hsession : NewSession X (world s0) (staticCredentials (client s0))
                       (Region (client s0)) = (w, None)) by reflexivity.
  assert (Hrole : AssumeRole X w (LfaArn (client s0)) "sdk_session"
                  = (w, Good Scenario.someCredentials)) by reflexivity.
  assert (Hfetch : Communicate X "" "GET" ["v1"; "mgmt"; "tokens"; "cloudfirewalladmin"]
                     (Some (jwtRequest X (tokenRequest (client s0))))
                     (Some (authResponseZero X)) [Scenario.someCredentials]
                     (roleAssumed (sessionOpened s0 w) "firewall" (LfaArn (client s0)) w)
                   = (s2, Returned ans)) by (vm_compute; reflexivity).
  assert (Hnil : replyErr ans = None) by reflexivity.
  destruct (RefreshJwts_partial_failure_keeps_firewall X s0 w w Scenario.someCredentials
              s2 ans Hlfa Hlra Harn Hsession Hrole Hfetch Hnil) as (Hrefused & _).
  destruct (Hrefused (world s2) "AccessDenied" eq_refl) as (Hrun & Hfirewall & Hrulestack).
  split; [exact (f_equal snd Hrun) |].
  split; [exact (eq_trans (f_equal (fun r => FirewallJwt (client (fst r))) Hrun) Hfirewall) |].
  exact (eq_trans (f_equal (fun r => RulestackJwt (client (fst r))) Hrun) Hrulestack).
Defined.

Lemma Communicate_rejects_several_credentials_witness :
  Communicate Scenario.externals permissions.Firewall "POST" ["v1"; "config"]
    (Some "chan") (Some ("", false)) [Scenario.someCredentials; Scenario.someCredentials]
    (Scenario.start Scenario.ready)
  = (Scenario.start Scenario.ready,
     Returned (mkReply None (Some ErrOnlyOneCredentials) (Some ("", false)))).
Proof.
  assert (Htwo : (2 <= length [Scenario.someCredentials; Scenario.someCredentials])%nat)
    by (simpl; lia).
  exact (proj1 (Communicate_rejects_several_credentials _ _ _ Scenario.externals
                  permissions.Firewall "POST" ["v1"; "config"] (Some "chan")
                  (Some ("", false)) _ (Scenario.start Scenario.ready) Htwo)).
Defined.

Lemma initCon_host_and_region_only_witness :
  exists s',
    initCon Scenario.externals (Scenario.start Scenario.plain) = (s', Returned None)
    /\ Protocol (client s') = "https"
    /\ Timeout (client s') = 20
    /\ Logging (client s') = defaultLogging.
Proof.
  destruct (initCon_host_and_region_only Scenario.externals (Scenario.start Scenario.plain))
    as (s' & Hrun & Hproto & Htimeout & Hlogging & _);
    try reflexivity; try discriminate.
  exists s'. auto.
Defined.

Lemma logging_resolution_witness :
  exists y,
    In y ["get"; "verbose"] /\ ~ In y loggingNames
    /\ snd (initCon Scenario.externals (Scenario.start Scenario.fromEnvironment))
       = Returned (Some (ErrUnknownLogging y)).
Proof.
  set (X := Scenario.externals).
  set (s := Scenario.start Scenario.fromEnvironment).
  set (s1 := fst (beforeLogging X s)).
  assert (Hzero : Logging (client s) = 0) by reflexivity.
  assert (Hbefore : beforeLogging X s = (s1, Next (Some zeroClient, 20000000000)))
    by (vm_compute; reflexivity).
  assert (Htokens : loggingTokens X (Some zeroClient) s1 = (s1, Next ["get"; "verbose"]))
    by (vm_compute; reflexivity).
  destruct (logging_resolution X s s1 s1 (Some zeroClient) 20000000000 ["get"; "verbose"]
              Hzero Hbefore Htokens) as (Hunknown & _).
  destruct Hunknown as (y & Hin & Hout & Hrun & _).
  - exists "verbose". split; [simpl; auto |].
    unfold loggingNames. simpl. intuition discriminate.
  - exists y. split; [exact Hin | split; [exact Hout | exact (f_equal snd Hrun)]].
Defined.

(** In testing mode a call with two credential sets, or with an input
    that does not serialize, returns without the stub body and without
    a parse error. *)
Lemma offline_call_without_stub :
  testData Scenario.offline <> []
  /\ Communicate Scenario.externals "" "GET" ["v1"; "config"] None (Some ("", false))
       [Scenario.someCredentials; Scenario.someCredentials] (Scenario.start Scenario.offline)
     = (Scenario.start Scenario.offline,
        Returned (mkReply None (Some ErrOnlyOneCredentials) (Some ("", false))))
  /\ snd (Communicate Scenario.externals "" "POST" ["v1"; "config"] (Some "chan")
            (Some ("", false)) [] (Scenario.start Scenario.offline))
     = Returned (mkReply None
                   (Some (ErrLibrary FromMarshal (Reported "json: unsupported type")))
                   (Some ("", false))).
Proof.
  split; [discriminate | split; vm_compute; reflexivity].
Qed.

Lemma Communicate_offline_parse_error_witness :
  snd (Communicate Scenario.externals permissions.Firewall "GET" ["v1"; "config"] None
         (Some ("", true)) [] (Scenario.start Scenario.offline))
  = Returned (mkReply (Some stubBody) (Some (ErrLibrary FromUnmarshalBody JsonSyntax))
                (Some ("", true))).
Proof.
  assert (Htest : testData (client (Scenario.start Scenario.offline)) <> []) by discriminate.
  assert (Hcreds : (length (@nil Credentials) <= 1)%nat) by (simpl; lia).
  assert (Hdata : serializes Scenario.externals None "") by reflexivity.
  destruct (Communicate_offline_parse_error Scenario.externals permissions.Firewall "GET"
              ["v1"; "config"] None ("", true) [] (Scenario.start Scenario.offline) ""
              Htest Hcreds Hdata) as (Hrun & _).
  exact (f_equal snd Hrun).
Defined.

(** ** Further properties *)

(** *** Effects of the statements *)

Section EffectLemmas.

Context {W : Type}.

Lemma bind_Next_inv {R A B : Type} (m : M R A) (k : A -> @M W R B) s s' b :
  bind m k s = (s', Next b) ->
  exists s1 a, m s = (s1, Next a) /\ k a s1 = (s', Next b).
Proof.
  unfold bind. destruct (m s) as [s1 [a | r | why]]; intros H; try discriminate.
  now exists s1, a.
Qed.

Lemma bind_Return_inv {R A B : Type} (m : M R A) (k : A -> @M W R B) s s' r :
  bind m k s = (s', Return r) ->
  m s = (s', Return r) \/ exists s1 a, m s = (s1, Next a) /\ k a s1 = (s', Return r).
Proof.
  unfold bind. destruct (m s) as [s1 [a | r0 | why]]; intros H; try discriminate.
  - right. now exists s1, a.
  - left. injection H as <- <-. reflexivity.
Qed.

Lemma bind_bind_Next {R A B C : Type} (m : M R A) (k1 : A -> M R B) (k2 : B -> @M W R C)
    s s1 a :
  m s = (s1, Next a) -> bind (bind m k1) k2 s = bind (k1 a) k2 s1.
Proof. intros H. unfold bind. now rewrite H. Qed.

Lemma run_Returned {R : Type} (m : @M W R R) s s' r :
  run m s = (s', Returned r) -> m s = (s', Next r) \/ m s = (s', Return r).
Proof.
  unfold run. destruct (m s) as [s1 [a | r0 | why]]; intros [= <- <-]; auto.
Qed.

(** **** Events of one kind only *)

Section Only.

Variable allowed : event -> bool.

Lemma only_nil {R A : Type} (m : @M W R A) :
  (forall s, trace (fst (m s)) = trace s) -> only allowed m.
Proof. intros H s. exists []. now rewrite H, app_nil_r. Qed.

Lemma only_ret {R A : Type} (a : A) : only allowed (@ret W R A a).
Proof. now apply only_nil. Qed.

Lemma only_returnWith {R A : Type} (r : R) : only allowed (@returnWith W R A r).
Proof. now apply only_nil. Qed.

Lemma only_panic {R A : Type} (why : string) : only allowed (@panic W R A why).
Proof. now apply only_nil. Qed.

Lemma only_getClient {R : Type} : only allowed (@getClient W R).
Proof. now apply only_nil. Qed.

Lemma only_modify {R : Type} (f : Client -> Client) : only allowed (@modify W R f).
Proof. now apply only_nil. Qed.

Lemma only_ask {R A : Type} (f : W -> A) : only allowed (@ask W R A f).
Proof. now apply only_nil. Qed.

Lemma only_act {R A : Type} (f : W -> W * A) : only allowed (@act W R A f).
Proof. apply only_nil. intros s. unfold act. now destruct (f (world s)). Qed.

Lemma only_emit {R : Type} (ev : event) : allowed ev = true -> only allowed (@emit W R ev).
Proof. intros H s. exists [ev]. simpl. now rewrite H. Qed.

Lemma only_bind {R A B : Type} (m : M R A) (k : A -> @M W R B) :
  only allowed m -> (forall a, only allowed (k a)) -> only allowed (bind m k).
Proof.
  intros Hm Hk s. unfold bind. destruct (Hm s) as (evs & Htr & Hall).
  destruct (m s) as [s' [a | r | why]]; simpl in *; eauto.
  destruct (Hk a s') as (evs' & Htr' & Hall'). exists (evs ++ evs')%list. split.
  - now rewrite Htr', Htr, app_assoc.
  - rewrite forallb_app. now rewrite Hall, Hall'.
Qed.

Lemma only_when {R : Type} (b : bool) (m : @M W R unit) :
  only allowed m -> only allowed (when b m).
Proof. intros Hm. destruct b; simpl; [exact Hm | apply only_ret]. Qed.

Lemma only_call {R R' : Type} (p : @proc W R) :
  (forall s, exists evs, trace (fst (p s)) = (trace s ++ evs)%list
                         /\ forallb allowed evs = true) ->
  only allowed (@call W R R' p).
Proof.
  intros Hp s. unfold call. destruct (Hp s) as (evs & Htr & Hall).
  destruct (p s) as [s' [r | why]]; eauto.
Qed.

Lemma only_run {R : Type} (m : @M W R R) :
  only allowed m ->
  forall s, exists evs, trace (fst (run m s)) = (trace s ++ evs)%list
                        /\ forallb allowed evs = true.
Proof. intros Hm s. rewrite run_fst. apply Hm. Qed.

End Only.

(** **** The world *)

Lemma keepsWorld_bind {R A B : Type} (m : M R A) (k : A -> @M W R B) :
  keepsWorld m -> (forall a, keepsWorld (k a)) -> keepsWorld (bind m k).
Proof.
  intros Hm Hk s. unfold bind. specialize (Hm s).
  destruct (m s) as [s' [a | r | why]]; simpl in *; trivial.
  now rewrite Hk.
Qed.

Lemma keepsWorld_same {R A : Type} (m : @M W R A) :
  (forall s, world (fst (m s)) = world s) -> keepsWorld m.
Proof. trivial. Qed.

Lemma keepsWorld_when {R : Type} (b : bool) (m : @M W R unit) :
  keepsWorld m -> keepsWorld (when b m).
Proof. intros Hm. destruct b; simpl; [exact Hm | now intros s]. Qed.

(** **** Returns *)

Lemma exits_bind {R A B : Type} (Q : R -> Prop) (m : M R A) (k : A -> @M W R B) :
  exits Q m -> (forall a, exits Q (k a)) -> exits Q (bind m k).
Proof.
  intros Hm Hk s s' r H. apply bind_Return_inv in H as [H | (s1 & a & _ & H)].
  - eapply Hm, H.
  - eapply Hk, H.
Qed.

Lemma exits_returnWith {R A : Type} (Q : R -> Prop) (r : R) :
  Q r -> exits Q (@returnWith W R A r).
Proof. intros H s s' r' [= _ <-]. exact H. Qed.

Lemma exits_never {R A : Type} (Q : R -> Prop) (m : @M W R A) :
  (forall s s' r, m s <> (s', Return r)) -> exits Q m.
Proof. intros H s s' r Hm. now apply H in Hm. Qed.

Lemma exits_ret {R A : Type} (Q : R -> Prop) (a : A) : exits Q (@ret W R A a).
Proof. apply exits_never. discriminate. Qed.

Lemma exits_panic {R A : Type} (Q : R -> Prop) (why : string) : exits Q (@panic W R A why).
Proof. apply exits_never. discriminate. Qed.

Lemma exits_getClient {R : Type} (Q : R -> Prop) : exits Q (@getClient W R).
Proof. apply exits_never. discriminate. Qed.

Lemma exits_modify {R : Type} (Q : R -> Prop) (f : Client -> Client) :
  exits Q (@modify W R f).
Proof. apply exits_never. discriminate. Qed.

Lemma exits_emit {R : Type} (Q : R -> Prop) (ev : event) : exits Q (@emit W R ev).
Proof. apply exits_never. discriminate. Qed.

Lemma exits_ask {R A : Type} (Q : R -> Prop) (f : W -> A) : exits Q (@ask W R A f).
Proof. apply exits_never. discriminate. Qed.

Lemma exits_act {R A : Type} (Q : R -> Prop) (f : W -> W * A) : exits Q (@act W R A f).
Proof.
  apply exits_never. intros s s' r. unfold act. destruct (f (world s)). discriminate.
Qed.

Lemma exits_when {R : Type} (Q : R -> Prop) (b : bool) (m : @M W R unit) :
  exits Q m -> exits Q (when b m).
Proof. intros Hm. destruct b; simpl; [exact Hm | apply exits_ret]. Qed.

Lemma exits_call {R R' : Type} (Q : R' -> Prop) (p : @proc W R) :
  exits Q (@call W R R' p).
Proof.
  apply exits_never. intros s s' r. unfold call.
  destruct (p s) as [s1 [a | why]]; discriminate.
Qed.

End EffectLemmas.

(** Splits a statement to show that it appends only allowed events;
    the events themselves are checked by computation. *)
Ltac allowed_only :=
  repeat first
    [ apply only_ret
    | apply only_returnWith
    | apply only_panic
    | apply only_getClient
    | apply only_modify
    | apply only_ask
    | apply only_act
    | apply only_emit; reflexivity
    | apply only_when
    | apply only_bind; [| intros ?]
    | match goal with
      | |- only _ (match ?x with _ => _ end) => destruct x
      end ].

(** Splits a statement to show that it leaves the world as it is; a
    library call that may change the world is left over. *)
Ltac world_kept :=
  repeat first
    [ apply keepsWorld_bind; [| intros ?]
    | apply keepsWorld_when
    | match goal with
      | |- keepsWorld (match ?x with _ => _ end) => destruct x
      | |- keepsWorld (ret _) => apply keepsWorld_same; reflexivity
      | |- keepsWorld (returnWith _) => apply keepsWorld_same; reflexivity
      | |- keepsWorld (panic _) => apply keepsWorld_same; reflexivity
      | |- keepsWorld getClient => apply keepsWorld_same; reflexivity
      | |- keepsWorld (modify _) => apply keepsWorld_same; reflexivity
      | |- keepsWorld (emit _) => apply keepsWorld_same; reflexivity
      | |- keepsWorld (ask _) => apply keepsWorld_same; reflexivity
      end ].

(** Splits a statement to show what its returns return; the returns
    themselves are left over. *)
Ltac returns :=
  repeat first
    [ apply exits_ret
    | apply exits_panic
    | apply exits_getClient
    | apply exits_modify
    | apply exits_emit
    | apply exits_ask
    | apply exits_act
    | apply exits_call
    | apply exits_when
    | apply exits_bind; [| intros ?]
    | match goal with
      | |- exits _ (match ?x with _ => _ end) => destruct x
      end ].

(** *** The log printer *)

Section LogPrinterProperties.

Context {W A : Type}.
Variable Sprintf : string -> list A -> string.

(** X1. [Log] prints one line, the method in parentheses and the
    formatted message, when the method is GET, POST, PUT or DELETE and
    the bit of that method is set in the bitmask; in every other case,
    whatever the other bits are, it prints nothing. It changes neither
    the client nor the world. *)
Theorem Log_prints_by_method_bit :
  forall method msg i (s : @state W),
    Log Sprintf method msg i s
    = (if loggable (Logging (client s)) method
       then mkState (world s) (client s)
              (trace s ++ [EvLog ("(" ++ method ++ ") " ++ Sprintf msg i)])%list
       else s,
       Returned tt).
Proof.
  intros method msg i [w c tr].
  unfold Log, run, bind, getClient, logPrintf, emit, returnWith, ret, loggable, methodBits.
  cbn [existsb fst snd client world trace Logging].
  destruct (String.eqb_spec method "GET") as [-> | Hget].
  { cbn. destruct (hasFlag (Logging c) LogGet); reflexivity. }
  destruct (String.eqb_spec method "POST") as [-> | Hpost].
  { cbn. destruct (hasFlag (Logging c) LogPost); reflexivity. }
  destruct (String.eqb_spec method "PUT") as [-> | Hput].
  { cbn. destruct (hasFlag (Logging c) LogPut); reflexivity. }
  destruct (String.eqb_spec method "DELETE") as [-> | Hdelete].
  { cbn. destruct (hasFlag (Logging c) LogDelete); reflexivity. }
  reflexivity.
Qed.

End LogPrinterProperties.

(** *** The resolver, stage by stage *)

Lemma sameEndpoint_refl (c : Client) : sameEndpoint c c.
Proof. repeat split. Qed.

Lemma sameEndpoint_trans (a b c : Client) :
  sameEndpoint a b -> sameEndpoint b c -> sameEndpoint a c.
Proof. unfold sameEndpoint. intuition congruence. Qed.

Lemma sameAddress_refl (c : Client) : sameAddress c c.
Proof. repeat split. Qed.

Lemma sameAddress_trans (a b c : Client) :
  sameAddress a b -> sameAddress b c -> sameAddress a c.
Proof. unfold sameAddress. intuition congruence. Qed.

Lemma sameIdentity_refl (c : Client) : sameIdentity c c.
Proof. repeat split. Qed.

Lemma sameIdentity_trans (a b c : Client) :
  sameIdentity a b -> sameIdentity b c -> sameIdentity a c.
Proof. unfold sameIdentity. intuition congruence. Qed.

Lemma sameLogging_refl (c : Client) : sameLogging c c.
Proof. reflexivity. Qed.

Lemma sameLogging_trans (a b c : Client) :
  sameLogging a b -> sameLogging b c -> sameLogging a c.
Proof. unfold sameLogging. congruence. Qed.

(** Every flag of the switch is a non-zero bit. *)
Lemma logFlag_nonzero (x : string) (flag : Z) : logFlag x = Some flag -> flag <> 0.
Proof.
  unfold logFlag.
  repeat match goal with
         | |- context [String.eqb x ?name] => destruct (String.eqb x name)
         end; intros [= <-]; discriminate.
Qed.

Lemma parseLogging_nonzero (ll : list string) :
  forall lv lv',
    parseLogging ll lv = inl lv' -> lv <> 0 \/ ll <> [] -> lv' <> 0.
Proof.
  induction ll as [| x rest IH]; intros lv lv'; simpl.
  - intros [= <-] [H | H]; [exact H | congruence].
  - destruct (logFlag x) as [flag |] eqn:Hflag; [| discriminate].
    intros Hparse _. apply (IH _ _ Hparse). left.
    rewrite Z.lor_eq_0_iff. intros [_ Hzero]. now apply (logFlag_nonzero x flag).
Qed.

Section ResolverStages.

Context {W I O : Type}.
Variable X : @Externals W I O.

Lemma resolveProtocol_Next jc s s' :
  resolveProtocol X jc s = (s', Next tt) -> validProtocol (Protocol (client s')).
Proof.
  unfold resolveProtocol. intros H.
  apply bind_Next_inv in H as (s1 & c & _ & H).
  apply bind_Next_inv in H as (s2 & [] & _ & H).
  rewrite bind_getClient in H.
  destruct (String.eqb_spec (Protocol (client s2)) "http") as [Hhttp | _];
    destruct (String.eqb_spec (Protocol (client s2)) "https") as [Hhttps | _];
    simpl in H; try discriminate; injection H as <-; unfold validProtocol; auto.
Qed.

Lemma resolveTimeout_Next jc s s' tout :
  resolveTimeout X jc s = (s', Next tout) ->
  0 < Timeout (client s') /\ tout = wrap64 (Timeout (client s') * Second).
Proof.
  unfold resolveTimeout. intros H.
  apply bind_Next_inv in H as (s1 & c & _ & H).
  apply bind_Next_inv in H as (s2 & [] & _ & H).
  rewrite bind_getClient in H.
  destruct (Z.leb_spec (Timeout (client s2)) 0); [discriminate |].
  injection H as <- <-. auto.
Qed.

Lemma resolveLogging_Next jc s s' :
  resolveLogging X jc s = (s', Next tt) -> Logging (client s') <> 0.
Proof.
  unfold resolveLogging. rewrite bind_getClient.
  destruct (Z.eqb_spec (Logging (client s)) 0) as [Hzero | Hset].
  - intros H. apply bind_Next_inv in H as (s1 & ll & _ & H).
    destruct (0 <? length ll)%nat eqn:Hlen.
    + destruct (parseLogging ll 0) as [lv | x] eqn:Hparse; [| discriminate].
      injection H as <-. simpl.
      apply (parseLogging_nonzero ll 0 lv Hparse). right.
      destruct ll; [discriminate | congruence].
    + injection H as <-. simpl. discriminate.
  - intros [= <-]. exact Hset.
Qed.

Lemma setupClient_Next tout (s s' : @state W) :
  @setupClient W O tout s = (s', Next tt) ->
  exists tr,
    Transport (client s') = Some tr
    /\ con (client s') = Some (mkHttpClient tr tout)
    /\ tr = default (mkTransport true (SkipVerifyCertificate (client s))) (Transport (client s))
    /\ sameEndpoint (client s) (client s')
    /\ sameLogging (client s) (client s')
    /\ SkipVerifyCertificate (client s') = SkipVerifyCertificate (client s)
    /\ apiPrefix (client s') = apiPrefix (client s).
Proof.
  destruct s as [w c tr0].
  unfold setupClient, bind, getClient, modify, ret, panic. simpl.
  destruct (Transport c) as [t |] eqn:Ht; simpl; [rewrite Ht |];
    intros [= <-]; simpl; eexists; repeat split; eauto.
Qed.

Lemma finishCon_Next (s s' : @state W) :
  @finishCon W O s = (s', Next tt) ->
  Region (client s) <> "" /\ Host (client s) <> ""
  /\ s' = mkState (world s)
            (setApiPrefix (Protocol (client s) ++ "://" ++ Host (client s)) (client s))
            (trace s).
Proof.
  unfold finishCon. rewrite bind_getClient. unfold isEmpty, modify, returnWith.
  destruct (String.eqb_spec (Region (client s)) "") as [| Hregion]; [discriminate |].
  destruct (String.eqb_spec (Host (client s)) "") as [| Hhost]; [discriminate |].
  intros [= <-]. auto.
Qed.

Lemma finishCon_Return (s s' : @state W) r :
  @finishCon W O s = (s', Return r) ->
  s' = s
  /\ (r = Some ErrNoRegion /\ Region (client s) = ""
      \/ r = Some ErrNoHost /\ Region (client s) <> "" /\ Host (client s) = "").
Proof.
  unfold finishCon. rewrite bind_getClient. unfold isEmpty, modify, returnWith.
  destruct (String.eqb_spec (Region (client s)) "") as [Hregion | Hregion].
  { intros [= <- <-]. auto. }
  destruct (String.eqb_spec (Host (client s)) "") as [Hhost | Hhost].
  { intros [= <- <-]. auto. }
  discriminate.
Qed.

(** The blocks after the protocol leave protocol, host and region. *)
Lemma resolveTimeout_address jc : respects sameAddress (resolveTimeout X jc).
Proof.
  unfold resolveTimeout, getenv, deref. frame sameAddress_refl sameAddress_trans.
  all: apply (respects_modify sameAddress); intros ?; repeat split.
Qed.

Lemma resolveHeaders_endpoint jc : respects sameEndpoint (resolveHeaders X jc).
Proof.
  unfold resolveHeaders, getenv, deref. frame sameEndpoint_refl sameEndpoint_trans.
  all: apply (respects_modify sameEndpoint); intros ?; repeat split.
Qed.

Lemma resolveVerify_endpoint jc : respects sameEndpoint (resolveVerify X jc).
Proof.
  unfold resolveVerify, getenv, deref. frame sameEndpoint_refl sameEndpoint_trans.
  all: apply (respects_modify sameEndpoint); intros ?; repeat split.
Qed.

Lemma resolveLogging_endpoint jc : respects sameEndpoint (resolveLogging X jc).
Proof.
  unfold resolveLogging, loggingTokens, getenv, deref.
  frame sameEndpoint_refl sameEndpoint_trans.
  all: apply (respects_modify sameEndpoint); intros ?; repeat split.
Qed.

(** None of the blocks returns nil, and only the last one returns an
    error of the sanity checks. *)
Lemma beforeLogging_exits (Q : option (error O) -> Prop) :
  (forall e, e <> ErrNoRegion -> e <> ErrNoHost -> Q (Some e)) ->
  exits Q (beforeLogging X).
Proof.
  intros HQ.
  unfold beforeLogging, loadJson, resolveHost, resolveRegion, resolveProtocol, resolveTimeout,
    resolveHeaders, resolveVerify, getenv, deref.
  returns. all: apply exits_returnWith; apply HQ; discriminate.
Qed.

Lemma resolveLogging_exits (Q : option (error O) -> Prop) jc :
  (forall e, e <> ErrNoRegion -> e <> ErrNoHost -> Q (Some e)) ->
  exits Q (resolveLogging X jc).
Proof.
  intros HQ. unfold resolveLogging, loggingTokens, getenv, deref.
  returns. all: apply exits_returnWith; apply HQ; discriminate.
Qed.

Lemma setupClient_exits (Q : option (error O) -> Prop) tout :
  exits Q (@setupClient W O tout).
Proof. unfold setupClient. returns. Qed.

End ResolverStages.

Section ResolverProperties.

Context {W I O : Type}.
Variable X : @Externals W I O.

(** The blocks a run of [beforeLogging] went through when it fell
    through to the logging block. *)
Lemma beforeLogging_Next s s' loaded :
  beforeLogging X s = (s', Next loaded) ->
  exists s0 s1 s2 s3 s4 s5,
    loadJson X s = (s0, Next (fst loaded))
    /\ resolveHost X (fst loaded) s0 = (s1, Next tt)
    /\ resolveRegion X (fst loaded) s1 = (s2, Next tt)
    /\ resolveProtocol X (fst loaded) s2 = (s3, Next tt)
    /\ resolveTimeout X (fst loaded) s3 = (s4, Next (snd loaded))
    /\ resolveHeaders X (fst loaded) s4 = (s5, Next tt)
    /\ resolveVerify X (fst loaded) s5 = (s', Next tt).
Proof.
  unfold beforeLogging. intros H.
  apply bind_Next_inv in H as (s0 & jc & H0 & H).
  apply bind_Next_inv in H as (s1 & [] & H1 & H).
  apply bind_Next_inv in H as (s2 & [] & H2 & H).
  apply bind_Next_inv in H as (s3 & [] & H3 & H).
  apply bind_Next_inv in H as (s4 & tout & H4 & H).
  apply bind_Next_inv in H as (s5 & [] & H5 & H).
  apply bind_Next_inv in H as (s6 & [] & H6 & H).
  injection H as <- <-. simpl. exists s0, s1, s2, s3, s4, s5. auto 10.
Qed.

(** A run of [initCon] that returns nil or an error of the sanity
    checks went through every block up to the sanity checks. *)
Lemma initCon_through s s' r :
  initCon X s = (s', Returned r) ->
  r = None \/ r = Some ErrNoRegion \/ r = Some ErrNoHost ->
  exists s1 s2 s3 loaded,
    beforeLogging X s = (s1, Next loaded)
    /\ resolveLogging X (fst loaded) s1 = (s2, Next tt)
    /\ @setupClient W O (snd loaded) s2 = (s3, Next tt)
    /\ (@finishCon W O s3 = (s', Next tt) /\ r = None
        \/ @finishCon W O s3 = (s', Return r)).
Proof.
  intros Hrun Hr.
  pose (Q := fun r : option (error O) =>
               r <> None /\ r <> Some ErrNoRegion /\ r <> Some ErrNoHost).
  assert (HQ : forall e : error O, e <> ErrNoRegion -> e <> ErrNoHost -> Q (Some e)).
  { intros e H1 H2. unfold Q. repeat split; congruence. }
  assert (Hno : Q r -> False). { unfold Q. intuition. }
  unfold initCon in Hrun. apply run_Returned in Hrun as [Hrun | Hrun].
  - apply bind_Next_inv in Hrun as (s1 & loaded & H1 & Hrun).
    apply bind_Next_inv in Hrun as (s2 & [] & H2 & Hrun).
    apply bind_Next_inv in Hrun as (s3 & [] & H3 & Hrun).
    apply bind_Next_inv in Hrun as (s4 & [] & H4 & Hrun).
    injection Hrun as <- <-. exists s1, s2, s3, loaded. auto 10.
  - apply bind_Return_inv in Hrun as [Hrun | (s1 & loaded & H1 & Hrun)].
    { exfalso. apply Hno. exact (beforeLogging_exits X Q HQ _ _ _ Hrun). }
    apply bind_Return_inv in Hrun as [Hrun | (s2 & [] & H2 & Hrun)].
    { exfalso. apply Hno. exact (resolveLogging_exits X Q _ HQ _ _ _ Hrun). }
    apply bind_Return_inv in Hrun as [Hrun | (s3 & [] & H3 & Hrun)].
    { exfalso. apply Hno. exact (setupClient_exits Q _ _ _ _ Hrun). }
    apply bind_Return_inv in Hrun as [Hrun | (s4 & [] & H4 & Hrun)].
    + exists s1, s2, s3, loaded. auto 10.
    + discriminate.
Qed.

Lemma initCon_configured s s' :
  initCon X s = (s', Returned None) -> configured (client s').
Proof.
  intros Hrun.
  destruct (initCon_through s s' None Hrun) as (s1 & s2 & s3 & loaded & Hbefore & Hlog
                                                 & Hsetup & Hfinish); [auto |].
  destruct Hfinish as [[Hfinish _] | Hfinish];
    [| apply finishCon_Return in Hfinish as (_ & [[? _] | [? _]]); discriminate].
  apply beforeLogging_Next in Hbefore as (t0 & t1 & t2 & t3 & t4 & t5 & _ & _ & _
                                          & Hproto & Htimeout & Hheaders & Hverify).
  apply resolveProtocol_Next in Hproto.
  pose proof (resolveTimeout_address X (fst loaded) t3) as Haddr.
  rewrite Htimeout in Haddr. simpl in Haddr. destruct Haddr as (Hp4 & _ & _).
  apply resolveTimeout_Next in Htimeout as (Hpos & Htout).
  pose proof (resolveHeaders_endpoint X (fst loaded) t4) as E5.
  rewrite Hheaders in E5. simpl in E5. destruct E5 as (Hp5 & Ht5 & _ & _).
  pose proof (resolveVerify_endpoint X (fst loaded) t5) as E6.
  rewrite Hverify in E6. simpl in E6. destruct E6 as (Hp6 & Ht6 & _ & _).
  pose proof (resolveLogging_endpoint X (fst loaded) s1) as E7.
  rewrite Hlog in E7. simpl in E7. destruct E7 as (Hp7 & Ht7 & _ & _).
  apply resolveLogging_Next in Hlog.
  apply setupClient_Next in Hsetup as (tr & Htr & Hcon & _ & (Hp8 & Ht8 & _ & _) & Hl8 & _).
  apply finishCon_Next in Hfinish as (Hregion & Hhost & ->). simpl.
  assert (Hprotocol : Protocol (client s3) = Protocol (client t3)) by congruence.
  assert (Htime : Timeout (client s3) = Timeout (client t4)) by congruence.
  unfold configured. simpl. rewrite Hprotocol, Htime.
  repeat split; trivial.
  - exists tr. split; [exact Htr |]. now rewrite Hcon, Htout.
  - unfold sameLogging in Hl8. now rewrite Hl8.
Qed.

(** X2. When [initCon] returns nil the client is configured: the
    protocol is http or https, the timeout is positive, host and region
    are not empty, the base URI is protocol://host, a transport is in
    place and the HTTP client is built from it with the timeout in
    nanoseconds, and the logging bitmask is not zero. *)
Theorem initCon_success_is_configured :
  forall s s',
    initCon X s = (s', Returned None) ->
    validProtocol (Protocol (client s'))
    /\ 0 < Timeout (client s')
    /\ Host (client s') <> ""
    /\ Region (client s') <> ""
    /\ apiPrefix (client s') = Protocol (client s') ++ "://" ++ Host (client s')
    /\ (exists tr, Transport (client s') = Some tr
                   /\ con (client s')
                      = Some (mkHttpClient tr (wrap64 (Timeout (client s') * Second))))
    /\ Logging (client s') <> 0.
Proof.
  intros s s' Hrun.
  destruct (initCon_through s s' None Hrun) as (s1 & s2 & s3 & loaded & Hbefore & Hlog
                                                 & Hsetup & Hfinish); [auto |].
  destruct Hfinish as [[Hfinish _] | Hfinish];
    [| apply finishCon_Return in Hfinish as (_ & [[? _] | [? _]]); discriminate].
  apply beforeLogging_Next in Hbefore as (t0 & t1 & t2 & t3 & t4 & t5 & _ & _ & _
                                          & Hproto & Htimeout & Hheaders & Hverify).
  apply resolveProtocol_Next in Hproto.
  pose proof (resolveTimeout_address X (fst loaded) t3) as Haddr.
  rewrite Htimeout in Haddr. simpl in Haddr. destruct Haddr as (Hp4 & _ & _).
  apply resolveTimeout_Next in Htimeout as (Hpos & Htout).
  pose proof (resolveHeaders_endpoint X (fst loaded) t4) as E5.
  rewrite Hheaders in E5. simpl in E5. destruct E5 as (Hp5 & Ht5 & _ & _).
  pose proof (resolveVerify_endpoint X (fst loaded) t5) as E6.
  rewrite Hverify in E6. simpl in E6. destruct E6 as (Hp6 & Ht6 & _ & _).
  pose proof (resolveLogging_endpoint X (fst loaded) s1) as E7.
  rewrite Hlog in E7. simpl in E7. destruct E7 as (Hp7 & Ht7 & _ & _).
  apply resolveLogging_Next in Hlog.
  apply setupClient_Next in Hsetup as (tr & Htr & Hcon & _ & (Hp8 & Ht8 & _ & _) & Hl8 & _).
  apply finishCon_Next in Hfinish as (Hregion & Hhost & ->). simpl.
  assert (Hprotocol : Protocol (client s3) = Protocol (client t3)) by congruence.
  assert (Htime : Timeout (client s3) = Timeout (client t4)) by congruence.
  simpl. rewrite Hprotocol, Htime.
  repeat split; trivial.
  - exists tr. split; [exact Htr |]. now rewrite Hcon, Htout.
  - unfold sameLogging in Hl8. now rewrite Hl8.
Qed.

Lemma initCon_body_respects (P : Client -> Client -> Prop) :
  (forall c, P c c) ->
  (forall a b c, P a b -> P b c -> P a c) ->
  (forall v c, P c (setHost v c)) ->
  (forall v c, P c (setRegion v c)) ->
  (forall v c, P c (setProtocol v c)) ->
  (forall v c, P c (setTimeout v c)) ->
  (forall v c, P c (setHeaders v c)) ->
  (forall c, SkipVerifyCertificate c = false -> P c (setSkipVerifyCertificate true c)) ->
  (forall v c, P c (setLogging v c)) ->
  (forall v c, Transport c = None -> P c (setTransport (Some v) c)) ->
  (forall v c, P c (setCon v c)) ->
  (forall v c, P c (setApiPrefix v c)) ->
  forall s, P (client s) (client (fst (initCon X s))).
Proof.
  intros Hrefl Htrans Hhost Hregion Hproto Htimeout Hheaders Hskip Hlogging Htransport Hcon
    Hprefix.
  assert (Hverify : forall jc, respects P (resolveVerify X jc)).
  { intros jc [w c tr].
    unfold resolveVerify, bind, getClient, getenv, ask, deref, modify, ret, panic, returnWith.
    simpl. branches; try apply Hrefl.
    all: match goal with
         | H : negb (SkipVerifyCertificate _) = true |- _ =>
             apply negb_true_iff in H; apply Hskip; exact H
         end. }
  assert (Hsetup : forall tout, respects P (@setupClient W O tout)).
  { intros tout [w c tr].
    unfold setupClient, bind, getClient, modify, ret, panic. simpl.
    destruct (Transport c) as [t |] eqn:Ht; simpl; [rewrite Ht; simpl; apply Hcon |].
    eapply Htrans; [apply Htransport; exact Ht | apply Hcon]. }
  unfold initCon. apply (respects_run P). unfold beforeLogging.
  sequence Htrans; auto.
  all: try (apply respects_ret; exact Hrefl).
  all: unfold loadJson, resolveHost, resolveRegion, resolveProtocol, resolveTimeout,
         resolveHeaders, resolveLogging, loggingTokens, finishCon, getenv, deref;
       frame Hrefl Htrans.
  all: apply respects_modify; auto.
Qed.

Lemma sameWiring_refl (c : Client) : sameWiring c c.
Proof. repeat split. Qed.

Lemma sameWiring_trans (a b c : Client) :
  sameWiring a b -> sameWiring b c -> sameWiring a c.
Proof. unfold sameWiring. intuition congruence. Qed.

Lemma beforeLogging_wiring : respects sameWiring (beforeLogging X).
Proof.
  unfold beforeLogging, loadJson, resolveHost, resolveRegion, resolveProtocol, resolveTimeout,
    resolveHeaders, resolveVerify, getenv, deref.
  frame sameWiring_refl sameWiring_trans.
  all: apply (respects_modify sameWiring); intros ?; repeat split.
Qed.

Lemma resolveLogging_wiring jc : respects sameWiring (resolveLogging X jc).
Proof.
  unfold resolveLogging, loggingTokens, getenv, deref.
  frame sameWiring_refl sameWiring_trans.
  all: apply (respects_modify sameWiring); intros ?; repeat split.
Qed.

(** X3. When [initCon] returns nil, the transport of the client is the
    one the caller supplied, if there was one, whatever
    [SkipVerifyCertificate] resolved to; otherwise it is a new transport
    that takes its proxy from the environment and skips certificate
    verification exactly when the resolved flag says so. The HTTP
    client uses that transport. *)
Theorem initCon_transport_override :
  forall s s',
    initCon X s = (s', Returned None) ->
    exists tr,
      Transport (client s') = Some tr
      /\ option_map ClientTransport (con (client s')) = Some tr
      /\ tr = default (mkTransport true (SkipVerifyCertificate (client s')))
                (Transport (client s)).
Proof.
  intros s s' Hrun.
  destruct (initCon_through s s' None Hrun) as (s1 & s2 & s3 & loaded & Hbefore & Hlog
                                                 & Hsetup & Hfinish); [auto |].
  destruct Hfinish as [[Hfinish _] | Hfinish];
    [| apply finishCon_Return in Hfinish as (_ & [[? _] | [? _]]); discriminate].
  pose proof (beforeLogging_wiring s) as W1. rewrite Hbefore in W1. destruct W1 as (T1 & _).
  pose proof (resolveLogging_wiring (fst loaded) s1) as W2. rewrite Hlog in W2.
  destruct W2 as (T2 & _). simpl in T1, T2.
  apply setupClient_Next in Hsetup as (tr & Htr & Hcon & Hdef & _ & _ & Hskip & _).
  apply finishCon_Next in Hfinish as (_ & _ & ->). simpl.
  exists tr. rewrite Htr, Hcon. repeat split. rewrite Hdef, Hskip. congruence.
Qed.

(** X4. [initCon] never switches certificate verification back on: a
    client that has [SkipVerifyCertificate] set keeps it, whatever the
    environment and the credentials file say and however [initCon]
    ends. *)
Theorem initCon_skip_verify_stays :
  forall s,
    SkipVerifyCertificate (client s) = true ->
    SkipVerifyCertificate (client (fst (initCon X s))) = true.
Proof.
  intros s.
  apply (initCon_body_respects
           (fun c c' => SkipVerifyCertificate c = true -> SkipVerifyCertificate c' = true));
    auto.
Qed.

Lemma loadJson_trace s :
  trace (fst (loadJson X s)) = (trace s ++ fileEvents (client s))%list
  /\ world (fst (loadJson X s)) = world s.
Proof.
  destruct s as [w c tr].
  unfold loadJson, fileEvents, bind, getClient, emit, ask, ret, returnWith. simpl.
  destruct (isEmpty (credsFile c)); simpl; [now rewrite app_nil_r |].
  destruct (length (testData c) =? 0)%nat; simpl.
  - destruct (ReadFile X w (credsFile c)) as [b | msg]; simpl; [| auto].
    destruct (Unmarshal (decodeClient X) b (Some zeroClient)) as [jc [why |]]; simpl; auto.
  - destruct (Unmarshal (decodeClient X) (authFileContent c) (Some zeroClient))
      as [jc [why |]]; simpl; now rewrite app_nil_r.
Qed.

Lemma only_noEvent_trace {R A : Type} (m : @M W R A) s :
  only noEvent m -> trace (fst (m s)) = trace s.
Proof.
  intros Hm. destruct (Hm s) as (evs & -> & Hall).
  destruct evs as [| ev rest]; [apply app_nil_r | discriminate].
Qed.

Lemma initCon_outside s :
  world (fst (initCon X s)) = world s
  /\ trace (fst (initCon X s)) = (trace s ++ fileEvents (client s))%list.
Proof.
  split.
  - unfold initCon. rewrite run_fst. revert s.
    change (keepsWorld (bind (beforeLogging X)
                          (fun loaded =>
                             bind (resolveLogging X (fst loaded))
                               (fun _ => bind (@setupClient W O (snd loaded))
                                           (fun _ => bind (@finishCon W O)
                                                       (fun _ => ret (@None (error O)))))))).
    unfold beforeLogging, loadJson, resolveHost, resolveRegion, resolveProtocol,
      resolveTimeout, resolveHeaders, resolveVerify, resolveLogging, loggingTokens,
      setupClient, finishCon, getenv, deref.
    world_kept.
  - unfold initCon, beforeLogging. rewrite run_fst.
    destruct (loadJson_trace s) as (Htrace & _).
    destruct (loadJson X s) as [s0 [jc | r | why]] eqn:Hload; simpl in Htrace.
    + rewrite (bind_bind_Next _ _ _ _ _ _ Hload). rewrite <- Htrace.
      apply only_noEvent_trace.
      unfold resolveHost, resolveRegion, resolveProtocol, resolveTimeout, resolveHeaders,
        resolveVerify, resolveLogging, loggingTokens, setupClient, finishCon, getenv, deref.
      allowed_only.
    + unfold bind. rewrite Hload. exact Htrace.
    + unfold bind. rewrite Hload. exact Htrace.
Qed.

(** X5. [initCon] touches nothing but the configuration: the keys,
    the three role identifiers, both tokens, the environment switch,
    the file path and the testing fields are as before, the world is
    unchanged, and the only thing it does outside is to read the
    credentials file, once, when there is one and the client is not in
    testing mode. This holds however it ends. *)
Theorem initCon_touches_only_configuration :
  forall s,
    sameIdentity (client s) (client (fst (initCon X s)))
    /\ world (fst (initCon X s)) = world s
    /\ trace (fst (initCon X s)) = (trace s ++ fileEvents (client s))%list.
Proof.
  intros s. split; [| exact (initCon_outside s)].
  apply (initCon_body_respects sameIdentity sameIdentity_refl sameIdentity_trans);
    intros; repeat split.
Qed.

(** With a credentials file that loaded to an object, or none, the
    host and region blocks fall through, and leave everything but host
    and region. *)
Lemma resolveHost_Some j s :
  exists s1,
    resolveHost X (Some j) s = (s1, Next tt)
    /\ world s1 = world s /\ trace s1 = trace s
    /\ Protocol (client s1) = Protocol (client s)
    /\ Timeout (client s1) = Timeout (client s)
    /\ CheckEnvironment (client s1) = CheckEnvironment (client s)
    /\ sameWiring (client s) (client s1).
Proof.
  destruct s as [w c tr].
  unfold resolveHost, bind, getClient, getenv, ask, deref, modify, ret. simpl.
  branches; eexists; (split; [reflexivity |]); repeat split.
Qed.

Lemma resolveRegion_Some j s :
  exists s1,
    resolveRegion X (Some j) s = (s1, Next tt)
    /\ world s1 = world s /\ trace s1 = trace s
    /\ Protocol (client s1) = Protocol (client s)
    /\ Timeout (client s1) = Timeout (client s)
    /\ CheckEnvironment (client s1) = CheckEnvironment (client s)
    /\ sameWiring (client s) (client s1).
Proof.
  destruct s as [w c tr].
  unfold resolveRegion, bind, getClient, getenv, ask, deref, modify, ret. simpl.
  branches; eexists; (split; [reflexivity |]); repeat split.
Qed.

Lemma loadJson_Next s s0 jc :
  loadJson X s = (s0, Next jc) ->
  client s0 = client s /\ world s0 = world s
  /\ trace s0 = (trace s ++ fileEvents (client s))%list.
Proof.
  intros H. destruct (loadJson_trace s) as (Htrace & Hworld).
  assert (Hclient : respects eq (loadJson X)).
  { unfold loadJson. frame (@eq_refl Client) (@eq_trans Client). }
  specialize (Hclient s). rewrite H in *. simpl in *. auto.
Qed.

(** The run of [initCon] up to the protocol block. *)
Lemma initCon_to_protocol s s0 j :
  loadJson X s = (s0, Next (Some j)) ->
  exists s2,
    initCon X s
    = run (bind (bind (resolveProtocol X (Some j))
                   (fun _ =>
                      bind (resolveTimeout X (Some j))
                        (fun tout =>
                           bind (resolveHeaders X (Some j))
                             (fun _ =>
                                bind (resolveVerify X (Some j))
                                  (fun _ => ret (Some j, tout))))))
             (fun loaded =>
                bind (resolveLogging X (fst loaded))
                  (fun _ =>
                     bind (@setupClient W O (snd loaded))
                       (fun _ => bind (@finishCon W O) (fun _ => ret None))))) s2
    /\ world s2 = world s
    /\ trace s2 = (trace s ++ fileEvents (client s))%list
    /\ Protocol (client s2) = Protocol (client s)
    /\ Timeout (client s2) = Timeout (client s)
    /\ CheckEnvironment (client s2) = CheckEnvironment (client s)
    /\ sameWiring (client s) (client s2).
Proof.
  intros Hload. destruct (loadJson_Next _ _ _ Hload) as (Hc0 & Hw0 & Ht0).
  destruct (resolveHost_Some j s0) as (s1 & H1 & Hw1 & Ht1 & Hp1 & Hto1 & He1 & Hwi1).
  destruct (resolveRegion_Some j s1) as (s2 & H2 & Hw2 & Ht2 & Hp2 & Hto2 & He2 & Hwi2).
  exists s2. split.
  - unfold initCon, beforeLogging, run.
    rewrite (bind_bind_Next _ _ _ _ _ _ Hload).
    rewrite (bind_bind_Next _ _ _ _ _ _ H1).
    now rewrite (bind_bind_Next _ _ _ _ _ _ H2).
  - rewrite <- Hc0. repeat split; try congruence.
    all: destruct Hwi1 as (? & ? & ?), Hwi2 as (? & ? & ?); congruence.
Qed.

Lemma resolveProtocol_explicit jc s :
  Protocol (client s) <> "" ->
  resolveProtocol X jc s
  = (s, if negb (String.eqb (Protocol (client s)) "http")
           && negb (String.eqb (Protocol (client s)) "https")
        then Return (Some (ErrInvalidProtocol (Protocol (client s))))
        else Next tt).
Proof.
  intros Hset. apply isEmpty_false in Hset.
  unfold resolveProtocol. rewrite bind_getClient, Hset.
  unfold bind, ret, getClient, returnWith.
  now destruct (negb (String.eqb (Protocol (client s)) "http")
                && negb (String.eqb (Protocol (client s)) "https")).
Qed.

Lemma validProtocol_test (p : string) :
  negb (String.eqb p "http") && negb (String.eqb p "https") = false <-> validProtocol p.
Proof.
  unfold validProtocol.
  destruct (String.eqb_spec p "http"), (String.eqb_spec p "https"); simpl;
    intuition congruence.
Qed.

Lemma validProtocol_set (p : string) : validProtocol p -> p <> "".
Proof. intros [-> | ->]; discriminate. Qed.

(** X6. When the credentials file, if there is one, loaded to an
    object, a protocol set on the struct that is neither http nor https
    makes [initCon] return the invalid-protocol error with that value,
    an [InvalidConfiguration], before timeout, headers and logging are
    looked at: transport, HTTP client and base URI are as they were. *)
Theorem initCon_rejects_other_protocols :
  forall s s0 j,
    loadJson X s = (s0, Next (Some j)) ->
    Protocol (client s) <> "" ->
    ~ validProtocol (Protocol (client s)) ->
    exists s',
      initCon X s = (s', Returned (Some (ErrInvalidProtocol (Protocol (client s)))))
      /\ kindOf (@ErrInvalidProtocol O (Protocol (client s))) = InvalidConfiguration
      /\ sameWiring (client s) (client s')
      /\ Timeout (client s') = Timeout (client s).
Proof.
  intros s s0 j Hload Hset Hbad.
  destruct (initCon_to_protocol s s0 j Hload)
    as (s2 & -> & _ & _ & Hproto & Htimeout & _ & Hwiring).
  exists s2. repeat split; try apply Hwiring; trivial.
  rewrite <- Hproto in *. unfold run.
  assert (Htest : negb (String.eqb (Protocol (client s2)) "http")
                  && negb (String.eqb (Protocol (client s2)) "https") = true).
  { destruct (negb _ && negb _) eqn:Htest; [reflexivity |].
    now apply validProtocol_test in Htest. }
  assert (Hblock := resolveProtocol_explicit (Some j) s2 Hset). rewrite Htest in Hblock.
  rewrite (bind_Return _ _ _ _ _ (bind_Return _ _ _ _ _ Hblock)). reflexivity.
Qed.

(** The timeout block on a non-zero timeout. *)
Lemma resolveTimeout_explicit jc s :
  Timeout (client s) <> 0 ->
  resolveTimeout X jc s
  = (s, if Timeout (client s) <=? 0
        then Return (Some (ErrTimeoutNotPositive (Host (client s))))
        else Next (wrap64 (Timeout (client s) * Second))).
Proof.
  intros Hset. apply Z.eqb_neq in Hset.
  unfold resolveTimeout. rewrite bind_getClient, Hset.
  unfold bind, ret, getClient, returnWith.
  now destruct (Timeout (client s) <=? 0).
Qed.


(** The protocol block when what it settles on is valid: it falls
    through and leaves everything but the protocol. *)
Lemma resolveProtocol_settled j s :
  validProtocol (settledProtocol X s j) ->
  exists s3,
    resolveProtocol X (Some j) s = (s3, Next tt)
    /\ world s3 = world s /\ trace s3 = trace s
    /\ Protocol (client s3) = settledProtocol X s j
    /\ Timeout (client s3) = Timeout (client s)
    /\ CheckEnvironment (client s3) = CheckEnvironment (client s)
    /\ sameWiring (client s) (client s3).
Proof.
  destruct s as [w c tr]. unfold settledProtocol. cbn [client world].
  intros Hvalid. apply validProtocol_test in Hvalid.
  unfold resolveProtocol, bind, getClient, getenv, ask, deref, modify, ret, returnWith.
  simpl.
  destruct (isEmpty (Protocol c)); simpl in *;
    [destruct (CheckEnvironment c && negb (isEmpty (Getenv X w "CLOUD_NGFW_PROTOCOL")));
     simpl in *; [| destruct (isEmpty (Protocol j)); simpl in *] |];
    try rewrite Hvalid; eexists; (split; [reflexivity |]); repeat split.
Qed.

(** X7. When the credentials file, if there is one, loaded to an
    object and the protocol that [initCon] settles on is http or
    https, a negative timeout on the struct is not replaced by the
    environment, the file or the default: [initCon] returns the
    not-positive error, an [InvalidConfiguration] that names the
    resolved host, with the timeout as it was and transport, HTTP
    client and base URI not set up. *)
Theorem initCon_rejects_negative_timeout :
  forall s s0 j,
    loadJson X s = (s0, Next (Some j)) ->
    validProtocol (settledProtocol X s j) ->
    Timeout (client s) < 0 ->
    exists s',
      initCon X s = (s', Returned (Some (ErrTimeoutNotPositive (Host (client s')))))
      /\ kindOf (@ErrTimeoutNotPositive O (Host (client s'))) = InvalidConfiguration
      /\ Timeout (client s') = Timeout (client s)
      /\ sameWiring (client s) (client s').
Proof.
  intros s s0 j Hload Hvalid Hneg.
  destruct (initCon_to_protocol s s0 j Hload)
    as (s2 & -> & Hworld & _ & Hproto & Htimeout & Hcheck & Hwiring).
  assert (Hsettled : settledProtocol X s2 j = settledProtocol X s j).
  { unfold settledProtocol. now rewrite Hproto, Hworld, Hcheck. }
  rewrite <- Hsettled in Hvalid.
  destruct (resolveProtocol_settled j s2 Hvalid)
    as (s3 & Hp & _ & _ & _ & Htimeout3 & _ & Hwiring3).
  exists s3. unfold run. rewrite (bind_bind_Next _ _ _ _ _ _ Hp).
  assert (Ht := resolveTimeout_explicit (Some j) s3 ltac:(lia)).
  replace (Timeout (client s3) <=? 0) with true in Ht by (symmetry; apply Z.leb_le; lia).
  rewrite (bind_Return _ _ _ _ _ (bind_Return _ _ _ _ _ Ht)).
  split; [reflexivity | split; [reflexivity | split; [congruence |]]].
  exact (sameWiring_trans _ _ _ Hwiring Hwiring3).
Qed.


(** X9. The sanity checks come last. When [initCon] returns the
    no-region error the region is empty; when it returns the no-host
    error the host is empty and the region is not. In both cases the
    protocol and the timeout have passed their checks and the HTTP
    client has been built, but the base URI is as it was before the
    call. Both are [MissingConfiguration] errors. *)
Theorem initCon_sanity_errors_come_last :
  forall s s' (e : error O),
    initCon X s = (s', Returned (Some e)) ->
    e = ErrNoRegion \/ e = ErrNoHost ->
    (e = ErrNoRegion -> Region (client s') = "")
    /\ (e = ErrNoHost -> Host (client s') = "" /\ Region (client s') <> "")
    /\ kindOf e = MissingConfiguration
    /\ validProtocol (Protocol (client s'))
    /\ 0 < Timeout (client s')
    /\ con (client s') <> None
    /\ apiPrefix (client s') = apiPrefix (client s).
Proof.
  intros s s' e Hrun He.
  destruct (initCon_through s s' (Some e) Hrun) as (s1 & s2 & s3 & loaded & Hbefore & Hlog
                                                     & Hsetup & Hfinish).
  { destruct He as [-> | ->]; auto. }
  destruct Hfinish as [[_ ?] | Hfinish]; [discriminate |].
  apply finishCon_Return in Hfinish as (Hsame & Hcase). subst s3.
  pose proof (beforeLogging_wiring s) as W1. rewrite Hbefore in W1.
  destruct W1 as (_ & _ & A1).
  pose proof (resolveLogging_wiring (fst loaded) s1) as W2. rewrite Hlog in W2.
  destruct W2 as (_ & _ & A2). simpl in A1, A2.
  apply beforeLogging_Next in Hbefore as (t0 & t1 & t2 & t3 & t4 & t5 & _ & _ & _
                                          & Hproto & Htimeout & Hheaders & Hverify).
  apply resolveProtocol_Next in Hproto.
  pose proof (resolveTimeout_address X (fst loaded) t3) as Haddr.
  rewrite Htimeout in Haddr. simpl in Haddr. destruct Haddr as (Hp4 & _ & _).
  apply resolveTimeout_Next in Htimeout as (Hpos & _).
  pose proof (resolveHeaders_endpoint X (fst loaded) t4) as E5.
  rewrite Hheaders in E5. simpl in E5. destruct E5 as (Hp5 & Ht5 & _ & _).
  pose proof (resolveVerify_endpoint X (fst loaded) t5) as E6.
  rewrite Hverify in E6. simpl in E6. destruct E6 as (Hp6 & Ht6 & _ & _).
  pose proof (resolveLogging_endpoint X (fst loaded) s1) as E7.
  rewrite Hlog in E7. simpl in E7. destruct E7 as (Hp7 & Ht7 & _ & _).
  apply setupClient_Next in Hsetup as (tr & _ & Hcon & _ & (Hp8 & Ht8 & _ & _) & _ & _ & A3).
  assert (Hprotocol : Protocol (client s') = Protocol (client t3)) by congruence.
  assert (Htime : Timeout (client s') = Timeout (client t4)) by congruence.
  rewrite Hprotocol, Htime, Hcon.
  split; [| split; [| split; [| repeat split; trivial; congruence]]].
  - intros ->. destruct Hcase as [(_ & H) | (H & _)]; [exact H | discriminate].
  - intros ->. destruct Hcase as [(H & _) | (_ & Hr & Hh)]; [discriminate | auto].
  - destruct He as [-> | ->]; reflexivity.
Qed.

(** X10. A credentials file that cannot be read, or whose content is
    not valid JSON, makes [initCon] return that error after the one
    file read and before anything is resolved: the client is as it was.
    In testing mode the content comes from the client and no file is
    read. *)
Theorem initCon_file_errors_come_first :
  forall s,
    credsFile (client s) <> "" ->
    (testData (client s) = [] ->
     (forall msg,
         ReadFile X (world s) (credsFile (client s)) = Bad msg ->
         initCon X s
         = (mkState (world s) (client s)
              (trace s ++ [EvReadFile (credsFile (client s))])%list,
            Returned (Some (ErrLibrary FromReadFile (Reported msg)))))
     /\ (forall b,
            ReadFile X (world s) (credsFile (client s)) = Good b ->
            Json.checkValid b = false ->
            initCon X s
            = (mkState (world s) (client s)
                 (trace s ++ [EvReadFile (credsFile (client s))])%list,
               Returned (Some (ErrLibrary FromUnmarshalFile JsonSyntax)))))
    /\ (testData (client s) <> [] ->
        Json.checkValid (authFileContent (client s)) = false ->
        initCon X s = (s, Returned (Some (ErrLibrary FromUnmarshalFile JsonSyntax)))).
Proof.
  intros s Hfile. apply isEmpty_false in Hfile.
  assert (Hfail : forall s' r, loadJson X s = (s', Return r) ->
                               initCon X s = (s', Returned r)).
  { intros s' r Hload. unfold initCon, beforeLogging, run.
    now rewrite (bind_Return _ _ _ _ _ (bind_Return _ _ _ _ _ Hload)). }
  split; [intros Htest; split |].
  - intros msg Hread. apply Hfail.
    unfold loadJson. rewrite bind_getClient, Hfile, Htest.
    unfold bind, emit, ask, returnWith. simpl. now rewrite Hread.
  - intros b Hread Hbad. apply Hfail.
    unfold loadJson. rewrite bind_getClient, Hfile, Htest.
    unfold bind, emit, ask, returnWith, ret, Unmarshal. simpl. now rewrite Hread, Hbad.
  - intros Htest Hbad. apply Hfail.
    unfold loadJson. rewrite bind_getClient, Hfile.
    destruct (testData (client s)) eqn:Hdata; [congruence |].
    unfold bind, returnWith, ret, Unmarshal. simpl. rewrite Hbad. now destruct s.
Qed.

(** **** The environment *)

Lemma bind_congr {R A B : Type} (m1 m2 : M R A) (k1 k2 : A -> @M W R B) s :
  m1 s = m2 s ->
  (forall s1 a, m2 s = (s1, Next a) -> k1 a s1 = k2 a s1) ->
  bind m1 k1 s = bind m2 k2 s.
Proof.
  intros Hm Hk. unfold bind. rewrite Hm.
  destruct (m2 s) as [s1 [a | r | why]]; auto.
Qed.

(** Every block before the HTTP client leaves the environment switch. *)
Lemma block_keeps_switch {A : Type} (m : @M W (option (error O)) A) s s' a :
  respects sameIdentity m ->
  m s = (s', Next a) ->
  CheckEnvironment (client s) = false ->
  CheckEnvironment (client s') = false.
Proof.
  intros Hm Hrun Hoff. specialize (Hm s). rewrite Hrun in Hm.
  destruct Hm as (_ & _ & _ & _ & _ & Hswitch & _). simpl in Hswitch. congruence.
Qed.

Lemma blocks_sameIdentity jc :
  respects sameIdentity (loadJson X)
  /\ respects sameIdentity (resolveHost X jc)
  /\ respects sameIdentity (resolveRegion X jc)
  /\ respects sameIdentity (resolveProtocol X jc)
  /\ respects sameIdentity (resolveTimeout X jc)
  /\ respects sameIdentity (resolveHeaders X jc)
  /\ respects sameIdentity (resolveVerify X jc).
Proof.
  assert (Hset : forall (f : Client -> Client),
             (forall c, sameIdentity c (f c)) ->
             respects sameIdentity (@modify W (option (error O)) f)).
  { intros f Hf. now apply respects_modify. }
  repeat lazymatch goal with
         | |- _ /\ _ => split
         end;
    unfold loadJson, resolveHost, resolveRegion, resolveProtocol, resolveTimeout,
      resolveHeaders, resolveVerify, getenv, deref;
    frame sameIdentity_refl sameIdentity_trans;
    apply Hset; intros ?; repeat split.
Qed.

Section EnvironmentOff.

Variable env : W -> string -> string.

Lemma resolveHost_off jc s :
  CheckEnvironment (client s) = false ->
  resolveHost (withGetenv env X) jc s = resolveHost X jc s.
Proof.
  intros Hoff. unfold resolveHost. rewrite !bind_getClient.
  destruct (isEmpty (Host (client s))); [| reflexivity].
  unfold bind, getenv, ask. now rewrite Hoff.
Qed.

Lemma resolveRegion_off jc s :
  CheckEnvironment (client s) = false ->
  resolveRegion (withGetenv env X) jc s = resolveRegion X jc s.
Proof.
  intros Hoff. unfold resolveRegion. rewrite !bind_getClient.
  destruct (isEmpty (Region (client s))); [| reflexivity].
  unfold bind, getenv, ask. now rewrite Hoff.
Qed.

Lemma resolveProtocol_off jc s :
  CheckEnvironment (client s) = false ->
  resolveProtocol (withGetenv env X) jc s = resolveProtocol X jc s.
Proof.
  intros Hoff. unfold resolveProtocol. rewrite !bind_getClient.
  destruct (isEmpty (Protocol (client s))); [| reflexivity].
  unfold bind at 1 3. unfold bind at 1 3. unfold getenv, ask. now rewrite Hoff.
Qed.

Lemma resolveTimeout_off jc s :
  CheckEnvironment (client s) = false ->
  resolveTimeout (withGetenv env X) jc s = resolveTimeout X jc s.
Proof.
  intros Hoff. unfold resolveTimeout. rewrite !bind_getClient.
  destruct (Timeout (client s) =? 0); [| reflexivity].
  unfold bind at 1 3. unfold bind at 1 3. unfold getenv, ask. now rewrite Hoff.
Qed.

Lemma resolveHeaders_off jc s :
  CheckEnvironment (client s) = false ->
  resolveHeaders (withGetenv env X) jc s = resolveHeaders X jc s.
Proof.
  intros Hoff. unfold resolveHeaders. rewrite !bind_getClient.
  destruct (length (Headers (client s)) =? 0)%nat; [| reflexivity].
  unfold bind at 1 3. unfold getenv, ask. now rewrite Hoff.
Qed.

Lemma resolveVerify_off jc s :
  CheckEnvironment (client s) = false ->
  resolveVerify (withGetenv env X) jc s = resolveVerify X jc s.
Proof.
  intros Hoff. unfold resolveVerify. rewrite !bind_getClient.
  destruct (negb (SkipVerifyCertificate (client s))); [| reflexivity].
  unfold bind at 1 3. unfold getenv, ask. now rewrite Hoff.
Qed.

Lemma resolveLogging_off jc s :
  CheckEnvironment (client s) = false ->
  resolveLogging (withGetenv env X) jc s = resolveLogging X jc s.
Proof.
  intros Hoff. unfold resolveLogging. rewrite !bind_getClient.
  destruct (Logging (client s) =? 0); [| reflexivity].
  apply bind_congr; [| reflexivity].
  unfold loggingTokens. rewrite !bind_getClient.
  unfold bind, getenv, ask. now rewrite Hoff.
Qed.

(** X11. With [CheckEnvironment] off the environment plays no part:
    [initCon] ends in the same state with the same result whatever the
    environment variables hold. *)
Theorem initCon_ignores_environment_when_off :
  forall s,
    CheckEnvironment (client s) = false ->
    initCon (withGetenv env X) s = initCon X s.
Proof.
  intros s Hoff.
  destruct (blocks_sameIdentity None) as (Hload & _).
  unfold initCon, run.
  match goal with
  | |- (let (_, _) := ?a in _) = (let (_, _) := ?b in _) => cut (a = b)
  end; [now intros -> |].
  apply bind_congr.
  - unfold beforeLogging. apply bind_congr; [reflexivity |].
    intros s0 jc H0. pose proof (block_keeps_switch _ _ _ _ Hload H0 Hoff) as Hoff0.
    destruct (blocks_sameIdentity jc) as (_ & Hhost & Hregion & Hproto & Htime & Hhead & _).
    apply bind_congr; [now apply resolveHost_off |].
    intros s1 [] H1. pose proof (block_keeps_switch _ _ _ _ Hhost H1 Hoff0) as Hoff1.
    apply bind_congr; [now apply resolveRegion_off |].
    intros s2 [] H2. pose proof (block_keeps_switch _ _ _ _ Hregion H2 Hoff1) as Hoff2.
    apply bind_congr; [now apply resolveProtocol_off |].
    intros s3 [] H3. pose proof (block_keeps_switch _ _ _ _ Hproto H3 Hoff2) as Hoff3.
    apply bind_congr; [now apply resolveTimeout_off |].
    intros s4 tout H4. pose proof (block_keeps_switch _ _ _ _ Htime H4 Hoff3) as Hoff4.
    apply bind_congr; [now apply resolveHeaders_off |].
    intros s5 [] H5. pose proof (block_keeps_switch _ _ _ _ Hhead H5 Hoff4) as Hoff5.
    apply bind_congr; [now apply resolveVerify_off |].
    reflexivity.
  - intros s1 loaded Hbefore.
    apply bind_congr; [| reflexivity].
    apply resolveLogging_off.
    assert (Hsame : respects sameIdentity (beforeLogging X)).
    { destruct (blocks_sameIdentity None) as (H0 & _).
      unfold beforeLogging.
      sequence sameIdentity_trans; try exact H0.
      all: try (apply respects_ret; apply sameIdentity_refl).
      all: match goal with
           | |- respects _ (_ X ?jc) =>
               destruct (blocks_sameIdentity jc) as (? & ? & ? & ? & ? & ? & ?); assumption
           end. }
    exact (block_keeps_switch _ _ _ _ Hsame Hbefore Hoff).
Qed.

End EnvironmentOff.

(** X12. The environment comes before the content of the credentials
    file: when the file, if there is one, could be read and decoded
    (to an object or to the literal null), with [CheckEnvironment] on,
    no host on the struct and a non-empty CLOUD_NGFW_HOST, the host
    after [initCon] is the value of the variable, whatever host the
    file holds and however [initCon] ends after that. *)
Theorem initCon_host_from_environment :
  forall s s0 jc val,
    loadJson X s = (s0, Next jc) ->
    Host (client s) = "" ->
    CheckEnvironment (client s) = true ->
    Getenv X (world s) "CLOUD_NGFW_HOST" = val ->
    val <> "" ->
    Host (client (fst (initCon X s))) = val.
Proof.
  intros s s0 jc val Hload Hhost Henv Hval Hset.
  destruct (loadJson_Next _ _ _ Hload) as (Hc0 & Hw0 & _).
  apply isEmpty_false in Hset.
  assert (H1 : resolveHost X jc s0
               = (mkState (world s0) (setHost val (client s0)) (trace s0), Next tt)).
  { destruct s0 as [w0 c0 t0]. simpl in Hc0, Hw0. subst w0 c0.
    unfold resolveHost, bind, getClient, getenv, ask, modify. simpl.
    rewrite Hhost. simpl. rewrite Henv, Hval, Hset. reflexivity. }
  unfold initCon, beforeLogging. rewrite run_fst.
  rewrite (bind_bind_Next _ _ _ _ _ _ Hload).
  rewrite (bind_bind_Next _ _ _ _ _ _ H1).
  match goal with
  | |- Host (client (fst (?m ?st))) = _ =>
      assert (Hrest : respects (fun c c' => Host c' = Host c) m)
  end.
  { unfold resolveRegion, resolveProtocol, resolveTimeout, resolveHeaders, resolveVerify,
      resolveLogging, loggingTokens, setupClient, finishCon, getenv, deref.
    frame (fun c : Client => eq_refl (Host c))
          (fun (a b c : Client) (H : Host b = Host a) (H' : Host c = Host b) =>
             eq_trans H' H).
    all: apply respects_modify; reflexivity. }
  rewrite Hrest. reflexivity.
Qed.

(** **** The bitmask of a token list *)

Lemma hasFlag_bit (mask k : Z) :
  0 <= k -> hasFlag mask (Z.shiftl 1 k) = Z.testbit mask k.
Proof.
  intros Hk. unfold hasFlag. rewrite Z.shiftl_1_l.
  destruct (Z.testbit mask k) eqn:Hbit.
  - apply Z.eqb_eq. apply Z.bits_inj'. intros n Hn.
    rewrite Z.land_spec, Z.pow2_bits_eqb by exact Hk.
    destruct (Z.eqb_spec k n) as [<- | Hne]; [now rewrite Hbit | apply andb_false_r].
  - apply Z.eqb_neq. intros Heq. apply (f_equal (fun z => Z.testbit z k)) in Heq.
    rewrite Z.land_spec, Z.pow2_bits_eqb, Z.eqb_refl, Hbit in Heq by exact Hk.
    discriminate.
Qed.

(** The bit of a logging name. *)
Lemma logFlag_bit (x : string) (flag : Z) :
  logFlag x = Some flag ->
  exists k, 0 <= k /\ flag = Z.shiftl 1 k
            /\ forall name, logFlag name = Some (Z.shiftl 1 k) -> name = x.
Proof.
  unfold logFlag at 1.
  repeat match goal with
         | |- context [String.eqb x ?name] =>
             destruct (String.eqb_spec x name) as [-> | ?]
         end; intros [= <-];
    match goal with
    | |- exists k, _ /\ ?f = _ /\ _ =>
        let f' := eval cbv delta [LogQuiet LogLogin LogGet LogPost LogPut LogDelete LogPath
                                    LogSend LogReceive] in f in
        match f' with
        | Z.shiftl 1 ?k => exists k
        end
    end;
    (split; [lia | split; [reflexivity |]]);
    intros name; unfold logFlag;
    repeat match goal with
           | |- context [String.eqb name ?n] =>
               destruct (String.eqb_spec name n) as [-> | ?]
           end; intros H; try reflexivity; try discriminate H.
Qed.

Lemma hasFlag_lor (lv : Z) (x name : string) (fx flag : Z) :
  logFlag x = Some fx ->
  logFlag name = Some flag ->
  hasFlag (Z.lor lv fx) flag = hasFlag lv flag || String.eqb name x.
Proof.
  intros Hx Hname.
  destruct (logFlag_bit x fx Hx) as (j & Hj & -> & Hinj).
  destruct (logFlag_bit name flag Hname) as (k & Hk & -> & _).
  rewrite !hasFlag_bit, Z.lor_spec by exact Hk. f_equal.
  rewrite Z.shiftl_1_l, Z.pow2_bits_eqb by exact Hj.
  destruct (Z.eqb_spec j k) as [<- | Hne]; destruct (String.eqb_spec name x) as [-> | Hxn];
    try reflexivity.
  - exfalso. apply Hxn. now apply Hinj.
  - exfalso. apply Hne. rewrite Hx in Hname. injection Hname as Heq.
    apply (f_equal (fun z => Z.testbit z k)) in Heq.
    rewrite !Z.shiftl_1_l, !Z.pow2_bits_eqb, Z.eqb_refl in Heq by assumption.
    now apply Z.eqb_eq.
Qed.

Lemma parseLogging_flags (ll : list string) :
  forall lv lv' name flag,
    parseLogging ll lv = inl lv' ->
    logFlag name = Some flag ->
    hasFlag lv' flag = hasFlag lv flag || existsb (String.eqb name) ll.
Proof.
  induction ll as [| x rest IH]; intros lv lv' name flag; simpl.
  - intros [= <-] _. now rewrite orb_false_r.
  - destruct (logFlag x) as [fx |] eqn:Hx; [| discriminate].
    intros Hparse Hname. rewrite (IH _ _ _ _ Hparse Hname).
    rewrite (hasFlag_lor lv x name fx flag Hx Hname). now rewrite orb_assoc.
Qed.

Lemma parseLogging_known (ll : list string) :
  forall lv, Forall (fun x => In x loggingNames) ll -> exists lv', parseLogging ll lv = inl lv'.
Proof.
  induction ll as [| x rest IH]; intros lv Hall; simpl; [eauto |].
  inversion Hall as [| ? ? Hx Hrest]; subst.
  destruct (logFlag x) as [fx |] eqn:Hflag; [now apply IH |].
  apply logFlag_unknown in Hflag. contradiction.
Qed.

(** X13. When [initCon] reaches its logging block with a zero
    bitmask on the struct and the block resolves a non-empty token
    list of accepted names, the bitmask it stores has the flag of a
    name set exactly when the name is in the list, in any order and
    however often; it stays so to the end of [initCon]. *)
Theorem logging_bitmask_of_tokens :
  forall s s1 s2 json_client tout ll,
    Logging (client s) = 0 ->
    beforeLogging X s = (s1, Next (json_client, tout)) ->
    loggingTokens X json_client s1 = (s2, Next ll) ->
    ll <> [] ->
    Forall (fun x => In x loggingNames) ll ->
    forall name,
      In name loggingNames ->
      (hasFlag (Logging (client (fst (initCon X s)))) (flagOf name) = true <-> In name ll).
Proof.
  intros * Hzero Hbefore Htokens Hsome Hknown name Hname.
  pose proof (loggingTokens_state _ _ _ _ _ Htokens) as ->.
  pose proof (beforeLogging_sameLogging X s) as Hsame.
  rewrite Hbefore in Hsame. unfold sameLogging in Hsame. simpl in Hsame.
  rewrite Hzero in Hsame.
  destruct (parseLogging_known ll 0 Hknown) as (lv & Hparse).
  assert (Hblock : resolveLogging X json_client s1
                   = (mkState (world s1) (setLogging lv (client s1)) (trace s1), Next tt)).
  { unfold resolveLogging. rewrite bind_getClient, Hsame. simpl.
    rewrite (bind_Next _ _ _ _ _ Htokens), Hparse.
    destruct ll; [congruence | reflexivity]. }
  assert (Hend : Logging (client (fst (initCon X s))) = lv).
  { unfold initCon. rewrite run_fst. rewrite (bind_Next _ _ _ _ _ Hbefore). simpl fst.
    simpl snd. rewrite (bind_Next _ _ _ _ _ Hblock).
    pose proof (@afterLogging_sameLogging W O tout
                  (mkState (world s1) (setLogging lv (client s1)) (trace s1))) as Hafter.
    exact Hafter. }
  rewrite Hend.
  destruct (logFlag name) as [flag |] eqn:Hflag;
    [| apply logFlag_unknown in Hflag; contradiction].
  unfold flagOf. rewrite Hflag. simpl.
  rewrite (parseLogging_flags ll 0 lv name flag Hparse Hflag).
  assert (Hclear : hasFlag 0 flag = false).
  { unfold hasFlag. rewrite Z.land_0_l. apply Z.eqb_neq. intros Heq.
    now apply (logFlag_nonzero name flag). }
  rewrite Hclear. simpl. rewrite existsb_exists. split.
  - intros (x & Hin & Heq). apply String.eqb_eq in Heq. now subst.
  - intros Hin. exists name. split; [exact Hin | apply String.eqb_refl].
Qed.

End ResolverProperties.

(** *** The dispatcher: replies, effects and headers *)

Section TraceShapes.

Context {W : Type}.

Lemma filter_none (p : event -> bool) (evs : list event) :
  forallb (fun ev => negb (p ev)) evs = true -> List.filter p evs = [].
Proof.
  induction evs as [| ev rest IH]; simpl; [reflexivity |]. intros Hall.
  apply andb_prop in Hall as [Hev Hrest]. apply negb_true_iff in Hev. rewrite Hev. auto.
Qed.

Lemma atMostOnce_of_only (p : event -> bool) {R A : Type} (m : @M W R A) :
  only (fun ev => negb (p ev)) m -> atMostOnce p m.
Proof.
  intros Hm s. destruct (Hm s) as (evs & Htr & Hall). exists evs. split; [exact Htr |].
  rewrite (filter_none p evs Hall). simpl. lia.
Qed.

Lemma atMostOnce_emit (p : event -> bool) {R : Type} (ev : event) :
  atMostOnce p (@emit W R ev).
Proof. intros s. exists [ev]. split; [reflexivity |]. simpl. destruct (p ev); simpl; lia. Qed.

Lemma atMostOnce_bind_l (p : event -> bool) {R A B : Type} (m : M R A) (k : A -> @M W R B) :
  atMostOnce p m -> (forall a, only (fun ev => negb (p ev)) (k a)) ->
  atMostOnce p (bind m k).
Proof.
  intros Hm Hk s. unfold bind. destruct (Hm s) as (evs & Htr & Hcount).
  destruct (m s) as [s' [a | r | why]]; simpl in *; eauto.
  destruct (Hk a s') as (evs' & Htr' & Hall'). exists (evs ++ evs')%list. split.
  - now rewrite Htr', Htr, app_assoc.
  - rewrite List.filter_app, (filter_none p evs' Hall'), app_nil_r. exact Hcount.
Qed.

Lemma atMostOnce_bind_r (p : event -> bool) {R A B : Type} (m : M R A) (k : A -> @M W R B) :
  only (fun ev => negb (p ev)) m -> (forall a, atMostOnce p (k a)) ->
  atMostOnce p (bind m k).
Proof.
  intros Hm Hk s. unfold bind. destruct (Hm s) as (evs & Htr & Hall).
  destruct (m s) as [s' [a | r | why]]; simpl in *.
  - destruct (Hk a s') as (evs' & Htr' & Hcount'). exists (evs ++ evs')%list. split.
    + now rewrite Htr', Htr, app_assoc.
    + rewrite List.filter_app, (filter_none p evs Hall). exact Hcount'.
  - exists evs. split; [exact Htr |]. rewrite (filter_none p evs Hall). simpl. lia.
  - exists evs. split; [exact Htr |]. rewrite (filter_none p evs Hall). simpl. lia.
Qed.

End TraceShapes.

(** Splits a statement to show that it appends at most one event that
    the predicate selects. *)
Ltac single_event :=
  first
    [ solve [apply atMostOnce_of_only; allowed_only]
    | apply atMostOnce_emit
    | apply atMostOnce_bind_r; [solve [allowed_only] | intros ?; single_event]
    | apply atMostOnce_bind_l; [single_event | intros ?; solve [allowed_only]]
    | match goal with
      | |- atMostOnce _ (match ?x with _ => _ end) => destruct x; single_event
      end ].

Section DispatcherProperties.

Context {W I O : Type}.
Variable X : @Externals W I O.

Lemma obtainBody_exits auth method path input output creds :
  exits (earlyReply output) (obtainBody X auth method path input output creds).
Proof.
  unfold obtainBody, exchange, signRequest, roundTrip, logPrintf.
  returns. all: apply exits_returnWith; repeat split; discriminate.
Qed.

Lemma checkOutput_Next output body s s' r :
  checkOutput X output body s = (s', Next r) ->
  replyBody r = Some body
  /\ (replyErr r = None ->
      match output with
      | None => replyTarget r = None
      | Some _ => exists t, replyTarget r = Some t /\ Ok X t = true
      end)
  /\ (output = None -> replyErr r = None).
Proof.
  unfold checkOutput, bind, emit, ret. destruct output as [target |]; simpl.
  - destruct (Unmarshal (decodeOutput X) body target) as [target' [why |]]; simpl.
    + intros [= <- <-]. simpl. repeat split; discriminate.
    + destruct (Ok X target') eqn:Hok; simpl; intros [= <- <-]; simpl;
        repeat split; try discriminate; eauto.
  - intros [= <- <-]. auto.
Qed.

Lemma checkOutput_exits (Q : @reply O -> Prop) output body :
  exits Q (checkOutput X output body).
Proof. unfold checkOutput. returns. Qed.

(** X14. What a reply of [Communicate] means. A nil error comes with
    the body, and when a target was passed the target was filled and
    its [Ok] holds. A nil body comes with an error and the target as
    it was passed. A call without a target that got a body returns no
    error. *)
Theorem Communicate_reply_is_sound :
  forall auth method path input output creds s s' r,
    Communicate X auth method path input output creds s = (s', Returned r) ->
    (replyErr r = None ->
     exists body,
       replyBody r = Some body
       /\ match output with
          | None => replyTarget r = None
          | Some _ => exists t, replyTarget r = Some t /\ Ok X t = true
          end)
    /\ (replyBody r = None -> replyErr r <> None /\ replyTarget r = output)
    /\ (output = None -> replyBody r <> None -> replyErr r = None).
Proof.
  intros * Hrun. unfold Communicate in Hrun.
  apply run_Returned in Hrun as [Hrun | Hrun].
  - apply bind_Next_inv in Hrun as (s1 & body & _ & Hcheck).
    apply checkOutput_Next in Hcheck as (Hbody & Hnil & Hnone).
    rewrite Hbody. split; [| split].
    + intros Herr. exists body. split; [reflexivity | exact (Hnil Herr)].
    + intros H. discriminate H.
    + auto.
  - apply bind_Return_inv in Hrun as [Hrun | (s1 & body & _ & Hcheck)].
    + apply obtainBody_exits in Hrun as (Hbody & Herr & Htarget).
      split; [| split].
      * intros Hnil. contradiction.
      * auto.
      * intros _ Hsome. contradiction.
    + exfalso. exact (checkOutput_exits (fun _ => False) _ _ _ _ _ Hcheck).
Qed.

(** X15. In testing mode [Communicate] stays inside the process for
    every scope, method, path, input, target and credentials: it
    returns (it does not panic on the missing HTTP client), the world
    is unchanged, all it does is log, serialize and decode, and a body
    it returns is the stub. *)
Theorem Communicate_offline_is_local :
  forall auth method path input output creds s,
    testData (client s) <> [] ->
    world (fst (Communicate X auth method path input output creds s)) = world s
    /\ (exists evs,
           trace (fst (Communicate X auth method path input output creds s))
           = (trace s ++ evs)%list
           /\ forallb isLocal evs = true)
    /\ (exists r,
           snd (Communicate X auth method path input output creds s) = Returned r
           /\ forall body, replyBody r = Some body -> body = stubBody).
Proof.
  intros auth method path input output creds s Htest.
  destruct (1 <? length creds)%nat eqn:Hguard.
  { apply Nat.ltb_lt in Hguard.
    rewrite (Communicate_two_credentials X auth method path input output creds s
               ltac:(lia)).
    simpl. repeat split; [exists []; now rewrite app_nil_r | eexists; split; [reflexivity |]].
    discriminate. }
  apply Nat.ltb_ge in Hguard.
  assert (Hcases : (exists msg, exists v, input = Some v /\ Marshal X v = Bad msg)
                   \/ exists data, serializes X input data).
  { destruct input as [v |]; [| right; now exists ""].
    destruct (Marshal X v) as [data | msg] eqn:Hm; [right; now exists data | left; eauto]. }
  destruct Hcases as [(msg & v & -> & Hbad) | (data & Hdata)].
  - unfold Communicate, run, obtainBody, bind, emit, returnWith.
    rewrite (guard_one _ Hguard), Hbad. simpl.
    repeat split; [exists [EvMarshal]; auto | eexists; split; [reflexivity |]].
    discriminate.
  - unfold Communicate, run.
    rewrite (bind_Next _ _ _ _ _ (obtainBody_offline X auth method path input output creds
                                    s data Htest Hguard Hdata)).
    assert (Hlocal : forallb isLocal (offlineEvents (client s) input data) = true).
    { unfold offlineEvents, sendEvents.
      destruct input; destruct (hasFlag (Logging (client s)) LogSend);
        destruct (hasFlag (Logging (client s)) LogReceive); reflexivity. }
    unfold checkOutput, bind, emit, ret.
    destruct output as [target |]; simpl;
      try (destruct (Unmarshal (decodeOutput X) stubBody target) as [target' [why |]]; simpl;
           try destruct (Ok X target'); simpl);
      (split; [reflexivity |]);
      (split; [eexists; rewrite <- ?app_assoc; split; [reflexivity |];
               rewrite ?forallb_app, Hlocal; reflexivity
              | eexists; split; [reflexivity | now intros body [= <-]]]).
Qed.

Lemma Communicate_sends_once auth method path input output creds :
  atMostOnce isDo
    (bind (obtainBody X auth method path input output creds) (checkOutput X output)).
Proof.
  unfold obtainBody, checkOutput, exchange, signRequest, roundTrip, logPrintf.
  single_event.
Qed.

Lemma Communicate_signs_once auth method path input output creds :
  atMostOnce isSign
    (bind (obtainBody X auth method path input output creds) (checkOutput X output)).
Proof.
  unfold obtainBody, checkOutput, exchange, signRequest, roundTrip, logPrintf.
  single_event.
Qed.

Lemma Communicate_only_dispatch auth method path input output creds :
  only isDispatch
    (bind (obtainBody X auth method path input output creds) (checkOutput X output)).
Proof.
  unfold obtainBody, checkOutput, exchange, signRequest, roundTrip, logPrintf.
  allowed_only.
Qed.

(** X16. One call of [Communicate] is one attempt: whatever the
    arguments and however the call ends, it hands at most one request to
    the transport and at most one to the signer, and it never reads a
    file, opens a session or assumes a role. *)
Theorem Communicate_is_a_single_attempt :
  forall auth method path input output creds s,
    exists evs,
      trace (fst (Communicate X auth method path input output creds s))
      = (trace s ++ evs)%list
      /\ (length (List.filter isDo evs) <= 1)%nat
      /\ (length (List.filter isSign evs) <= 1)%nat
      /\ forallb isDispatch evs = true.
Proof.
  intros. unfold Communicate. rewrite run_fst.
  destruct (Communicate_sends_once auth method path input output creds s)
    as (evs & Htr & Hdo).
  destruct (Communicate_signs_once auth method path input output creds s)
    as (evs1 & Htr1 & Hsign).
  destruct (Communicate_only_dispatch auth method path input output creds s)
    as (evs2 & Htr2 & Honly).
  exists evs. split; [exact Htr |].
  rewrite Htr in Htr1, Htr2. apply app_inv_head in Htr1, Htr2. subst evs1 evs2. auto.
Qed.

Lemma applyHeaders_last (rest : list (string * string)) (k v : string)
    (h : gmap string string) :
  applyHeaders (rest ++ [(k, v)]) h !! Textproto.CanonicalMIMEHeaderKey k = Some v.
Proof.
  unfold applyHeaders. rewrite fold_left_app. simpl. unfold headerSet.
  apply lookup_insert_eq.
Qed.

(** X17. Outside testing mode, with at most one credential set, an
    input that is absent or serializes, a request that
    [http.NewRequest] accepts, one of the three scopes and, when no
    credential set is passed, an HTTP client that was set up: the
    first request that [Communicate] hands on, to the signer or to the
    transport, has the method of the call, GET when that is empty, the
    URL base/path as [http.NewRequest] parsed it and the serialized
    input as body; its content type is application/json unless a
    custom header is spelled like Content-Type, and the custom header
    that is applied last has its value under its canonical name,
    whatever was set before. *)
Theorem Communicate_custom_headers_overwrite :
  forall auth method path input output creds s data,
    testData (client s) = [] ->
    (length creds <= 1)%nat ->
    serializes X input data ->
    newRequestError X method (apiPrefix (client s) ++ "/" ++ GoStrings.Join path "/") = None ->
    auth = "" \/ auth = permissions.Firewall \/ auth = permissions.Rulestack ->
    creds <> [] \/ con (client s) <> None ->
    exists evs req,
      trace (fst (Communicate X auth method path input output creds s))
      = (trace s ++ evs)%list
      /\ handedOver evs = Some req
      /\ reqMethod req = (if String.eqb method "" then "GET" else method)
      /\ reqURL req = parseURL X (apiPrefix (client s) ++ "/" ++ GoStrings.Join path "/")
      /\ reqBody req = data
      /\ (Forall (fun kv => Textproto.CanonicalMIMEHeaderKey (fst kv) <> "Content-Type")
            (Headers (client s)) ->
          reqHeader req !! "Content-Type" = Some "application/json")
      /\ (forall rest k v,
             Headers (client s) = (rest ++ [(k, v)])%list ->
             reqHeader req !! Textproto.CanonicalMIMEHeaderKey k = Some v).
Proof.
  intros * Htest Hcreds Hdata Hnew Hauth Hsent.
  assert (Htoken : exists token, scopeToken (client s) auth = Some token).
  { destruct Hauth as [-> | [-> | ->]]; eexists; reflexivity. }
  destruct Htoken as (token & Htoken).
  destruct (Communicate_handsOver X auth method path input output creds s data token
              Htest Hcreds Hdata Hnew (setAuth_scopeToken _ _ _ _ Htoken) Hsent)
    as (evs & Htr & Hreq).
  exists evs, (expectedRequest X (client s) method path data token).
  repeat split; trivial.
  - intros Hcustom. unfold expectedRequest. simpl.
    rewrite applyHeaders_other by exact Hcustom. unfold headerSet.
    change (Textproto.CanonicalMIMEHeaderKey "Authorization") with "Authorization".
    change (Textproto.CanonicalMIMEHeaderKey "Content-Type") with "Content-Type".
    destruct token as [jwt |].
    + rewrite lookup_insert_ne by discriminate. apply lookup_insert_eq.
    + apply lookup_insert_eq.
  - intros rest k v Hheaders. unfold expectedRequest. simpl. rewrite Hheaders.
    apply applyHeaders_last.
Qed.

(** One credential set, a signer that succeeds and no HTTP client:
    [c.con.Do] panics, after the signer. *)
Lemma Communicate_signed_unconnected auth method path input output cr s data token w' signed :
  testData (client s) = [] ->
  serializes X input data ->
  newRequestError X method (apiPrefix (client s) ++ "/" ++ GoStrings.Join path "/") = None ->
  scopeToken (client s) auth = Some token ->
  Sign X (world s) (expectedRequest X (client s) method path data token) cr data
    (Region (client s)) = (w', (signed, None)) ->
  con (client s) = None ->
  Communicate X auth method path input output [cr] s
  = (mkState w' (client s)
       (trace s ++ sendEvents (client s) input data
        ++ [EvNewRequest method (apiPrefix (client s) ++ "/" ++ GoStrings.Join path "/");
            EvSign (expectedRequest X (client s) method path data token)])%list,
     Panicked "nil pointer dereference").
Proof.
  intros Htest Hdata Hnew Htoken Hsign Hcon.
  assert (Hcreds : (length [cr] <= 1)%nat) by (simpl; lia).
  apply (Communicate_exchange_Panic X auth method path input output [cr] s data _ _
           Htest Hcreds Hdata).
  rewrite (exchange_built X (client s) auth method path data output [cr] _ token Hnew
             (setAuth_scopeToken _ _ _ _ Htoken)).
  set (req := expectedRequest X (client s) method path data token) in *.
  rewrite (bind_Next _ _ _
             (mkState w' (client s)
                (trace s ++ sendEvents (client s) input data
                 ++ [EvNewRequest method
                       (apiPrefix (client s) ++ "/" ++ GoStrings.Join path "/");
                     EvSign req])%list) signed).
  - unfold roundTrip. now rewrite Hcon.
  - unfold signRequest, bind, emit, act. simpl. rewrite Hsign. simpl.
    now rewrite <- !app_assoc.
Qed.

(** X18. Outside testing mode, with one credential set, an input
    that is absent or serializes, a request that [http.NewRequest]
    accepts and one of the three scopes: the request of the
    specification, with the token of the scope and the custom headers,
    is handed to the signer with that credential set, the body and the
    region of the client. When the signer succeeds, what goes to the
    transport is the request the signer returned, or the call panics
    when the HTTP client was never set up. When the signer fails the
    call returns its error with no body, and nothing is sent. *)
Theorem Communicate_sends_what_the_signer_returned :
  forall auth method path input output cr s data token,
    testData (client s) = [] ->
    serializes X input data ->
    newRequestError X method (apiPrefix (client s) ++ "/" ++ GoStrings.Join path "/") = None ->
    scopeToken (client s) auth = Some token ->
    let c := client s in
    let req := expectedRequest X c method path data token in
    let built :=
      (trace s ++ sendEvents c input data
       ++ [EvNewRequest method (apiPrefix c ++ "/" ++ GoStrings.Join path "/")])%list in
    (forall w' signed hc,
        Sign X (world s) req cr data (Region c) = (w', (signed, None)) ->
        con c = Some hc ->
        exists rest,
          trace (fst (Communicate X auth method path input output [cr] s))
          = (built ++ [EvSign req; EvDo signed] ++ rest)%list)
    /\ (forall w' signed,
           Sign X (world s) req cr data (Region c) = (w', (signed, None)) ->
           con c = None ->
           Communicate X auth method path input output [cr] s
           = (mkState w' c (built ++ [EvSign req])%list, Panicked "nil pointer dereference"))
    /\ (forall w' signed msg,
           Sign X (world s) req cr data (Region c) = (w', (signed, Some msg)) ->
           Communicate X auth method path input output [cr] s
           = (mkState w' c (built ++ [EvSign req])%list,
              Returned (mkReply None (Some (ErrLibrary FromSigner (Reported msg))) output))).
Proof.
  intros * Htest Hdata Hnew Htoken c req built.
  pose proof (setAuth_scopeToken c auth (headerSet "Content-Type" "application/json" ∅)
                token Htoken) as Hauth.
  split; [| split].
  - intros w' signed hc Hsign Hcon.
    exact (Communicate_signed_sends X auth method path input output s data token
             Htest Hdata Hnew Hauth cr w' signed hc Hsign Hcon).
  - intros w' signed Hsign Hcon.
    rewrite (Communicate_signed_unconnected auth method path input output cr s data token
               w' signed Htest Hdata Hnew Htoken Hsign Hcon).
    unfold built. now rewrite <- !app_assoc.
  - intros w' signed msg Hsign.
    exact (Communicate_signer_fails X auth method path input output s data token
             Htest Hdata Hnew Hauth cr w' signed msg Hsign).
Qed.

End DispatcherProperties.

(** *** The token manager: what a refresh changes and sends *)

Lemma sameButJwts_refl (c : Client) : sameButJwts c c.
Proof. reflexivity. Qed.

Lemma sameButJwts_trans (a b c : Client) :
  sameButJwts a b -> sameButJwts b c -> sameButJwts a c.
Proof. unfold sameButJwts. congruence. Qed.

(** Two clients that differ in the tokens only agree on every other
    field. *)
Lemma sameButJwts_fields (c c' : Client) :
  sameButJwts c c' ->
  sameConfiguration c c' /\ sameWiring c c' /\ sameSettings c c'.
Proof.
  unfold sameButJwts. intros H.
  assert (Hp : forall {T : Type} (f : Client -> T),
             (forall x, f (setRulestackJwt "" (setFirewallJwt "" x)) = f x) -> f c' = f c).
  { intros T f Hf. rewrite <- (Hf c'), <- (Hf c). now rewrite H. }
  repeat split; try (intros f; destruct f); simpl;
    match goal with
    | |- ?f c' = ?f c => apply (Hp _ f); reflexivity
    | |- VString (?f c') = _ => f_equal; apply (Hp _ f); reflexivity
    | |- VInt (?f c') = _ => f_equal; apply (Hp _ f); reflexivity
    | |- VMap (?f c') = _ => f_equal; apply (Hp _ f); reflexivity
    end.
Qed.

Section TokenManagerProperties.

Context {W I O : Type}.
Variable X : @Externals W I O.

Lemma RefreshJwts_sameButJwts s :
  sameButJwts (client s) (client (fst (RefreshJwts X s))).
Proof.
  unfold RefreshJwts. apply (respects_run sameButJwts).
  unfold openSession, refreshFirewall, refreshRulestack, fetchJwt, logPrintf.
  frame sameButJwts_refl sameButJwts_trans.
  all: try (apply (respects_modify sameButJwts); intros c; reflexivity).
  all: apply respects_call; intros s'; rewrite Communicate_client; apply sameButJwts_refl.
Qed.

(** X19. [RefreshJwts] writes the two tokens and nothing else: the
    six configurable fields, transport, HTTP client and base URI, the
    keys, the role identifiers and every other field are as before,
    however the refresh ends. *)
Theorem RefreshJwts_changes_only_tokens :
  forall s,
    let c := client s in
    let c' := client (fst (RefreshJwts X s)) in
    setRulestackJwt (RulestackJwt c) (setFirewallJwt (FirewallJwt c) c') = c
    /\ sameConfiguration c c' /\ sameWiring c c' /\ sameSettings c c'.
Proof.
  intros s c c'. pose proof (RefreshJwts_sameButJwts s) as Hsame. fold c c' in Hsame.
  split; [| now apply sameButJwts_fields].
  unfold sameButJwts in Hsame.
  apply (f_equal (fun x => setRulestackJwt (RulestackJwt c)
                             (setFirewallJwt (FirewallJwt c) x))) in Hsame.
  destruct c, c'. exact Hsame.
Qed.

Lemma openSession_Next s s1 jwtReq :
  openSession X s = (s1, Next jwtReq) ->
  jwtReq = mkGetJwt 90 (mkJwtKeyInfo (Region (client s)) "XY")
  /\ client s1 = client s
  /\ trace s1 = (trace s ++ loginEvents (client s) ++ [EvNewSession])%list
  /\ NewSession X (world s) (staticCredentials (client s)) (Region (client s))
     = (world s1, None).
Proof.
  destruct s as [w c tr].
  unfold openSession, bind, getClient, when, logPrintf, emit, act, ret, returnWith,
    loginEvents.
  simpl.
  destruct (hasFlag (Logging c) LogLogin); simpl;
    destruct (NewSession X w (staticCredentials c) (Region c)) as [w' [msg |]]; simpl;
    intros [= <- <-]; simpl; rewrite <- ?app_assoc; auto.
Qed.

(** X20. With no role identifier at all, [RefreshJwts] opens the STS
    session and stops: it returns nil when the session could be
    created, it assumes no role and sends nothing, and the client, both
    tokens included, is as it was. *)
Theorem RefreshJwts_without_roles :
  forall s,
    Arn (client s) = "" ->
    LfaArn (client s) = "" ->
    LraArn (client s) = "" ->
    let c := client s in
    let session := NewSession X (world s) (staticCredentials c) (Region c) in
    RefreshJwts X s
    = (mkState (fst session) c (trace s ++ loginEvents c ++ [EvNewSession])%list,
       Returned (match snd session with
                 | Some msg => Some (ErrLibrary FromNewSession (Reported msg))
                 | None => None
                 end)).
Proof.
  intros [w c tr] Harn Hlfa Hlra. simpl in *.
  unfold RefreshJwts, run, openSession, refreshFirewall, refreshRulestack, bind, getClient,
    when, logPrintf, emit, act, ret, returnWith, loginEvents.
  simpl.
  destruct (hasFlag (Logging c) LogLogin); simpl;
    destruct (NewSession X w (staticCredentials c) (Region c)) as [w' [msg |]]; simpl;
    repeat (rewrite ?Harn, ?Hlfa, ?Hlra; simpl); rewrite <- ?app_assoc; reflexivity.
Qed.

(** X21. With the firewall role only: when the firewall block yields
    a token, [RefreshJwts] returns nil, [FirewallJwt] is that token and
    everything else, [RulestackJwt] included, is as before. The token
    request asks for an expiry of 90 for the region of the client and
    the tenant XY. *)
Theorem RefreshJwts_firewall_only :
  forall s0 s1 s2 jwtReq jwt,
    Arn (client s0) = "" ->
    LfaArn (client s0) <> "" ->
    LraArn (client s0) = "" ->
    openSession X s0 = (s1, Next jwtReq) ->
    fetchJwt X "firewall" (LfaArn (client s0)) "cloudfirewalladmin" jwtReq s1
    = (s2, Next jwt) ->
    RefreshJwts X s0
    = (mkState (world s2) (setFirewallJwt jwt (client s0)) (trace s2), Returned None)
    /\ jwtReq = mkGetJwt 90 (mkJwtKeyInfo (Region (client s0)) "XY").
Proof.
  intros * Harn Hlfa Hlra Hopen Hfw.
  destruct (openSession_Next _ _ _ Hopen) as (Hreq & H1 & _).
  pose proof (fetchJwt_client X "firewall" (LfaArn (client s0)) "cloudfirewalladmin" jwtReq s1)
    as H2. rewrite Hfw in H2. simpl in H2.
  split; [| exact Hreq].
  apply isEmpty_false in Hlfa.
  assert (Hfirewall : refreshFirewall X jwtReq s1
                      = (mkState (world s2) (setFirewallJwt jwt (client s2)) (trace s2),
                         Next tt)).
  { unfold refreshFirewall. rewrite bind_getClient, H1, Hlfa. cbn [negb].
    now rewrite (bind_Next _ _ _ _ _ Hfw). }
  assert (Hrulestack : refreshRulestack X jwtReq
                         (mkState (world s2) (setFirewallJwt jwt (client s2)) (trace s2))
                       = (mkState (world s2) (setFirewallJwt jwt (client s2)) (trace s2),
                          Next tt)).
  { unfold refreshRulestack. rewrite bind_getClient. cbn [client].
    change (LraArn (setFirewallJwt jwt (client s2))) with (LraArn (client s2)).
    rewrite <- H2, H1, Hlra. reflexivity. }
  unfold RefreshJwts, run. rewrite (bind_Next _ _ _ _ _ Hopen).
  rewrite bind_getClient, H1, Harn.
  change (negb (isEmpty "")) with false. cbv iota.
  rewrite (bind_Next _ _ _ _ _ Hfirewall), (bind_Next _ _ _ _ _ Hrulestack).
  unfold ret. rewrite <- H2, H1. reflexivity.
Qed.

(** When the firewall block leaves the function, [RefreshJwts]
    returns what it returned, from there. *)
Lemma RefreshJwts_first_block_returns :
  forall s0 s1 s2 jwtReq r,
    Arn (client s0) = "" ->
    LfaArn (client s0) <> "" ->
    openSession X s0 = (s1, Next jwtReq) ->
    fetchJwt X "firewall" (LfaArn (client s0)) "cloudfirewalladmin" jwtReq s1
    = (s2, Return r) ->
    RefreshJwts X s0 = (s2, Returned r)
    /\ r <> None
    /\ client s2 = client s0.
Proof.
  intros * Harn Hlfa Hopen Hfw.
  destruct (openSession_Next _ _ _ Hopen) as (_ & H1 & _).
  pose proof (fetchJwt_client X "firewall" (LfaArn (client s0)) "cloudfirewalladmin" jwtReq s1)
    as H2. rewrite Hfw in H2. simpl in H2.
  apply isEmpty_false in Hlfa.
  split; [| split; [exact (fetchJwt_return X _ _ _ _ _ _ _ Hfw) | congruence]].
  assert (Hfirewall : refreshFirewall X jwtReq s1 = (s2, Return r)).
  { unfold refreshFirewall. rewrite bind_getClient, H1, Hlfa. cbn [negb].
    now rewrite (bind_Return _ _ _ _ _ Hfw). }
  unfold RefreshJwts, run. rewrite (bind_Next _ _ _ _ _ Hopen).
  rewrite bind_getClient, H1, Harn.
  change (negb (isEmpty "")) with false. cbv iota.
  now rewrite (bind_Return _ _ _ _ _ Hfirewall).
Qed.

(** X22. With the shared role identifier empty, the firewall one
    set and a session that could be created: when the firewall step
    fails, in role assumption (STS refuses the role) or in the token
    fetch (the call of [Communicate] with the credentials of the role
    returns an error), [RefreshJwts] returns that error from the state
    the failing call left: the rulestack block does not run, whether a
    rulestack role is set or not, and the client, both tokens
    included, is as it was. *)
Theorem RefreshJwts_firewall_failure_stops :
  forall s0 w1,
    let c := client s0 in
    Arn c = "" ->
    LfaArn c <> "" ->
    NewSession X (world s0) (staticCredentials c) (Region c) = (w1, None) ->
    (forall w2 msg,
        AssumeRole X w1 (LfaArn c) "sdk_session" = (w2, Bad msg) ->
        RefreshJwts X s0
        = (roleAssumed (sessionOpened s0 w1) "firewall" (LfaArn c) w2,
           Returned (Some (ErrLibrary FromAssumeRole (Reported msg)))))
    /\ (forall w2 cr final ans e,
           AssumeRole X w1 (LfaArn c) "sdk_session" = (w2, Good cr) ->
           Communicate X "" "GET" ["v1"; "mgmt"; "tokens"; "cloudfirewalladmin"]
             (Some (jwtRequest X (tokenRequest c))) (Some (authResponseZero X)) [cr]
             (roleAssumed (sessionOpened s0 w1) "firewall" (LfaArn c) w2)
           = (final, Returned ans) ->
           replyErr ans = Some e ->
           RefreshJwts X s0 = (final, Returned (Some e)) /\ client final = c).
Proof.
  intros s0 w1 c Harn Hlfa Hsession.
  pose proof (openSession_opened X s0 w1 Hsession) as Hopen.
  split.
  - intros w2 msg Hrefused.
    pose proof (fetchJwt_refused X "firewall" (LfaArn c) "cloudfirewalladmin"
                  (tokenRequest c) (sessionOpened s0 w1) w2 msg Hrefused) as Hfirewall.
    exact (proj1 (RefreshJwts_first_block_returns s0 _ _ _ _ Harn Hlfa Hopen Hfirewall)).
  - intros w2 cr final ans e Hgranted Hfetch Herr.
    pose proof (fetchJwt_fetch_fails X "firewall" (LfaArn c) "cloudfirewalladmin"
                  (tokenRequest c) (sessionOpened s0 w1) w2 cr final ans e
                  Hgranted Hfetch Herr) as Hfirewall.
    destruct (RefreshJwts_first_block_returns s0 _ _ _ _ Harn Hlfa Hopen Hfirewall)
      as (Hrun & _ & Hclient).
    split; [exact Hrun | exact Hclient].
Qed.

Lemma reaches_call {R R' : Type} (p : @proc W R) s upto :
  (exists rest, trace (fst (p s)) = (upto ++ rest)%list) ->
  reaches (@call W R R' p) s upto.
Proof.
  intros (rest & Hrest). exists rest. unfold call.
  destruct (p s) as [s' [r | why]]; exact Hrest.
Qed.

(** X23. A role block of [RefreshJwts], outside testing mode, with a
    role that STS grants, a token request that serializes and a
    request that [http.NewRequest] accepts: it asks STS for the role
    under the session name sdk_session, serializes the token request,
    builds a GET request for base/v1/mgmt/tokens/<admin> with that body
    and, unless a custom header is spelled like Authorization, no
    Authorization header, and has it signed with the credentials that
    STS returned for the role, in this order. When the signer fails,
    the block returns its error and nothing is sent; when it succeeds,
    what goes to the transport is the request that the signer returned
    for these credentials. *)
Theorem fetchJwt_request :
  forall what arn admin jwtReq s w' cr data,
    testData (client s) = [] ->
    AssumeRole X (world s) arn "sdk_session" = (w', Good cr) ->
    Marshal X (jwtRequest X jwtReq) = Good data ->
    newRequestError X "GET" (apiPrefix (client s) ++ "/v1/mgmt/tokens/" ++ admin) = None ->
    let c := client s in
    let req := expectedRequest X c "GET" ["v1"; "mgmt"; "tokens"; admin] data None in
    let signing :=
      (trace s ++ roleEvents c what ++ [EvAssumeRole arn]
       ++ sendEvents c (Some (jwtRequest X jwtReq)) data
       ++ [EvNewRequest "GET" (apiPrefix c ++ "/v1/mgmt/tokens/" ++ admin); EvSign req])%list in
    (forall w'' signed hc,
        Sign X w' req cr data (Region c) = (w'', (signed, None)) ->
        con c = Some hc ->
        exists rest,
          trace (fst (fetchJwt X what arn admin jwtReq s))
          = (signing ++ [EvDo signed] ++ rest)%list)
    /\ (forall w'' signed msg,
           Sign X w' req cr data (Region c) = (w'', (signed, Some msg)) ->
           fetchJwt X what arn admin jwtReq s
           = (mkState w'' c signing,
              Return (Some (ErrLibrary FromSigner (Reported msg)))))
    /\ reqMethod req = "GET"
    /\ reqURL req = parseURL X (apiPrefix c ++ "/v1/mgmt/tokens/" ++ admin)
    /\ reqBody req = data
    /\ (noCustomAuthorization c -> reqHeader req !! "Authorization" = None).
Proof.
  intros * Htest Hrole Hdata Hnew c req signing.
  set (s1 := roleAssumed s what arn w').
  pose proof (fetchJwt_assumed X what arn admin jwtReq s w' cr Hrole) as Hprefix.
  fold s1 in Hprefix.
  assert (Hshape : ((trace s1 ++ sendEvents (client s1) (Some (jwtRequest X jwtReq)) data
                    ++ [EvNewRequest "GET"
                          (apiPrefix (client s1) ++ "/"
                           ++ GoStrings.Join ["v1"; "mgmt"; "tokens"; admin] "/")])
                   ++ [EvSign req])%list
                   = signing).
  { unfold signing, s1, roleAssumed. cbn [trace client]. fold c.
    change (GoStrings.Join ["v1"; "mgmt"; "tokens"; admin] "/")
      with ("v1/mgmt/tokens/" ++ admin).
    rewrite <- !app_assoc. reflexivity. }
  split; [| split; [| repeat split]].
  - intros w'' signed hc Hsign Hcon.
    destruct (Communicate_signed_sends X "" "GET" ["v1"; "mgmt"; "tokens"; admin]
                (Some (jwtRequest X jwtReq)) (Some (authResponseZero X)) s1 data None
                Htest Hdata Hnew eq_refl cr w'' signed hc Hsign Hcon) as (rest & Hrest).
    cut (reaches (fetchJwt X what arn admin jwtReq) s (signing ++ [EvDo signed])%list).
    { intros (more & Hmore). exists more. rewrite Hmore. now rewrite <- app_assoc. }
    unfold reaches. rewrite Hprefix.
    apply reaches_bind_l; [| intros ans; destruct (replyErr ans); grow].
    apply reaches_call. exists rest. rewrite Hrest, <- Hshape.
    rewrite <- !app_assoc. reflexivity.
  - intros w'' signed msg Hsign.
    pose proof (Communicate_signer_fails X "" "GET" ["v1"; "mgmt"; "tokens"; admin]
                  (Some (jwtRequest X jwtReq)) (Some (authResponseZero X)) s1 data None
                  Htest Hdata Hnew eq_refl cr w'' signed msg Hsign) as Hfails.
    rewrite Hprefix. unfold bind, call. rewrite Hfails. cbn [replyErr].
    unfold returnWith. rewrite <- Hshape. reflexivity.
  - intros Hcustom. now apply expectedRequest_authorization.
Qed.

End TokenManagerProperties.

(** *** Initialize: configuration first, tokens second *)

Lemma sameAccess_refl (c : Client) : sameAccess c c.
Proof. repeat split. Qed.

Lemma sameAccess_trans (a b c : Client) :
  sameAccess a b -> sameAccess b c -> sameAccess a c.
Proof. unfold sameAccess. intuition congruence. Qed.

Lemma sameButJwts_access (c c' : Client) : sameButJwts c c' -> sameAccess c c'.
Proof.
  intros Hsame. apply sameButJwts_fields in Hsame as (_ & _ & Hsettings).
  unfold sameSettings in Hsettings. unfold sameAccess. intuition.
Qed.

Lemma sameButJwts_configured (c c' : Client) :
  sameButJwts c c' -> configured c -> configured c'.
Proof.
  destruct c, c'. unfold sameButJwts, configured. simpl.
  intros [= -> -> -> -> -> -> -> -> -> -> -> -> -> -> -> -> -> -> -> -> -> ->]. trivial.
Qed.

Section InitializeProperties.

Context {W I O : Type}.
Variable X : @Externals W I O.

(** Outside testing mode [Initialize] is [initCon], then [RefreshJwts]
    when [initCon] returned nil. *)
Lemma Initialize_production_run s :
  testData (client s) = [] ->
  Initialize X s
  = match initCon X s with
    | (s1, Returned (Some e)) => (s1, Returned (Some e))
    | (s1, Returned None) => RefreshJwts X s1
    | (s1, Panicked why) => (s1, Panicked why)
    end.
Proof.
  intros Htest. unfold Initialize, run. rewrite bind_getClient, Htest. simpl.
  unfold bind, call, returnWith, ret.
  destruct (initCon X s) as [s1 [[e |] | why]]; simpl; trivial.
  destruct (RefreshJwts X s1) as [s2 [[e |] | why]]; reflexivity.
Qed.

(** X24. Outside testing mode, when [Initialize] returns nil both
    [initCon] and [RefreshJwts] returned nil, and the client is
    configured as [initCon] left it: the refresh changed the tokens
    only. *)
Theorem Initialize_success_is_configured :
  forall s s',
    testData (client s) = [] ->
    Initialize X s = (s', Returned None) ->
    configured (client s')
    /\ exists s1,
         initCon X s = (s1, Returned None)
         /\ RefreshJwts X s1 = (s', Returned None)
         /\ sameButJwts (client s1) (client s').
Proof.
  intros s s' Htest Hrun. rewrite (Initialize_production_run s Htest) in Hrun.
  destruct (initCon X s) as [s1 [[e |] | why]] eqn:Hcon; try discriminate.
  pose proof (RefreshJwts_sameButJwts X s1) as Hsame. rewrite Hrun in Hsame. simpl in Hsame.
  split; [| exists s1; auto].
  apply (sameButJwts_configured (client s1)); [exact Hsame |].
  exact (initCon_configured X s s1 Hcon).
Qed.

(** X25. Outside testing mode, an error of [initCon] is the error of
    [Initialize], and nothing follows it: no session is opened, no role
    assumed and no request sent; the only event is the read of the
    credentials file, and both tokens are as they were. *)
Theorem Initialize_stops_at_configuration_error :
  forall s s1 e,
    testData (client s) = [] ->
    initCon X s = (s1, Returned (Some e)) ->
    Initialize X s = (s1, Returned (Some e))
    /\ world s1 = world s
    /\ trace s1 = (trace s ++ fileEvents (client s))%list
    /\ FirewallJwt (client s1) = FirewallJwt (client s)
    /\ RulestackJwt (client s1) = RulestackJwt (client s).
Proof.
  intros s s1 e Htest Hcon.
  pose proof (initCon_outside X s) as (Hworld & Htrace).
  pose proof (initCon_body_respects X sameIdentity sameIdentity_refl sameIdentity_trans) as Hid.
  specialize (Hid ltac:(intros; repeat split) ltac:(intros; repeat split)
                  ltac:(intros; repeat split) ltac:(intros; repeat split)
                  ltac:(intros; repeat split) ltac:(intros; repeat split)
                  ltac:(intros; repeat split) ltac:(intros; repeat split)
                  ltac:(intros; repeat split) ltac:(intros; repeat split) s).
  rewrite Hcon in Hworld, Htrace, Hid. simpl in *.
  rewrite (Initialize_production_run s Htest), Hcon.
  unfold sameIdentity in Hid. intuition.
Qed.

(** X26. [Initialize] never writes the access and secret keys, the
    three role identifiers, the environment switch, the file path or
    the testing fields, in either mode and however it ends. *)
Theorem Initialize_keeps_access :
  forall s, sameAccess (client s) (client (fst (Initialize X s))).
Proof.
  intros s. destruct (testData (client s)) as [| d rest] eqn:Htest.
  - rewrite (Initialize_production_run s Htest).
    assert (Hcon : sameAccess (client s) (client (fst (initCon X s)))).
    { apply (initCon_body_respects X sameAccess sameAccess_refl sameAccess_trans);
        intros; repeat split. }
    destruct (initCon X s) as [s1 [[e |] | why]]; trivial.
    apply (sameAccess_trans _ _ _ Hcon). apply sameButJwts_access.
    apply RefreshJwts_sameButJwts.
  - rewrite Initialize_testing by (rewrite Htest; discriminate). repeat split.
Qed.

End InitializeProperties.

(** ** Concrete cases of the further properties *)

Lemma initCon_success_is_configured_witness :
  0 < Timeout (client (fst (initCon Scenario.externals (Scenario.start Scenario.plain))))
  /\ Logging (client (fst (initCon Scenario.externals (Scenario.start Scenario.plain)))) <> 0.
Proof.
  set (s' := fst (initCon Scenario.externals (Scenario.start Scenario.plain))).
  assert (Hrun : initCon Scenario.externals (Scenario.start Scenario.plain)
                 = (s', Returned None)) by (vm_compute; reflexivity).
  destruct (initCon_success_is_configured Scenario.externals _ s' Hrun)
    as (_ & Htimeout & _ & _ & _ & _ & Hlogging).
  split; [exact Htimeout | exact Hlogging].
Defined.

Lemma initCon_transport_override_witness :
  exists tr,
    Transport (client (fst (initCon Scenario.externals (Scenario.start Scenario.plain))))
    = Some tr
    /\ tr = mkTransport true false.
Proof.
  set (s' := fst (initCon Scenario.externals (Scenario.start Scenario.plain))).
  assert (Hrun : initCon Scenario.externals (Scenario.start Scenario.plain)
                 = (s', Returned None)) by (vm_compute; reflexivity).
  destruct (initCon_transport_override Scenario.externals _ s' Hrun)
    as (tr & Htr & _ & Hdefault).
  exists tr. split; [exact Htr | exact Hdefault].
Defined.

Lemma initCon_skip_verify_stays_witness :
  SkipVerifyCertificate
    (client (fst (initCon Scenario.externals (Scenario.start Fixtures.trusting)))) = true.
Proof.
  apply (initCon_skip_verify_stays Scenario.externals (Scenario.start Fixtures.trusting)).
  reflexivity.
Defined.

Lemma initCon_rejects_other_protocols_witness :
  exists s',
    initCon Scenario.externals (Scenario.start Fixtures.gopher)
    = (s', Returned (Some (ErrInvalidProtocol "gopher"))).
Proof.
  set (s := Scenario.start Fixtures.gopher).
  assert (Hload : loadJson Scenario.externals s = (s, Next (Some zeroClient)))
    by (vm_compute; reflexivity).
  assert (Hset : Protocol (client s) <> "") by discriminate.
  assert (Hother : ~ validProtocol (Protocol (client s))).
  { intros [Hp | Hp]; discriminate. }
  destruct (initCon_rejects_other_protocols Scenario.externals s s zeroClient Hload Hset Hother)
    as (s' & Hrun & _).
  exists s'. exact Hrun.
Defined.

Lemma initCon_rejects_negative_timeout_witness :
  exists s',
    initCon Scenario.externals (Scenario.start Fixtures.hasty)
    = (s', Returned (Some (ErrTimeoutNotPositive (Host (client s')))))
    /\ Timeout (client s') = -5.
Proof.
  set (s := Scenario.start Fixtures.hasty).
  assert (Hload : loadJson Scenario.externals s = (s, Next (Some zeroClient)))
    by (vm_compute; reflexivity).
  assert (Hproto : validProtocol (settledProtocol Scenario.externals s zeroClient))
    by (right; reflexivity).
  assert (Hneg : Timeout (client s) < 0) by (simpl; lia).
  destruct (initCon_rejects_negative_timeout Scenario.externals s s zeroClient Hload Hproto Hneg)
    as (s' & Hrun & _ & Htimeout & _).
  exists s'. split; [exact Hrun | exact Htimeout].
Defined.


Lemma initCon_sanity_errors_come_last_witness :
  Host (client (fst (initCon Scenario.externals (Scenario.start Fixtures.hostless)))) = ""
  /\ 0 < Timeout (client (fst (initCon Scenario.externals (Scenario.start Fixtures.hostless))))
  /\ Region (client (fst (initCon Scenario.externals (Scenario.start Fixtures.regionless))))
     = "".
Proof.
  set (s1 := fst (initCon Scenario.externals (Scenario.start Fixtures.hostless))).
  set (s2 := fst (initCon Scenario.externals (Scenario.start Fixtures.regionless))).
  assert (Hhost : initCon Scenario.externals (Scenario.start Fixtures.hostless)
                  = (s1, Returned (Some ErrNoHost))) by (vm_compute; reflexivity).
  assert (Hregion : initCon Scenario.externals (Scenario.start Fixtures.regionless)
                    = (s2, Returned (Some ErrNoRegion))) by (vm_compute; reflexivity).
  destruct (initCon_sanity_errors_come_last Scenario.externals _ s1 ErrNoHost Hhost
              (or_intror eq_refl)) as (_ & Hempty & _ & _ & Htimeout & _).
  destruct (initCon_sanity_errors_come_last Scenario.externals _ s2 ErrNoRegion Hregion
              (or_introl eq_refl)) as (Hnone & _).
  split; [exact (proj1 (Hempty eq_refl)) | split; [exact Htimeout | exact (Hnone eq_refl)]].
Defined.

Lemma initCon_file_errors_come_first_witness :
  initCon Scenario.externals (Scenario.start (Fixtures.withFile "creds.json" Scenario.plain))
  = (mkState (Scenario.mkWorld [] false) (Fixtures.withFile "creds.json" Scenario.plain)
       [EvReadFile "creds.json"],
     Returned (Some (ErrLibrary FromReadFile (Reported "open: no such file or directory"))))
  /\ initCon Scenario.externals (Scenario.start Fixtures.brokenFile)
     = (Scenario.start Fixtures.brokenFile,
        Returned (Some (ErrLibrary FromUnmarshalFile JsonSyntax))).
Proof.
  split.
  - set (s := Scenario.start (Fixtures.withFile "creds.json" Scenario.plain)).
    assert (Hfile : credsFile (client s) <> "") by discriminate.
    destruct (initCon_file_errors_come_first Scenario.externals s Hfile) as (Hread & _).
    destruct (Hread eq_refl) as (Hbad & _).
    exact (Hbad "open: no such file or directory" eq_refl).
  - set (s := Scenario.start Fixtures.brokenFile).
    assert (Hfile : credsFile (client s) <> "") by discriminate.
    destruct (initCon_file_errors_come_first Scenario.externals s Hfile) as (_ & Htesting).
    apply Htesting; [discriminate | vm_compute; reflexivity].
Defined.

Lemma initCon_ignores_environment_when_off_witness :
  initCon Fixtures.fromEnv (Scenario.start Scenario.plain)
  = initCon Scenario.externals (Scenario.start Scenario.plain).
Proof.
  apply (initCon_ignores_environment_when_off Scenario.externals
           (fun _ => Fixtures.environment) (Scenario.start Scenario.plain)).
  reflexivity.
Defined.

Lemma initCon_host_from_environment_witness :
  Host (client (fst (initCon Fixtures.fromEnv (Scenario.start Fixtures.hostFromEnv))))
  = "env.example.com".
Proof.
  set (s := Scenario.start Fixtures.hostFromEnv).
  assert (Hload : loadJson Fixtures.fromEnv s = (s, Next (Some zeroClient)))
    by (vm_compute; reflexivity).
  apply (initCon_host_from_environment Fixtures.fromEnv s s (Some zeroClient)
           "env.example.com" Hload); [reflexivity | reflexivity | reflexivity | discriminate].
Defined.

Lemma logging_bitmask_of_tokens_witness :
  hasFlag (Logging (client (fst (initCon Fixtures.fromEnvLogging
                                   (Scenario.start Scenario.fromEnvironment)))))
    (flagOf "send") = true.
Proof.
  set (X := Fixtures.fromEnvLogging).
  set (s := Scenario.start Scenario.fromEnvironment).
  set (s1 := fst (beforeLogging X s)).
  assert (Hzero : Logging (client s) = 0) by reflexivity.
  assert (Hbefore : beforeLogging X s = (s1, Next (Some zeroClient, 20000000000)))
    by (vm_compute; reflexivity).
  assert (Htokens : loggingTokens X (Some zeroClient) s1 = (s1, Next ["get"; "send"]))
    by (vm_compute; reflexivity).
  assert (Hsome : ["get"; "send"] <> []) by discriminate.
  assert (Hknown : Forall (fun x => In x loggingNames) ["get"; "send"]).
  { constructor; [unfold loggingNames; simpl; tauto |].
    constructor; [unfold loggingNames; simpl; tauto |]. constructor. }
  assert (Hname : In "send" loggingNames) by (unfold loggingNames; simpl; tauto).
  apply (logging_bitmask_of_tokens X s s1 s1 (Some zeroClient) 20000000000 ["get"; "send"]
           Hzero Hbefore Htokens Hsome Hknown "send" Hname).
  simpl. tauto.
Defined.

Lemma Communicate_reply_is_sound_witness :
  exists t,
    replyTarget (mkReply (Some "{}") None (Some ("token-1", true))) = Some t
    /\ Ok Scenario.externals t = true.
Proof.
  set (r := mkReply (Some "{}") None (Some ("token-1", true))).
  set (s' := fst (Communicate Scenario.externals "" "GET" ["v1"; "config"] None
                    (Some ("", false)) [] (Scenario.start Scenario.ready))).
  assert (Hrun : Communicate Scenario.externals "" "GET" ["v1"; "config"] None
                   (Some ("", false)) [] (Scenario.start Scenario.ready)
                 = (s', Returned r)) by (vm_compute; reflexivity).
  destruct (Communicate_reply_is_sound Scenario.externals "" "GET" ["v1"; "config"] None
              (Some ("", false)) [] _ s' r Hrun) as (Hgood & _).
  destruct (Hgood eq_refl) as (body & _ & Htarget). exact Htarget.
Defined.

Lemma Communicate_offline_is_local_witness :
  world (fst (Communicate Scenario.externals permissions.Firewall "GET" ["v1"; "config"]
                None (Some ("", true)) [] (Scenario.start Scenario.offline)))
  = Scenario.mkWorld [] false.
Proof.
  assert (Htest : testData (client (Scenario.start Scenario.offline)) <> []) by discriminate.
  exact (proj1 (Communicate_offline_is_local Scenario.externals permissions.Firewall "GET"
                  ["v1"; "config"] None (Some ("", true)) []
                  (Scenario.start Scenario.offline) Htest)).
Defined.

Lemma Communicate_custom_headers_overwrite_witness :
  exists evs req,
    trace (fst (Communicate Scenario.externals permissions.Firewall "GET" ["v1"; "config"]
                  None None [] (Scenario.start Scenario.overriding)))
    = (trace (Scenario.start Scenario.overriding) ++ evs)%list
    /\ handedOver evs = Some req
    /\ reqHeader req !! "Authorization" = Some "Basic abc".
Proof.
  set (s := Scenario.start Scenario.overriding).
  assert (Htest : testData (client s) = []) by reflexivity.
  assert (Hcreds : (length (@nil Credentials) <= 1)%nat) by (simpl; lia).
  assert (Hdata : serializes Scenario.externals None "") by reflexivity.
  assert (Hnew : newRequestError Scenario.externals "GET"
                   (apiPrefix (client s) ++ "/" ++ GoStrings.Join ["v1"; "config"] "/")
                 = None) by reflexivity.
  assert (Hauth : permissions.Firewall = "" \/ permissions.Firewall = permissions.Firewall
                  \/ permissions.Firewall = permissions.Rulestack)
    by (right; left; reflexivity).
  assert (Hcon : @nil Credentials <> [] \/ con (client s) <> None) by (right; discriminate).
  destruct (Communicate_custom_headers_overwrite Scenario.externals permissions.Firewall "GET"
              ["v1"; "config"] None None [] s "" Htest Hcreds Hdata Hnew Hauth Hcon)
    as (evs & req & Htrace & Hreq & _ & _ & _ & _ & Hlast).
  exists evs, req. split; [exact Htrace | split; [exact Hreq |]].
  exact (Hlast [] "authorization" "Basic abc" eq_refl).
Defined.

Lemma Communicate_sends_what_the_signer_returned_witness :
  exists rest,
    trace (fst (Communicate Scenario.externals permissions.Firewall "GET" ["v1"; "config"]
                  None None [Scenario.someCredentials] (Scenario.start Scenario.ready)))
    = ([EvNewRequest "GET" "https://ngfw.example.com/v1/config";
        EvSign (expectedRequest Scenario.externals Scenario.ready "GET" ["v1"; "config"] ""
                  (Some "old-firewall"));
        EvDo (Scenario.awsSigned
                (expectedRequest Scenario.externals Scenario.ready "GET" ["v1"; "config"] ""
                   (Some "old-firewall")))]
       ++ rest)%list.
Proof.
  set (s := Scenario.start Scenario.ready).
  assert (Htest : testData (client s) = []) by reflexivity.
  assert (Hdata : serializes Scenario.externals None "") by reflexivity.
  assert (Hnew : newRequestError Scenario.externals "GET"
                   (apiPrefix (client s) ++ "/" ++ GoStrings.Join ["v1"; "config"] "/")
                 = None) by reflexivity.
  assert (Htoken : scopeToken (client s) permissions.Firewall = Some (Some "old-firewall"))
    by reflexivity.
  destruct (Communicate_sends_what_the_signer_returned Scenario.externals
              permissions.Firewall "GET" ["v1"; "config"] None None Scenario.someCredentials
              s "" (Some "old-firewall") Htest Hdata Hnew Htoken) as (Hsent & _).
  exact (Hsent _ _ _ eq_refl eq_refl).
Defined.

Lemma RefreshJwts_without_roles_witness :
  RefreshJwts Scenario.externals (Scenario.start Scenario.ready)
  = (mkState (Scenario.mkWorld [] false) Scenario.ready
       [EvLog "(login) refreshing JWTs..."; EvNewSession],
     Returned None).
Proof.
  exact (RefreshJwts_without_roles Scenario.externals (Scenario.start Scenario.ready)
           eq_refl eq_refl eq_refl).
Defined.

Lemma RefreshJwts_firewall_only_witness :
  snd (RefreshJwts Scenario.externals (Scenario.start Fixtures.firewallOnly)) = Returned None
  /\ client (fst (RefreshJwts Scenario.externals (Scenario.start Fixtures.firewallOnly)))
     = setFirewallJwt "token-1" Fixtures.firewallOnly.
Proof.
  set (X := Scenario.externals).
  set (s0 := Scenario.start Fixtures.firewallOnly).
  set (jwtReq := mkGetJwt 90 (mkJwtKeyInfo "us-east-1" "XY")).
  set (s1 := fst (openSession X s0)).
  set (s2 := fst (fetchJwt X "firewall" (LfaArn (client s0)) "cloudfirewalladmin" jwtReq s1)).
  assert (Harn : Arn (client s0) = "") by reflexivity.
  assert (Hlfa : LfaArn (client s0) <> "") by discriminate.
  assert (Hlra : LraArn (client s0) = "") by reflexivity.
  assert (Hopen : openSession X s0 = (s1, Next jwtReq)) by (vm_compute; reflexivity).
  assert (Hfw : fetchJwt X "firewall" (LfaArn (client s0)) "cloudfirewalladmin" jwtReq s1
                = (s2, Next "token-1")) by (vm_compute; reflexivity).
  destruct (RefreshJwts_firewall_only X s0 s1 s2 jwtReq "token-1" Harn Hlfa Hlra Hopen Hfw)
    as (Hrun & _).
  split; [exact (f_equal snd Hrun) | exact (f_equal (fun r => client (fst r)) Hrun)].
Defined.

Lemma RefreshJwts_firewall_failure_stops_witness :
  RefreshJwts Scenario.externals (Scenario.start Fixtures.refused)
  = (mkState (Scenario.mkWorld [] false) Fixtures.refused
       [EvLog "(login) refreshing JWTs..."; EvNewSession;
        EvLog "(login) refreshing firewall JWT..."; EvAssumeRole "arn:denied"],
     Returned (Some (ErrLibrary FromAssumeRole (Reported "AccessDenied")))).
Proof.
  set (s0 := Scenario.start Fixtures.refused).
  assert (Harn : Arn (client s0) = "") by reflexivity.
  assert (Hlfa : LfaArn (client s0) <> "") by discriminate.
  assert (Hsession : NewSession Scenario.externals (world s0) (staticCredentials (client s0))
                       (Region (client s0)) = (Scenario.mkWorld [] false, None))
    by reflexivity.
  destruct (RefreshJwts_firewall_failure_stops Scenario.externals s0 _ Harn Hlfa Hsession)
    as (Hrefused & _).
  exact (Hrefused _ "AccessDenied" eq_refl).
Defined.

Lemma fetchJwt_request_witness :
  exists rest,
    trace (fst (fetchJwt Scenario.externals "firewall" "arn:lfa" "cloudfirewalladmin"
                  (mkGetJwt 90 (mkJwtKeyInfo "us-east-1" "XY"))
                  (Scenario.start Fixtures.firewallOnly)))
    = ([EvLog "(login) refreshing firewall JWT..."; EvAssumeRole "arn:lfa"]
       ++ sendEvents Fixtures.firewallOnly (Some "token request") "token request"
       ++ [EvNewRequest "GET" "https://ngfw.example.com/v1/mgmt/tokens/cloudfirewalladmin";
           EvSign (expectedRequest Scenario.externals Fixtures.firewallOnly "GET"
                     ["v1"; "mgmt"; "tokens"; "cloudfirewalladmin"] "token request" None);
           EvDo (Scenario.awsSigned
                   (expectedRequest Scenario.externals Fixtures.firewallOnly "GET"
                      ["v1"; "mgmt"; "tokens"; "cloudfirewalladmin"] "token request"
                      None))]
       ++ rest)%list.
Proof.
  set (s := Scenario.start Fixtures.firewallOnly).
  assert (Htest : testData (client s) = []) by reflexivity.
  assert (Hrole : AssumeRole Scenario.externals (world s) "arn:lfa" "sdk_session"
                  = (world s, Good Scenario.someCredentials)) by reflexivity.
  assert (Hdata : Marshal Scenario.externals
                    (jwtRequest Scenario.externals
                       (mkGetJwt 90 (mkJwtKeyInfo "us-east-1" "XY")))
                  = Good "token request") by reflexivity.
  assert (Hnew : newRequestError Scenario.externals "GET"
                   (apiPrefix (client s) ++ "/v1/mgmt/tokens/" ++ "cloudfirewalladmin")
                 = None) by reflexivity.
  destruct (fetchJwt_request Scenario.externals "firewall" "arn:lfa" "cloudfirewalladmin"
              (mkGetJwt 90 (mkJwtKeyInfo "us-east-1" "XY")) s (world s)
              Scenario.someCredentials "token request" Htest Hrole Hdata Hnew)
    as (Hsent & _).
  destruct (Hsent _ _ _ eq_refl eq_refl) as (rest & Hrest).
  exists rest. rewrite Hrest. reflexivity.
Defined.

Lemma Initialize_success_is_configured_witness :
  configured (client (fst (Initialize Scenario.externals (Scenario.start Scenario.plain)))).
Proof.
  set (s' := fst (Initialize Scenario.externals (Scenario.start Scenario.plain))).
  assert (Htest : testData (client (Scenario.start Scenario.plain)) = []) by reflexivity.
  assert (Hrun : Initialize Scenario.externals (Scenario.start Scenario.plain)
                 = (s', Returned None)) by (vm_compute; reflexivity).
  exact (proj1 (Initialize_success_is_configured Scenario.externals _ s' Htest Hrun)).
Defined.

Lemma Initialize_stops_at_configuration_error_witness :
  exists s1,
    Initialize Scenario.externals (Scenario.start Fixtures.gopher)
    = (s1, Returned (Some (ErrInvalidProtocol "gopher")))
    /\ trace s1 = [].
Proof.
  set (s := Scenario.start Fixtures.gopher).
  set (s1 := fst (initCon Scenario.externals s)).
  assert (Htest : testData (client s) = []) by reflexivity.
  assert (Hcon : initCon Scenario.externals s
                 = (s1, Returned (Some (ErrInvalidProtocol "gopher"))))
    by (vm_compute; reflexivity).
  destruct (Initialize_stops_at_configuration_error Scenario.externals s s1 _ Htest Hcon)
    as (Hrun & _ & Htrace & _).
  exists s1. split; [exact Hrun | exact Htrace].
Defined.
